(** * russian-car-plates: the modelling notebook, embedded and verified

    A shallow embedding of [data_modeling.ipynb]: column detection, the
    SMAPE metric, the cross-validated training loop, inverse-error
    ensembling and the submission writer.

    Conventions.
    - A float is a finite number, an infinity or nan ([npfloat]).  A finite
      float is a real number: rounding is not modelled, nor overflow and
      underflow of sums, products and quotients.  The exponential is the
      exception: [np.exp] overflows to inf and underflows to 0.0 on
      arguments of moderate size, and [float_exp] does so.  Zeros are
      positive.
    - A data frame is its row count and its labelled columns, in order;
      a label may occur more than once.
    - A Python [dict] keyed by model name is an association list in
      insertion order.
    - The estimators (sklearn pipelines) and the fold labels drawn by
      [StratifiedKFold] are inputs of the run: an oracle gives what each
      fit/predict call returns or whether it raises. *)

From Stdlib Require Import Reals Lra Lia List String Bool Permutation.
From stdpp Require Import base option list.
Import ListNotations.

Local Open Scope string_scope.
Local Open Scope nat_scope.

(** ** Exceptions and fallible results *)

(** [ValueOrTypeError] stands for the [ValueError] or [TypeError] that
    numpy and pandas raise on operands whose shapes do not fit, where the
    class depends on the shapes. *)
Inductive exn : Type :=
| KeyError (label : string)
| AttributeError (what : string)
| ValueError (what : string)
| ValueOrTypeError (what : string).

Inductive result (A : Type) : Type :=
| Ok (a : A)
| Raise (e : exn).
Arguments Ok {A} a.
Arguments Raise {A} e.

Definition rbind {A B : Type} (m : result A) (k : A -> result B) : result B :=
  match m with
  | Ok a => k a
  | Raise e => Raise e
  end.

Notation "'do' x <- m ; k" := (rbind m (fun x => k))
  (at level 10, x name, m at level 100, k at level 200).

(** ** Data frames *)

(** numpy's [dtype.kind] characters: b i u f c m M O S U V. *)
Inductive dtype_kind : Type :=
| Kbool | Kint | Kuint | Kfloat | Kcomplex | Ktimedelta | Kdatetime
| Kobject | Kbytes | Kunicode | Kvoid.

(** The dtype of a column: a numpy dtype, or one of pandas' extension
    dtypes (the nullable integers, floats and booleans, categories,
    strings); both have a kind. *)
Inductive dtype_t : Type :=
| numpy_dtype (k : dtype_kind)
| extension_dtype (k : dtype_kind).

Definition kind (d : dtype_t) : dtype_kind :=
  match d with
  | numpy_dtype k => k
  | extension_dtype k => k
  end.

Inductive cell : Type :=
| Num (x : R)
| Obj (s : string).

Record Series : Type := mkSeries {
  dtype : dtype_t;
  nunique : nat;            (* pandas' count of distinct non-null values *)
  values : list cell
}.

Record DataFrame : Type := mkFrame {
  nrows : nat;                          (* length of the index *)
  frame_data : list (string * Series)   (* labelled columns, in order *)
}.

Definition columns (df : DataFrame) : list string := map fst (frame_data df).


Definition mem (c : string) (l : list string) : bool := existsb (String.eqb c) l.

(** The first column labelled [c]. *)
Fixpoint lookup_col (data : list (string * Series)) (c : string) : option Series :=
  match data with
  | [] => None
  | (c', s) :: rest => if String.eqb c c' then Some s else lookup_col rest c
  end.

(** What [df[c]] selects: the column labelled [c], or, when the label is
    repeated, the frame of the columns that carry it. *)
Inductive selection : Type :=
| OneColumn (s : Series)
| SubFrame (cols : list Series).

Definition select (data : list (string * Series)) (c : string) : list Series :=
  map snd (List.filter (fun cs => String.eqb c (fst cs)) data).

Definition getitem (df : DataFrame) (c : string) : result selection :=
  match select (frame_data df) c with
  | [] => Raise (KeyError c)
  | [s] => Ok (OneColumn s)
  | cols => Ok (SubFrame cols)
  end.

(** [df.drop(columns=labels, errors=...)]; pandas raises [KeyError] for
    the absent labels (the first stands for them here) unless
    [errors='ignore']. *)
Inductive drop_errors : Type := errors_raise | errors_ignore.

Definition drop (labels : list string) (errors : drop_errors) (df : DataFrame)
  : result DataFrame :=
  let kept := List.filter (fun cs => negb (mem (fst cs) labels)) (frame_data df) in
  match errors with
  | errors_ignore => Ok (mkFrame (nrows df) kept)
  | errors_raise =>
      match List.filter (fun l => negb (mem l (columns df))) labels with
      | [] => Ok (mkFrame (nrows df) kept)
      | l :: _ => Raise (KeyError l)
      end
  end.

(** ** Run parameters (first cell) *)

Definition N_SPLITS : nat := 10.
Definition TARGET : string := "log_price".

Definition DROP_COLS : list string :=
  [ "id"; "plate"; "price"; "log_price"; "is_train";
    "is_number_000"; "is_number_444"; "is_number_222"; "is_number_700";
    "is_number_555"; "quarter"; "day_of_week"; "is_weekend";
    "prestige_score";
    "is_number_300"; "is_number_333"; "is_number_400" ].

(** ** Automatic column detection *)

(** [dtype == 'bool']: numpy's bool, and no extension dtype (the nullable
    boolean is called 'boolean'). *)
Definition dtype_eq_bool (d : dtype_t) : bool :=
  match d with numpy_dtype Kbool => true | _ => false end.

(** [dtype.kind in 'if'] *)
Definition kind_in_if (k : dtype_kind) : bool :=
  match k with Kint | Kfloat => true | _ => false end.

(** [X[c].dtype]: a frame has no attribute [dtype]. *)
Definition col_dtype (X : DataFrame) (c : string) : result dtype_t :=
  do sel <- getitem X c;
  match sel with
  | OneColumn s => Ok (dtype s)
  | SubFrame _ => Raise (AttributeError "'DataFrame' object has no attribute 'dtype'")
  end.

(** [X[c].nunique()] as a number to compare: of a frame it is a Series,
    and the truth value of a comparison with it is ambiguous. *)
Definition col_nunique (X : DataFrame) (c : string) : result nat :=
  do sel <- getitem X c;
  match sel with
  | OneColumn s => Ok (nunique s)
  | SubFrame _ => Raise (ValueError "The truth value of a Series is ambiguous")
  end.

(** [[x for x in l if p(x)]] with a condition that may raise: the
    condition is evaluated on every element, in order. *)
Fixpoint filter_r {A : Type} (p : A -> result bool) (l : list A) : result (list A) :=
  match l with
  | [] => Ok []
  | x :: rest =>
      do b <- p x;
      do kept <- filter_r p rest;
      Ok (if b then x :: kept else kept)
  end.

Definition detect_columns (X : DataFrame)
  : result (list string * list string * list string * list string * list string) :=
  do bool_cols <-
    filter_r (fun c => do d <- col_dtype X c; Ok (dtype_eq_bool d)) (columns X);
  do num_cols <-
    filter_r (fun c => do d <- col_dtype X c;
                       Ok (kind_in_if (kind d) && negb (mem c bool_cols))) (columns X);
  let cat_cols := List.filter (fun c => negb (mem c (num_cols ++ bool_cols))) (columns X) in
  do cat_low <- filter_r (fun c => do n <- col_nunique X c; Ok (n <=? 20)) cat_cols;
  do cat_mid <-
    filter_r (fun c => do n <- col_nunique X c; Ok ((20 <? n) && (n <=? 200))) cat_cols;
  do cat_high <- filter_r (fun c => do n <- col_nunique X c; Ok (200 <? n)) cat_cols;
  Ok (num_cols, bool_cols, cat_low, cat_mid, cat_high).

Definition disjoint_lists (l1 l2 : list string) : Prop :=
  forall c, In c l1 -> In c l2 -> False.

(** The five lists for a table whose labels are distinct, where every
    [X[c]] is the one column labelled [c] ([detect_columns_distinct]). *)
Definition col_test (X : DataFrame) (p : Series -> bool) (c : string) : bool :=
  match lookup_col (frame_data X) c with
  | Some s => p s
  | None => false
  end.

Definition classify (X : DataFrame)
  : list string * list string * list string * list string * list string :=
  let bool_cols := List.filter (col_test X (fun s => dtype_eq_bool (dtype s))) (columns X) in
  let num_cols :=
    List.filter (fun c => col_test X (fun s => kind_in_if (kind (dtype s))) c
                          && negb (mem c bool_cols)) (columns X) in
  let cat_cols := List.filter (fun c => negb (mem c (num_cols ++ bool_cols))) (columns X) in
  let cat_low := List.filter (col_test X (fun s => nunique s <=? 20)) cat_cols in
  let cat_mid :=
    List.filter (col_test X (fun s => (20 <? nunique s) && (nunique s <=? 200))) cat_cols in
  let cat_high := List.filter (col_test X (fun s => 200 <? nunique s)) cat_cols in
  (num_cols, bool_cols, cat_low, cat_mid, cat_high).

(** ** Arrays and floats *)

(** A float64: a finite value, an infinity, or nan. *)
Inductive npfloat : Type :=
| Fin (x : R)
| PInf
| NInf
| NaN.

(** The infinity of the sign of [x]; nan for 0 (0 * inf, 0 / 0). *)
Definition signed_inf (x : R) : npfloat :=
  if Rlt_dec 0 x then PInf else if Rlt_dec x 0 then NInf else NaN.

Definition fadd (a b : npfloat) : npfloat :=
  match a, b with
  | NaN, _ | _, NaN => NaN
  | Fin x, Fin y => Fin (x + y)%R
  | PInf, NInf | NInf, PInf => NaN
  | PInf, _ | _, PInf => PInf
  | NInf, _ | _, NInf => NInf
  end.

Definition fmul (a b : npfloat) : npfloat :=
  match a, b with
  | NaN, _ | _, NaN => NaN
  | Fin x, Fin y => Fin (x * y)%R
  | Fin x, PInf | PInf, Fin x => signed_inf x
  | Fin x, NInf | NInf, Fin x => signed_inf (- x)%R
  | PInf, PInf | NInf, NInf => PInf
  | PInf, NInf | NInf, PInf => NInf
  end.

(** numpy scalars do not raise on a zero divisor: the quotient is an
    infinity or nan. *)
Definition fdiv (a b : npfloat) : npfloat :=
  match a, b with
  | NaN, _ | _, NaN => NaN
  | Fin x, Fin y => if Req_dec_T y 0 then signed_inf x else Fin (x / y)%R
  | Fin _, PInf | Fin _, NInf => Fin 0%R
  | PInf, Fin y => if Rlt_dec y 0 then NInf else PInf
  | NInf, Fin y => if Rlt_dec y 0 then PInf else NInf
  | PInf, PInf | PInf, NInf | NInf, PInf | NInf, NInf => NaN
  end.

(** [np.exp] of a finite float: inf above the largest argument whose
    exponential is a double, 0.0 below the smallest whose exponential is
    not rounded to zero. *)
Definition EXP_OVERFLOW : R := 709.782712893384%R.
Definition EXP_UNDERFLOW : R := (-745.133219101941)%R.

Definition float_exp (x : R) : npfloat :=
  if Rlt_dec EXP_OVERFLOW x then PInf
  else if Rlt_dec x EXP_UNDERFLOW then Fin 0%R
  else Fin (exp x).

Definition fexp (a : npfloat) : npfloat :=
  match a with
  | Fin x => float_exp x
  | PInf => PInf
  | NInf => Fin 0%R
  | NaN => NaN
  end.

(** Python's [sum(values)]: left to right from 0. *)
Definition fsum (l : list npfloat) : npfloat := fold_left fadd l (Fin 0%R).

Definition np_zeros (n : nat) : list R := repeat 0%R n.
Definition np_abs (a : list R) : list R := map Rabs a.
Definition np_exp (a : list R) : list npfloat := map float_exp a.
Definition np_sum (a : list R) : R := fold_right Rplus 0%R a.

(** Elementwise operations on arrays of one length (numpy raises or
    broadcasts on a length mismatch; [zip_with] stops at the shorter). *)
Definition np_add (a b : list R) : list R := zip_with Rplus a b.
Definition np_sub (a b : list R) : list R := zip_with Rminus a b.
Definition np_div (a b : list R) : list R := zip_with Rdiv a b.
Definition np_div_scalar (a : list R) (c : R) : list R := map (fun x => (x / c)%R) a.

(** [a != 0] *)
Definition np_ne0 (a : list R) : list bool :=
  map (fun d => if Req_dec_T d 0 then false else true) a.

(** [a[mask]] *)
Fixpoint compress {A : Type} (mask : list bool) (a : list A) : list A :=
  match mask, a with
  | m :: mask', x :: a' => if m then x :: compress mask' a' else compress mask' a'
  | _, _ => []
  end.

(** [a[mask] = vals] *)
Fixpoint putmask {A : Type} (a : list A) (mask : list bool) (vals : list A) : list A :=
  match a, mask with
  | x :: a', m :: mask' =>
      if m then
        match vals with
        | v :: vals' => v :: putmask a' mask' vals'
        | [] => x :: putmask a' mask' []
        end
      else x :: putmask a' mask' vals
  | _, _ => a
  end.

(** [a[idx] = vals] for an integer index array. *)
Fixpoint setitem (a : list R) (idx : list nat) (vals : list R) : list R :=
  match idx, vals with
  | i :: idx', v :: vals' => setitem (<[i:=v]> a) idx' vals'
  | _, _ => a
  end.

(** [np.mean]: nan on an empty array. *)
Definition np_mean (a : list R) : npfloat :=
  match a with
  | [] => NaN
  | _ :: _ => Fin (np_sum a / INR (length a))%R
  end.

(** ** The SMAPE metric *)

(** On arrays of finite values. *)
Definition smape (y_true y_pred : list R) : npfloat :=
  let denominator := np_div_scalar (np_add (np_abs y_true) (np_abs y_pred)) 2 in
  let diff := np_abs (np_sub y_true y_pred) in
  let smape_term := np_zeros (length diff) in
  let non_zero_denom := np_ne0 denominator in
  let smape_term :=
    putmask smape_term non_zero_denom
      (np_div (compress non_zero_denom diff) (compress non_zero_denom denominator)) in
  fmul (np_mean smape_term) (Fin 100%R).

(** An array of floats as an array of reals, when all its entries are
    finite. *)
Fixpoint finite_array (a : list npfloat) : option (list R) :=
  match a with
  | [] => Some []
  | Fin x :: rest =>
      match finite_array rest with
      | Some xs => Some (x :: xs)
      | None => None
      end
  | _ :: _ => None
  end.

(** [smape] on the arrays that [np.exp] returns, which hold no nan but may
    hold inf: the term of an element one of whose values is inf is
    inf / inf or (inf - inf) / inf, that is nan, and with it the mean. *)
Definition smape_np (y_true y_pred : list npfloat) : npfloat :=
  match finite_array y_true, finite_array y_pred with
  | Some a, Some b => smape a b
  | _, _ => NaN
  end.

(** The metric as the design document words it: the per-element term, 0 on
    a zero denominator, averaged and scaled by 100. *)
Definition smape_term_spec (t p : R) : R :=
  if Req_dec_T ((Rabs t + Rabs p) / 2) 0 then 0%R
  else (Rabs (t - p) / ((Rabs t + Rabs p) / 2))%R.

Definition smape_spec (y_true y_pred : list R) : npfloat :=
  fmul (np_mean (zip_with smape_term_spec y_true y_pred)) (Fin 100%R).

(** ** Fold assignment *)

(** [StratifiedKFold.split]: the library labels every row with the fold
    that validates it ([test_folds]); fold [i] validates the rows labelled
    [i] and trains on the others. *)
Definition kf_split (test_folds : list nat) : list (list nat * list nat) :=
  let indices := seq 0 (length test_folds) in
  map (fun i =>
         let test_mask := map (Nat.eqb i) test_folds in
         (compress (map negb test_mask) indices, compress test_mask indices))
      (seq 0 N_SPLITS).

(** ** Cross-validated training *)

(** What one pass through the body of the fold loop does for a model:
    [pipeline.fit] or [predict(X_val)] raises before anything is stored
    (as does [kf.split] itself, in the first pass, when it refuses the
    table); or the out-of-fold predictions are stored and
    [predict(X_test)] raises; or the fold completes.  Predictions are given
    per row. *)
Inductive fold_outcome : Type :=
| RaisesBeforeStore
| RaisesAfterStore (val_pred : nat -> R)
| FoldCompletes (val_pred : nat -> R) (test_pred : nat -> R).

(** model name, fold number (from 1), training rows *)
Definition learner : Type := string -> nat -> list nat -> fold_outcome.

(** The fold loop of one model on its two arrays; the flag tells whether
    the loop ran to its end ([true]) or left through the handler. *)
Fixpoint cv_folds (fit : nat -> list nat -> fold_outcome) (n_test : nat)
    (folds : list (nat * (list nat * list nat))) (oof tst : list R)
  : list R * list R * bool :=
  match folds with
  | [] => (oof, tst, true)
  | (fold, (train_idx, val_idx)) :: rest =>
      match fit fold train_idx with
      | RaisesBeforeStore => (oof, tst, false)
      | RaisesAfterStore val_pred =>
          (setitem oof val_idx (map val_pred val_idx), tst, false)
      | FoldCompletes val_pred test_pred =>
          cv_folds fit n_test rest
            (setitem oof val_idx (map val_pred val_idx))
            (np_add tst (np_div_scalar (map test_pred (seq 0 n_test)) (INR N_SPLITS)))
      end
  end.

Definition dict (V : Type) : Type := list (string * V).

Fixpoint dict_get {V : Type} (d : dict V) (k : string) : option V :=
  match d with
  | [] => None
  | (k', v) :: rest => if String.eqb k k' then Some v else dict_get rest k
  end.

Fixpoint dict_set {V : Type} (d : dict V) (k : string) (v : V) : dict V :=
  match d with
  | [] => [(k, v)]
  | (k', v') :: rest =>
      if String.eqb k k' then (k, v) :: rest else (k', v') :: dict_set rest k v
  end.

Definition keys {V : Type} (d : dict V) : list string := map fst d.

Record cv_state : Type := mkState {
  oof_preds : dict (list R);
  test_preds : dict (list R);
  feature_importances : list string     (* the keys; the values are not used *)
}.

Definition enumerate_folds (test_folds : list nat) : list (nat * (list nat * list nat)) :=
  combine (seq 1 N_SPLITS) (kf_split test_folds).

(** One iteration of [for model_name, pipeline in pipelines.items()].  The
    two stores have an entry for every model; a missing one would raise
    [KeyError] inside the [try] and leave the state as it is. *)
Definition train_model (fit : learner) (n_test : nat) (test_folds : list nat)
    (st : cv_state) (model_name : string) : cv_state :=
  match dict_get (oof_preds st) model_name, dict_get (test_preds st) model_name with
  | Some oof, Some tst =>
      let '(oof', tst', finished) :=
        cv_folds (fit model_name) n_test (enumerate_folds test_folds) oof tst in
      mkState (dict_set (oof_preds st) model_name oof')
              (dict_set (test_preds st) model_name tst')
              (if finished then feature_importances st ++ [model_name]
               else feature_importances st)
  | _, _ => st
  end.

Definition init_state (models : list string) (n_train n_test : nat) : cv_state :=
  mkState (map (fun name => (name, np_zeros n_train)) models)
          (map (fun name => (name, np_zeros n_test)) models)
          [].

Definition train_all (fit : learner) (models : list string) (n_train n_test : nat)
    (test_folds : list nat) : cv_state :=
  fold_left (train_model fit n_test test_folds) models (init_state models n_train n_test).

(** ** Inverse-error ensembling *)

(** A dict comprehension over [names] whose value expression may raise. *)
Fixpoint dict_comp {V : Type} (names : list string) (f : string -> result V)
  : result (dict V) :=
  match names with
  | [] => Ok []
  | name :: rest =>
      do v <- f name;
      do d <- dict_comp rest f;
      Ok ((name, v) :: d)
  end.

Definition item {V : Type} (d : dict V) (k : string) : result V :=
  match dict_get d k with
  | Some v => Ok v
  | None => Raise (KeyError k)
  end.

Definition errors (models : list string) (y : list R) (st : cv_state)
  : result (dict npfloat) :=
  dict_comp models (fun name =>
    do oof <- item (oof_preds st) name;
    Ok (smape_np (np_exp y) (np_exp oof))).

Definition inv_errors (errs : dict npfloat) : dict npfloat :=
  map (fun kv => (fst kv, fdiv (Fin 1%R) (snd kv))) errs.

Definition norm_weights (inv : dict npfloat) : dict npfloat :=
  map (fun kv => (fst kv, fdiv (snd kv) (fsum (map snd inv)))) inv.

(** [arr * w] and the elementwise sum of two weighted arrays *)
Definition scale (arr : list R) (w : npfloat) : list npfloat :=
  map (fun x => fmul (Fin x) w) arr.

Definition vadd (a b : list npfloat) : list npfloat := zip_with fadd a b.

(** [sum(preds[k] * norm_weights[k] for k in preds)], the running total
    starting from 0 broadcast over the rows. *)
Fixpoint blend (preds : dict (list R)) (weights : dict npfloat) (acc : list npfloat)
  : result (list npfloat) :=
  match preds with
  | [] => Ok acc
  | (k, arr) :: rest =>
      do w <- item weights k;
      blend rest weights (vadd acc (scale arr w))
  end.

Definition ensemble_preds_log (st : cv_state) (weights : dict npfloat) (n_test : nat)
  : result (list npfloat) :=
  blend (test_preds st) weights (map Fin (np_zeros n_test)).

Definition ensemble_preds (blended : list npfloat) : list npfloat := map fexp blended.

(** A finite float, and an array of floats all of whose entries are
    finite. *)
Definition finite (v : npfloat) : Prop := exists x, v = Fin x.
Definition real_valued (a : list npfloat) : Prop := Forall finite a.

(** ** Submission *)

(** [np.clip(a, a_min=a_min, a_max=None)] *)
Definition np_clip (a : list npfloat) (a_min : R) : list npfloat :=
  map (fun v => match v with
                | Fin x => Fin (Rmax x a_min)
                | PInf => PInf
                | NInf => Fin a_min
                | NaN => NaN
                end) a.

Definition submission : Type := list (cell * npfloat).

(** [pd.DataFrame({'id': ids, 'price': price})]: the rows follow the index
    of [ids]; an array of another length is refused. *)
Definition make_submission (ids : Series) (price : list npfloat) : result submission :=
  if length (values ids) =? length price
  then Ok (combine (values ids) price)
  else Raise (ValueError "array length does not match index length").

(** The value under ['id'] has to be a column: a frame is refused. *)
Definition id_column (sel : selection) : result Series :=
  match sel with
  | OneColumn s => Ok s
  | SubFrame _ => Raise (ValueError "Data must be 1-dimensional")
  end.

Fixpoint cells_to_floats (cells : list cell) : result (list R) :=
  match cells with
  | [] => Ok []
  | Num x :: rest => do xs <- cells_to_floats rest; Ok (x :: xs)
  | Obj _ :: _ => Raise (ValueError "could not convert string to float")
  end.

(** The target as a float array, as the binning of the target
    ([KBinsDiscretizer.fit_transform]) takes it: the binning refuses an
    empty array and anything that is not a number.  Its labels only drive
    the fold assignment. *)
Definition to_floats (cells : list cell) : result (list R) :=
  match cells with
  | [] => Raise (ValueError "Found array with 0 sample(s)")
  | _ :: _ => cells_to_floats cells
  end.

(** [y = train_df[TARGET]] as the array the notebook scores against.  With
    a repeated target label [y] is a frame, and the run does not get past
    the ensemble cell: the binning flattens the frame (or refuses it),
    [kf.split] refuses a table and labels of different lengths inside the
    [try], so that every model fails at once, and [smape] raises on its
    two-dimensional operand. *)
Definition target_floats (y : selection) : result (list R) :=
  match y with
  | OneColumn s => to_floats (values s)
  | SubFrame _ => Raise (ValueOrTypeError "the target is two-dimensional")
  end.

(** ** The notebook, top to bottom *)

Record run_input : Type := mkInput {
  train_df : DataFrame;
  test_df : DataFrame;
  models : list string;          (* keys of the model registry, in order *)
  fold_of : nat -> nat;          (* the fold StratifiedKFold gives each row *)
  fit : learner
}.

Record run_trace : Type := mkTrace {
  tr_columns : list string * list string * list string * list string * list string;
  tr_state : cv_state;
  tr_errors : dict npfloat;
  tr_weights : dict npfloat;
  tr_blend : list npfloat;          (* ensemble_preds_log *)
  tr_preds : list npfloat;          (* ensemble_preds before clipping *)
  tr_submission : submission        (* what to_csv writes *)
}.

Definition run (inp : run_input) : result run_trace :=
  do X <- drop DROP_COLS errors_ignore (train_df inp);
  do y_sel <- getitem (train_df inp) TARGET;
  do X_test <- drop DROP_COLS errors_ignore (test_df inp);
  do cols <- detect_columns X;
  do y <- target_floats y_sel;
  let n_test := nrows X_test in
  let test_folds := map (fold_of inp) (seq 0 (length y)) in
  let st := train_all (fit inp) (models inp) (length y) n_test test_folds in
  do errs <- errors (models inp) y st;
  let weights := norm_weights (inv_errors errs) in
  do blended <- ensemble_preds_log st weights n_test;
  let preds := ensemble_preds blended in
  let clipped := np_clip preds 0 in
  do ids_sel <- getitem (test_df inp) "id";
  do ids <- id_column ids_sel;
  do sub <- make_submission ids clipped;
  Ok (mkTrace cols st errs weights blended preds sub).

(** The file written by the run, if any. *)
Definition written (inp : run_input) : option submission :=
  match run inp with
  | Ok tr => Some (tr_submission tr)
  | Raise _ => None
  end.

(** Whether the fold loop of a model runs to its end in this run. *)
Definition model_completes (inp : run_input) (y : list R) (name : string) : bool :=
  snd (cv_folds (fit inp name) (nrows (test_df inp))
         (enumerate_folds (map (fold_of inp) (seq 0 (length y))))
         (np_zeros (length y)) (np_zeros (nrows (test_df inp)))).

(** The feature table of a run. *)
Definition features (df : DataFrame) : DataFrame :=
  mkFrame (nrows df)
    (List.filter (fun cs => negb (mem (fst cs) DROP_COLS)) (frame_data df)).

(** ** The routing of the column classifier *)

Inductive bucket : Type := Numeric | Boolean | CatLow | CatMid | CatHigh.

Definition by_cardinality (s : Series) : bucket :=
  if nunique s <=? 20 then CatLow
  else if nunique s <=? 200 then CatMid
  else CatHigh.

(** As the code routes a column: the boolean list takes numpy's bool, the
    numeric list the kinds i and f. *)
Definition route (s : Series) : bucket :=
  match dtype s with
  | numpy_dtype Kbool => Boolean
  | _ => match kind (dtype s) with
         | Kint | Kfloat => Numeric
         | _ => by_cardinality s
         end
  end.

(** As the design words it: boolean storage to the boolean set, integer
    or float storage to the numeric set, any other column by its number of
    distinct values. *)
Definition route_spec (s : Series) : bucket :=
  match kind (dtype s) with
  | Kbool => Boolean
  | Kint | Kuint | Kfloat => Numeric
  | _ => by_cardinality s
  end.

(** ** The weight rule, as the design words it *)

(** Error metrics that are finite numbers, as a dict of floats. *)
Definition finite_errors (es : dict R) : dict npfloat :=
  map (fun kv => (fst kv, Fin (snd kv))) es.

(** The sum over the models of 1/error. *)
Definition sum_inverse (es : dict R) : R :=
  np_sum (map (fun kv => (1 / snd kv)%R) es).

(** weight(m) = (1/error(m)) / sum of 1/error *)
Definition weight_rule (es : dict R) : dict npfloat :=
  map (fun kv => (fst kv, Fin ((1 / snd kv) / sum_inverse es)%R)) es.

(** ** The ensemble scored on the training rows *)

(** [sum(oof_preds[k] * norm_weights[k] for k in oof_preds)] *)
Definition ensemble_oof_log (st : cv_state) (weights : dict npfloat) (n_train : nat)
  : result (list npfloat) :=
  blend (oof_preds st) weights (map Fin (np_zeros n_train)).

(** [smape(np.exp(y), np.exp(ensemble_oof_log))]; a prediction that is nan
    makes the mean nan as one that is inf does. *)
Definition ensemble_smape (y : list R) (oof_log : list npfloat) : npfloat :=
  smape_np (np_exp y) (map fexp oof_log).

(** ** Small tables and runs, used to exercise the definitions *)

(** Twelve training rows, dealt to the ten folds in turn. *)
Definition demo_test_folds : list nat := [0; 1; 2; 3; 4; 5; 6; 7; 8; 9; 0; 1].

(** A learner that always succeeds: in fold k it predicts k for every
    held-out row and 1 for every test row. *)
Definition demo_fit_model : nat -> list nat -> fold_outcome :=
  fun fold _ => FoldCompletes (fun _ => INR fold) (fun _ => 1%R).

(** A feature table with one column for each bucket. *)
Definition demo_X : DataFrame :=
  mkFrame 12
    [ ("year", mkSeries (numpy_dtype Kint) 5 (repeat (Num 2021) 12));
      ("is_moscow", mkSeries (numpy_dtype Kbool) 2 (repeat (Num 1) 12));
      ("region_name", mkSeries (numpy_dtype Kobject) 12 (repeat (Obj "Moscow") 12));
      ("region_code", mkSeries (numpy_dtype Kobject) 85 (repeat (Obj "77") 12));
      ("series", mkSeries (numpy_dtype Kobject) 500 (repeat (Obj "AAA") 12)) ].

(** Tables on which the code departs from the routing rule of the design:
    a column of unsigned integers, a column of pandas' nullable booleans,
    and a table in which a label occurs twice. *)
Definition demo_unsigned : DataFrame :=
  mkFrame 3 [ ("owners", mkSeries (numpy_dtype Kuint) 3 [Num 1; Num 2; Num 3]) ].

Definition demo_nullable_bool : DataFrame :=
  mkFrame 3 [ ("is_moscow", mkSeries (extension_dtype Kbool) 2 [Num 1; Num 0; Num 1]) ].

Definition demo_repeated_label : DataFrame :=
  mkFrame 3
    [ ("year", mkSeries (numpy_dtype Kint) 3 [Num 2019; Num 2020; Num 2021]);
      ("year", mkSeries (numpy_dtype Kint) 1 [Num 2021; Num 2021; Num 2021]) ].

(** Twelve listings, each of log-price 1, and two listings to price. *)
Definition demo_train_df : DataFrame :=
  mkFrame 12
    (("id", mkSeries (numpy_dtype Kint) 12 (map (fun i => Num (INR i)) (seq 1 12)))
     :: ("plate", mkSeries (numpy_dtype Kobject) 12 (repeat (Obj "A001AA77") 12))
     :: ("price", mkSeries (numpy_dtype Kfloat) 1 (repeat (Num (exp 1)) 12))
     :: ("log_price", mkSeries (numpy_dtype Kfloat) 1 (repeat (Num 1) 12))
     :: frame_data demo_X).

Definition demo_test_df : DataFrame :=
  mkFrame 2
    [ ("id", mkSeries (numpy_dtype Kint) 2 [Num 101; Num 102]);
      ("plate", mkSeries (numpy_dtype Kobject) 2 [Obj "B002BB77"; Obj "C003CC99"]);
      ("year", mkSeries (numpy_dtype Kint) 2 [Num 2020; Num 2022]);
      ("is_moscow", mkSeries (numpy_dtype Kbool) 2 [Num 1; Num 0]);
      ("region_name", mkSeries (numpy_dtype Kobject) 2 [Obj "Moscow"; Obj "Tatarstan"]);
      ("region_code", mkSeries (numpy_dtype Kobject) 2 [Obj "77"; Obj "16"]);
      ("series", mkSeries (numpy_dtype Kobject) 2 [Obj "BBB"; Obj "CCC"]) ].

(** The same tables without a required column. *)
Definition demo_train_no_target : DataFrame :=
  mkFrame 12
    (List.filter (fun cs => negb (String.eqb (fst cs) TARGET)) (frame_data demo_train_df)).

Definition demo_test_no_id : DataFrame :=
  mkFrame 2
    (List.filter (fun cs => negb (String.eqb (fst cs) "id")) (frame_data demo_test_df)).

(** The training table with one of its features twice. *)
Definition demo_train_repeated : DataFrame :=
  mkFrame 12
    (frame_data demo_train_df
     ++ [("year", mkSeries (numpy_dtype Kint) 5 (repeat (Num 2021) 12))]).

(** A learner that completes the first fold, predicting log-price 1 for
    every row, and raises in the second; and one that completes every
    fold, always predicting 0. *)
Definition partial_fit : learner :=
  fun _ fold _ =>
    if fold =? 1 then FoldCompletes (fun _ => 1%R) (fun _ => 1%R)
    else RaisesBeforeStore.

Definition constant_fit : learner :=
  fun _ _ _ => FoldCompletes (fun _ => 0%R) (fun _ => 0%R).

(** A learner that completes every fold and predicts log-price 1, which is
    the target of every training row of the small run. *)
Definition exact_fit : learner :=
  fun _ _ _ => FoldCompletes (fun _ => 1%R) (fun _ => 1%R).

(** Learners that complete every fold with a log-price far below and far
    above the range of the exponential. *)
Definition low_fit : learner :=
  fun _ _ _ => FoldCompletes (fun _ => (-1000)%R) (fun _ => (-1000)%R).

Definition high_fit : learner :=
  fun _ _ _ => FoldCompletes (fun _ => 1000%R) (fun _ => 1000%R).

Definition demo_fold_of (r : nat) : nat := r mod 10.

(** The registry holds the one model; its training fails in the second
    fold. *)
Definition demo_failed_run : run_input :=
  mkInput demo_train_df demo_test_df ["XGB"] demo_fold_of partial_fit.

(** The same run with a model that completes its ten folds. *)
Definition demo_run : run_input :=
  mkInput demo_train_df demo_test_df ["XGB"] demo_fold_of constant_fit.

(** A run with two models: the first completes its folds, always
    predicting 0; every fit of the second raises. *)
Definition first_only_fit : learner :=
  fun name _ _ =>
    if String.eqb name "XGB" then FoldCompletes (fun _ => 0%R) (fun _ => 0%R)
    else RaisesBeforeStore.

Definition demo_mixed_run : run_input :=
  mkInput demo_train_df demo_test_df ["XGB"; "LGBM"] demo_fold_of first_only_fit.

(** A run with two models that both complete: the first predicts 0 for
    every row, the second 2 for the training rows and 1 for the test
    rows. *)
Definition two_fit : learner :=
  fun name _ _ =>
    if String.eqb name "XGB" then FoldCompletes (fun _ => 0%R) (fun _ => 0%R)
    else FoldCompletes (fun _ => 2%R) (fun _ => 1%R).

Definition demo_two_run : run_input :=
  mkInput demo_train_df demo_test_df ["XGB"; "LGBM"] demo_fold_of two_fit.

(** The same run with a model whose out-of-fold predictions are exact. *)
Definition demo_exact_run : run_input :=
  mkInput demo_train_df demo_test_df ["XGB"] demo_fold_of exact_fit.

(** The runs whose model predicts beyond the range of the exponential. *)
Definition demo_underflow_run : run_input :=
  mkInput demo_train_df demo_test_df ["XGB"] demo_fold_of low_fit.

Definition demo_overflow_run : run_input :=
  mkInput demo_train_df demo_test_df ["XGB"] demo_fold_of high_fit.

(** The run on the training table with a repeated feature label. *)
Definition demo_repeated_run : run_input :=
  mkInput demo_train_repeated demo_test_df ["XGB"] demo_fold_of partial_fit.

(** The errors the two small runs measure against listings of log-price 1:
    the completed run predicts log-price 0 for every row; the failed run
    leaves 0 in the ten rows its first fold did not hold out. *)
Definition demo_error : R := (smape_term_spec (exp 1) (exp 0) * 100)%R.
Definition demo_failed_error : R :=
  (10 * smape_term_spec (exp 1) (exp 0) / 12 * 100)%R.

(** The error of the second model of the run with two models. *)
Definition demo_second_error : R := (smape_term_spec (exp 1) (exp 2) * 100)%R.

(** * Properties *)

(** ** Column detection *)

Lemma mem_In (c : string) (l : list string) : mem c l = true <-> In c l.
Proof.
  unfold mem. rewrite existsb_exists. split.
  - intros [x [Hin Heq]]. apply String.eqb_eq in Heq. now subst.
  - intros Hin. exists c. split; [assumption | apply String.eqb_refl].
Qed.

Lemma lookup_col_In (data : list (string * Series)) (c : string) :
  In c (map fst data) -> exists s, lookup_col data c = Some s.
Proof.
  induction data as [| [c' s] data IH]; simpl; [tauto |].
  intros [-> | Hin].
  - rewrite String.eqb_refl. eauto.
  - destruct (String.eqb c c'); eauto.
Qed.

Lemma lookup_col_Some (data : list (string * Series)) (c : string) (s : Series) :
  lookup_col data c = Some s -> In c (map fst data).
Proof.
  induction data as [| [c' s'] data IH]; simpl; [discriminate |].
  destruct (String.eqb c c') eqn:E.
  - apply String.eqb_eq in E. auto.
  - auto.
Qed.

Lemma lookup_columns (X : DataFrame) (c : string) :
  In c (columns X) <-> exists s, lookup_col (frame_data X) c = Some s.
Proof.
  unfold columns. split.
  - apply lookup_col_In.
  - intros [s H]. eapply lookup_col_Some; eauto.
Qed.

(** *** Reading a column *)

Lemma select_absent (data : list (string * Series)) (c : string) :
  ~ In c (map fst data) -> select data c = [].
Proof.
  unfold select. induction data as [| [c' s] data IH]; simpl; [reflexivity |].
  intros Hn. destruct (String.eqb c c') eqn:E.
  - apply String.eqb_eq in E. subst. exfalso. apply Hn. now left.
  - apply IH. intros H. apply Hn. now right.
Qed.

Lemma select_present (data : list (string * Series)) (c : string) :
  In c (map fst data) -> select data c <> [].
Proof.
  unfold select. induction data as [| [c' s] data IH]; simpl; [tauto |].
  intros Hin. destruct (String.eqb c c') eqn:E; [discriminate |].
  apply IH. destruct Hin as [-> | Hin]; [| exact Hin].
  rewrite String.eqb_refl in E. discriminate.
Qed.

Lemma select_distinct (data : list (string * Series)) (c : string) :
  List.NoDup (map fst data) ->
  select data c = match lookup_col data c with Some s => [s] | None => [] end.
Proof.
  induction data as [| [c' s] data IH]; intros Hnd; [reflexivity |].
  inversion Hnd as [| ? ? Hc Hnd']; subst. unfold select in *. simpl.
  destruct (String.eqb c c') eqn:E.
  - apply String.eqb_eq in E. subst c'. simpl. f_equal.
    now apply (select_absent data c).
  - now apply IH.
Qed.

Lemma select_count (data : list (string * Series)) (c : string) :
  length (select data c) = count_occ string_dec (map fst data) c.
Proof.
  unfold select. induction data as [| [c' s] data IH]; simpl; [reflexivity |].
  destruct (string_dec c' c) as [-> | Hne].
  - rewrite String.eqb_refl. simpl. now rewrite IH.
  - destruct (String.eqb c c') eqn:E; [| exact IH].
    apply String.eqb_eq in E. congruence.
Qed.

(** In a table with distinct labels [df[c]] is the column labelled [c]. *)
Lemma getitem_distinct (df : DataFrame) (c : string) :
  List.NoDup (columns df) ->
  getitem df c = match lookup_col (frame_data df) c with
                 | Some s => Ok (OneColumn s)
                 | None => Raise (KeyError c)
                 end.
Proof.
  intros Hnd. unfold getitem. rewrite (select_distinct _ c Hnd).
  now destruct (lookup_col (frame_data df) c).
Qed.

Lemma getitem_absent (df : DataFrame) (c : string) :
  ~ In c (columns df) -> getitem df c = Raise (KeyError c).
Proof. intros Hn. unfold getitem. now rewrite select_absent. Qed.

Lemma getitem_present (df : DataFrame) (c : string) :
  In c (columns df) -> exists sel, getitem df c = Ok sel.
Proof.
  intros Hin. unfold getitem. pose proof (select_present _ c Hin) as Hne.
  destruct (select (frame_data df) c) as [| s [| s' cols]]; [contradiction | eauto | eauto].
Qed.

Lemma getitem_Ok_In (df : DataFrame) (c : string) (sel : selection) :
  getitem df c = Ok sel -> In c (columns df).
Proof.
  intros H. destruct (in_dec string_dec c (columns df)) as [Hin | Hn]; [exact Hin |].
  rewrite (getitem_absent df c Hn) in H. discriminate.
Qed.

(** [df[c]] is one column exactly when the label occurs once. *)
Lemma getitem_one_column (df : DataFrame) (c : string) :
  (exists s, getitem df c = Ok (OneColumn s))
  <-> count_occ string_dec (columns df) c = 1.
Proof.
  unfold getitem, columns. rewrite <- select_count.
  destruct (select (frame_data df) c) as [| s [| s' cols]]; simpl; split;
    try discriminate; try (intros [s0 H]; discriminate H); eauto.
Qed.

(** *** List comprehensions whose condition may raise *)

Lemma filter_r_Ok {A : Type} (p : A -> result bool) (q : A -> bool) (l : list A) :
  (forall x, In x l -> p x = Ok (q x)) -> filter_r p l = Ok (List.filter q l).
Proof.
  induction l as [| x l IH]; intros H; simpl; [reflexivity |].
  rewrite (H x (or_introl eq_refl)). cbn [rbind].
  rewrite IH by (intros y Hy; apply H; now right). reflexivity.
Qed.

Lemma filter_r_Ok_inv {A : Type} (p : A -> result bool) (l kept : list A) :
  filter_r p l = Ok kept -> forall x, In x l -> exists b, p x = Ok b.
Proof.
  revert kept. induction l as [| x l IH]; intros kept H y Hy; [destruct Hy |].
  simpl in H. destruct (p x) as [b |] eqn:Ep; cbn [rbind] in H; [| discriminate].
  destruct (filter_r p l) as [kept' |] eqn:El; cbn [rbind] in H; [| discriminate].
  destruct Hy as [<- | Hy]; [eauto | eapply IH; eauto].
Qed.

Lemma filter_r_Raise {A : Type} (p : A -> result bool) (l : list A) (e : exn) :
  filter_r p l = Raise e -> exists x, In x l /\ p x = Raise e.
Proof.
  induction l as [| x l IH]; simpl; [discriminate |].
  destruct (p x) as [b |] eqn:Ep; cbn [rbind].
  - destruct (filter_r p l) as [kept |]; cbn [rbind]; [discriminate |].
    intros [= <-]. destruct (IH eq_refl) as [y [Hy Hp]]. exists y. split; [now right | exact Hp].
  - intros [= <-]. exists x. split; [now left | exact Ep].
Qed.

(** *** The five lists of a table with distinct labels *)

Lemma col_dtype_distinct (X : DataFrame) (c : string) :
  List.NoDup (columns X) -> In c (columns X) ->
  forall p : dtype_t -> bool,
  (do d <- col_dtype X c; Ok (p d)) = Ok (col_test X (fun s => p (dtype s)) c).
Proof.
  intros Hnd Hin p. unfold col_dtype, col_test. rewrite (getitem_distinct X c Hnd).
  apply lookup_columns in Hin as [s ->]. reflexivity.
Qed.

Lemma col_nunique_distinct (X : DataFrame) (c : string) :
  List.NoDup (columns X) -> In c (columns X) ->
  forall p : nat -> bool,
  (do n <- col_nunique X c; Ok (p n)) = Ok (col_test X (fun s => p (nunique s)) c).
Proof.
  intros Hnd Hin p. unfold col_nunique, col_test. rewrite (getitem_distinct X c Hnd).
  apply lookup_columns in Hin as [s ->]. reflexivity.
Qed.

Lemma detect_columns_distinct (X : DataFrame) :
  List.NoDup (columns X) -> detect_columns X = Ok (classify X).
Proof.
  intros Hnd. unfold detect_columns, classify.
  rewrite (filter_r_Ok _ (col_test X (fun s => dtype_eq_bool (dtype s))))
    by (intros c Hc; exact (col_dtype_distinct X c Hnd Hc dtype_eq_bool)).
  cbn [rbind].
  set (bool_cols := List.filter (col_test X (fun s => dtype_eq_bool (dtype s))) (columns X)).
  rewrite (filter_r_Ok _ (fun c => col_test X (fun s => kind_in_if (kind (dtype s))) c
                                   && negb (mem c bool_cols))).
  2:{ intros c Hc. unfold col_dtype, col_test. rewrite (getitem_distinct X c Hnd).
      apply lookup_columns in Hc as [s ->]. reflexivity. }
  cbn [rbind].
  set (num_cols := List.filter (fun c => col_test X (fun s => kind_in_if (kind (dtype s))) c
                                         && negb (mem c bool_cols)) (columns X)).
  set (cat_cols := List.filter (fun c => negb (mem c (num_cols ++ bool_cols))) (columns X)).
  assert (Hcat : forall c, In c cat_cols -> In c (columns X)).
  { intros c Hc. apply filter_In in Hc. tauto. }
  rewrite (filter_r_Ok _ (col_test X (fun s => nunique s <=? 20)))
    by (intros c Hc; exact (col_nunique_distinct X c Hnd (Hcat c Hc) (fun n => n <=? 20))).
  cbn [rbind].
  rewrite (filter_r_Ok _ (col_test X (fun s => (20 <? nunique s) && (nunique s <=? 200))))
    by (intros c Hc;
        exact (col_nunique_distinct X c Hnd (Hcat c Hc) (fun n => (20 <? n) && (n <=? 200)))).
  cbn [rbind].
  rewrite (filter_r_Ok _ (col_test X (fun s => 200 <? nunique s)))
    by (intros c Hc; exact (col_nunique_distinct X c Hnd (Hcat c Hc) (fun n => 200 <? n))).
  reflexivity.
Qed.

(** The detection returns only for a table with distinct labels. *)
Lemma detect_columns_Ok_distinct (X : DataFrame)
    (cols : list string * list string * list string * list string * list string) :
  detect_columns X = Ok cols -> List.NoDup (columns X).
Proof.
  unfold detect_columns. intros H.
  destruct (filter_r _ (columns X)) as [bool_cols |] eqn:Eb; cbn [rbind] in H;
    [| discriminate].
  clear H. apply (NoDup_count_occ' string_dec). intros c Hc.
  destruct (filter_r_Ok_inv _ _ _ Eb c Hc) as [b Hb].
  apply getitem_one_column. unfold col_dtype in Hb.
  destruct (getitem X c) as [[s | cols'] |]; cbn [rbind] in Hb; try discriminate.
  eauto.
Qed.

(** On a table with a repeated label the detection raises in its first
    comprehension, at [X[c].dtype]. *)
Lemma detect_columns_repeated (X : DataFrame) :
  ~ List.NoDup (columns X) ->
  detect_columns X
  = Raise (AttributeError "'DataFrame' object has no attribute 'dtype'").
Proof.
  intros Hdup. unfold detect_columns.
  destruct (filter_r (fun c => do d <- col_dtype X c; Ok (dtype_eq_bool d)) (columns X))
    as [bool_cols | e] eqn:Eb; cbn [rbind].
  - exfalso. apply Hdup. apply (NoDup_count_occ' string_dec). intros c Hc.
    destruct (filter_r_Ok_inv _ _ _ Eb c Hc) as [b Hb].
    apply getitem_one_column. unfold col_dtype in Hb.
    destruct (getitem X c) as [[s | cols'] |]; cbn [rbind] in Hb; try discriminate.
    eauto.
  - f_equal. apply filter_r_Raise in Eb as [c [Hc He]].
    unfold col_dtype in He. destruct (getitem_present X c Hc) as [sel Hsel].
    rewrite Hsel in He. cbn [rbind] in He.
    destruct sel; cbn [rbind] in He; [discriminate | now injection He].
Qed.

(** Each of the five lists holds exactly the columns the code routes to it. *)
Lemma classify_route (X : DataFrame) :
  forall num_cols bool_cols cat_low cat_mid cat_high,
  classify X = (num_cols, bool_cols, cat_low, cat_mid, cat_high) ->
  forall c b,
    In c (match b with
          | Numeric => num_cols | Boolean => bool_cols
          | CatLow => cat_low | CatMid => cat_mid | CatHigh => cat_high
          end)
    <-> exists s, lookup_col (frame_data X) c = Some s /\ route s = b.
Proof.
  intros num_cols bool_cols cat_low cat_mid cat_high Hdet c b.
  unfold classify in Hdet. injection Hdet as <- <- <- <- <-.
  assert (Hroute : forall s,
            (route s = Boolean <-> dtype_eq_bool (dtype s) = true)
            /\ (route s = Numeric
                <-> dtype_eq_bool (dtype s) = false /\ kind_in_if (kind (dtype s)) = true)
            /\ (dtype_eq_bool (dtype s) = false -> kind_in_if (kind (dtype s)) = false ->
                route s = by_cardinality s)
            /\ (dtype_eq_bool (dtype s) = true -> kind_in_if (kind (dtype s)) = false)).
  { intros s. unfold route, by_cardinality.
    destruct (dtype s) as [[] | []]; cbn;
      destruct (nunique s <=? 20); destruct (nunique s <=? 200);
      repeat split; intros; try discriminate; try reflexivity;
      try (match goal with H : _ /\ _ |- _ => destruct H end; discriminate). }
  assert (Hb : forall c, In c (List.filter (col_test X (fun s => dtype_eq_bool (dtype s))) (columns X))
                 <-> exists s, lookup_col (frame_data X) c = Some s /\ route s = Boolean).
  { intros c0. rewrite filter_In, lookup_columns. unfold col_test. split.
    - intros [[s Hs] Ht]. rewrite Hs in Ht. exists s. split; [assumption |].
      now apply (Hroute s).
    - intros [s [Hs Hk]]. split; [eauto |]. rewrite Hs. now apply (Hroute s). }
  set (bools := List.filter (col_test X (fun s => dtype_eq_bool (dtype s))) (columns X)) in *.
  assert (Hn : forall c, In c (List.filter (fun c => col_test X (fun s => kind_in_if (kind (dtype s))) c
                                                  && negb (mem c bools)) (columns X))
                 <-> exists s, lookup_col (frame_data X) c = Some s /\ route s = Numeric).
  { intros c0. rewrite filter_In, lookup_columns, andb_true_iff, negb_true_iff.
    unfold col_test. split.
    - intros [[s Hs] [Ht Hm]]. rewrite Hs in Ht. exists s. split; [assumption |].
      apply (Hroute s). split; [| exact Ht].
      destruct (dtype_eq_bool (dtype s)) eqn:E; [| reflexivity].
      destruct (Hroute s) as (_ & _ & _ & H4). rewrite (H4 E) in Ht. discriminate.
    - intros [s [Hs Hk]]. apply (Hroute s) in Hk as [Hk1 Hk2].
      split; [eauto |]. rewrite Hs. split; [exact Hk2 |].
      destruct (mem c0 bools) eqn:E; [| reflexivity].
      apply mem_In, Hb in E. destruct E as [s' [Hs' Hk']].
      rewrite Hs in Hs'. injection Hs' as <-. apply (Hroute s) in Hk'. congruence. }
  set (nums := List.filter _ (columns X)) in Hn |- *.
  assert (Hc : forall c, In c (List.filter (fun c => negb (mem c (nums ++ bools))) (columns X))
                 <-> exists s, lookup_col (frame_data X) c = Some s
                               /\ route s <> Boolean /\ route s <> Numeric).
  { intros c0. rewrite filter_In, lookup_columns, negb_true_iff. split.
    - intros [[s Hs] Hm]. exists s. split; [assumption |].
      assert (Hnot : ~ In c0 (nums ++ bools)).
      { intros Hin. apply mem_In in Hin. congruence. }
      rewrite in_app_iff, Hn, Hb in Hnot.
      split; intros Hk; apply Hnot; eauto.
    - intros [s [Hs [H1 H2]]]. split; [eauto |].
      destruct (mem c0 (nums ++ bools)) eqn:E; [| reflexivity].
      apply mem_In in E. rewrite in_app_iff, Hn, Hb in E.
      destruct E as [[s' [Hs' Hk]] | [s' [Hs' Hk]]];
        rewrite Hs in Hs'; injection Hs' as <-; contradiction. }
  set (cats := List.filter _ (columns X)) in Hc |- *.
  assert (Hcard : forall s, route s <> Boolean -> route s <> Numeric ->
            route s = by_cardinality s).
  { intros s H1 H2. destruct (Hroute s) as (Hr1 & Hr2 & Hr3 & _).
    destruct (dtype_eq_bool (dtype s)) eqn:E1; [exfalso; apply H1; now apply Hr1 |].
    destruct (kind_in_if (kind (dtype s))) eqn:E2; [exfalso; apply H2; now apply Hr2 |].
    now apply Hr3. }
  assert (Hcat : forall (p : Series -> bool) b0,
            (forall s, by_cardinality s = b0 <-> p s = true) ->
            b0 <> Boolean -> b0 <> Numeric ->
            forall c0, In c0 (List.filter (col_test X p) cats)
                       <-> exists s, lookup_col (frame_data X) c0 = Some s /\ route s = b0).
  { intros p b0 Hp Hb1 Hb2 c0. rewrite filter_In, Hc. unfold col_test. split.
    - intros [[s [Hs [H1 H2]]] Ht]. rewrite Hs in Ht. exists s. split; [assumption |].
      rewrite (Hcard s H1 H2). now apply Hp.
    - intros [s [Hs Hk]]. rewrite Hs.
      assert (H1 : route s <> Boolean) by congruence.
      assert (H2 : route s <> Numeric) by congruence.
      split; [exists s; auto |]. apply Hp. now rewrite <- (Hcard s H1 H2). }
  destruct b.
  - apply Hn.
  - apply Hb.
  - apply Hcat; try discriminate. intros s. unfold by_cardinality.
    destruct (nunique s <=? 20); [tauto |].
    destruct (nunique s <=? 200); split; discriminate.
  - apply Hcat; try discriminate. intros s. unfold by_cardinality.
    destruct (nunique s <=? 20) eqn:E1.
    + apply Nat.leb_le in E1. split; [discriminate |].
      intros H. apply andb_true_iff in H as [H _]. apply Nat.ltb_lt in H. lia.
    + apply Nat.leb_gt in E1. destruct (nunique s <=? 200) eqn:E2.
      * split; [intros _ | reflexivity]. apply andb_true_iff.
        split; [now apply Nat.ltb_lt | reflexivity].
      * split; [discriminate |]. intros H. apply andb_true_iff in H as [_ H]. discriminate.
  - apply Hcat; try discriminate. intros s. unfold by_cardinality.
    destruct (nunique s <=? 20) eqn:E1.
    + apply Nat.leb_le in E1. split; [discriminate |].
      intros H. apply Nat.ltb_lt in H. lia.
    + destruct (nunique s <=? 200) eqn:E2.
      * apply Nat.leb_le in E2. split; [discriminate |].
        intros H. apply Nat.ltb_lt in H. lia.
      * apply Nat.leb_gt in E2. split; [intros _ | reflexivity]. now apply Nat.ltb_lt.
Qed.

(** C3 as stated fails.  A column of unsigned integers has integer
    storage, and the code lists it as categorical: its kind is u, not i or
    f.  A column of pandas' nullable booleans has boolean storage, and the
    code lists it as categorical: its dtype is not equal to 'bool'.  And
    for a table in which a label occurs twice there are no five lists:
    the detection raises. *)
Lemma detect_columns_departs_from_the_design :
  (detect_columns demo_unsigned = Ok ([], [], ["owners"], [], [])
   /\ forall s, getitem demo_unsigned "owners" = Ok (OneColumn s) ->
        kind (dtype s) = Kuint /\ route_spec s = Numeric /\ route s = CatLow)
  /\ (detect_columns demo_nullable_bool = Ok ([], [], ["is_moscow"], [], [])
      /\ forall s, getitem demo_nullable_bool "is_moscow" = Ok (OneColumn s) ->
           kind (dtype s) = Kbool /\ route_spec s = Boolean /\ route s = CatLow)
  /\ detect_columns demo_repeated_label
     = Raise (AttributeError "'DataFrame' object has no attribute 'dtype'").
Proof.
  split; [| split].
  - split; [reflexivity |]. intros s [= <-]. repeat split.
  - split; [reflexivity |]. intros s [= <-]. repeat split.
  - reflexivity.
Qed.

(** C3, amended.  For a table whose labels are distinct, [detect_columns]
    returns five lists that are pairwise disjoint and together hold
    exactly the columns of the table.  A column whose dtype is numpy's
    bool is in the boolean list; otherwise one of kind i or f (a signed
    integer or a float) is in the numeric list; any other column (unsigned
    integers and nullable booleans among them) is categorical and goes by
    its number of distinct values: at most 20 to low, above 20 and at most
    200 to medium, above 200 to high.  For a table in which a label is
    repeated the detection raises [AttributeError], and it returns for no
    other table. *)
Theorem detect_columns_partition (X : DataFrame) :
  (List.NoDup (columns X) ->
   exists num_cols bool_cols cat_low cat_mid cat_high,
     detect_columns X = Ok (num_cols, bool_cols, cat_low, cat_mid, cat_high)
     /\ ForallOrdPairs disjoint_lists [num_cols; bool_cols; cat_low; cat_mid; cat_high]
     /\ (forall c, In c (columns X)
                  <-> In c (num_cols ++ bool_cols ++ cat_low ++ cat_mid ++ cat_high))
     /\ (forall c s, getitem X c = Ok (OneColumn s) ->
           (dtype s = numpy_dtype Kbool -> In c bool_cols)
           /\ (dtype s <> numpy_dtype Kbool ->
               kind (dtype s) = Kint \/ kind (dtype s) = Kfloat -> In c num_cols)
           /\ (dtype s <> numpy_dtype Kbool ->
               kind (dtype s) <> Kint -> kind (dtype s) <> Kfloat ->
                 (nunique s <= 20 -> In c cat_low)
                 /\ (20 < nunique s <= 200 -> In c cat_mid)
                 /\ (200 < nunique s -> In c cat_high))))
  /\ (~ List.NoDup (columns X) ->
      detect_columns X = Raise (AttributeError "'DataFrame' object has no attribute 'dtype'"))
  /\ (forall cols, detect_columns X = Ok cols -> List.NoDup (columns X)).
Proof.
  split; [| split; [apply detect_columns_repeated | apply detect_columns_Ok_distinct]].
  intros Hnd. rewrite (detect_columns_distinct X Hnd).
  destruct (classify X) as [[[[num_cols bool_cols] cat_low] cat_mid] cat_high] eqn:E.
  exists num_cols, bool_cols, cat_low, cat_mid, cat_high. split; [reflexivity |].
  pose proof (classify_route X _ _ _ _ _ E) as Hr.
  assert (Hd : forall b1 b2 c s1 s2, b1 <> b2 ->
            lookup_col (frame_data X) c = Some s1 /\ route s1 = b1 ->
            lookup_col (frame_data X) c = Some s2 /\ route s2 = b2 -> False).
  { intros b1 b2 c s1 s2 Hne [H1 R1] [H2 R2]. rewrite H1 in H2.
    injection H2 as <-. congruence. }
  split; [| split].
  - repeat constructor; intros c H1 H2;
      first [ apply (Hr c Numeric) in H1 | apply (Hr c Boolean) in H1
            | apply (Hr c CatLow) in H1 | apply (Hr c CatMid) in H1 ];
      first [ apply (Hr c Boolean) in H2 | apply (Hr c CatLow) in H2
            | apply (Hr c CatMid) in H2 | apply (Hr c CatHigh) in H2 ];
      destruct H1 as [s1 H1]; destruct H2 as [s2 H2];
      eapply (Hd _ _ c s1 s2); try eassumption; discriminate.
  - intros c. rewrite !in_app_iff, lookup_columns. split.
    + intros [s Hs]. destruct (route s) eqn:Er.
      * left. apply (Hr c Numeric). eauto.
      * right; left. apply (Hr c Boolean). eauto.
      * right; right; left. apply (Hr c CatLow). eauto.
      * right; right; right; left. apply (Hr c CatMid). eauto.
      * right; right; right; right. apply (Hr c CatHigh). eauto.
    + intros [H | [H | [H | [H | H]]]];
        [ apply (Hr c Numeric) in H | apply (Hr c Boolean) in H
        | apply (Hr c CatLow) in H | apply (Hr c CatMid) in H
        | apply (Hr c CatHigh) in H ];
        destruct H as [s [Hs _]]; eauto.
  - intros c s Hsel. rewrite (getitem_distinct X c Hnd) in Hsel.
    destruct (lookup_col (frame_data X) c) as [s' |] eqn:Hs; [| discriminate].
    injection Hsel as ->.
    assert (Hcat : dtype s <> numpy_dtype Kbool ->
                   kind (dtype s) <> Kint -> kind (dtype s) <> Kfloat ->
                   route s = by_cardinality s).
    { unfold route. destruct (dtype s) as [[] | []]; cbn; congruence. }
    split; [| split].
    + intros Hk. apply (Hr c Boolean). exists s. split; [exact Hs |].
      unfold route. now rewrite Hk.
    + intros Hnb Hk. apply (Hr c Numeric). exists s. split; [exact Hs |].
      unfold route. destruct (dtype s) as [[] | []]; cbn in *;
        try reflexivity; try congruence; destruct Hk; discriminate.
    + intros H1 H2 H3. specialize (Hcat H1 H2 H3). unfold by_cardinality in Hcat.
      split; [| split]; intros Hn.
      * apply (Hr c CatLow). exists s. split; [exact Hs |]. rewrite Hcat.
        apply Nat.leb_le in Hn. now rewrite Hn.
      * apply (Hr c CatMid). exists s. split; [exact Hs |]. rewrite Hcat.
        destruct Hn as [Ha Hb]. apply Nat.leb_le in Hb. rewrite Hb.
        destruct (nunique s <=? 20) eqn:E1; [apply Nat.leb_le in E1; lia | reflexivity].
      * apply (Hr c CatHigh). exists s. split; [exact Hs |]. rewrite Hcat.
        destruct (nunique s <=? 20) eqn:E1; [apply Nat.leb_le in E1; lia |].
        destruct (nunique s <=? 200) eqn:E2; [apply Nat.leb_le in E2; lia | reflexivity].
Qed.

Lemma demo_X_distinct : List.NoDup (columns demo_X).
Proof.
  apply (NoDup_count_occ' string_dec). intros c Hc.
  cbn in Hc. repeat destruct Hc as [<- | Hc]; try reflexivity. destruct Hc.
Qed.

Lemma detect_columns_partition_witness :
  detect_columns demo_X
  = Ok (["year"], ["is_moscow"], ["region_name"], ["region_code"], ["series"])
  /\ ForallOrdPairs disjoint_lists
       [["year"]; ["is_moscow"]; ["region_name"]; ["region_code"]; ["series"]]
  /\ (forall c, In c (columns demo_X)
                <-> In c (["year"] ++ ["is_moscow"] ++ ["region_name"]
                          ++ ["region_code"] ++ ["series"])).
Proof.
  destruct (proj1 (detect_columns_partition demo_X) demo_X_distinct)
    as (num_cols & bool_cols & cat_low & cat_mid & cat_high & E & Hd & Hu & _).
  assert (E' : detect_columns demo_X
               = Ok (["year"], ["is_moscow"], ["region_name"], ["region_code"], ["series"]))
    by reflexivity.
  rewrite E' in E. injection E as <- <- <- <- <-.
  split; [exact E' | split; [exact Hd | exact Hu]].
Defined.

(** ** The SMAPE metric *)

Section Smape.
Local Open Scope R_scope.

(** The masked assignment of the code computes the per-element term. *)
Lemma smape_masked_terms (y_true y_pred : list R) :
  let denominator := np_div_scalar (np_add (np_abs y_true) (np_abs y_pred)) 2 in
  let diff := np_abs (np_sub y_true y_pred) in
  let non_zero_denom := np_ne0 denominator in
  putmask (np_zeros (length diff)) non_zero_denom
    (np_div (compress non_zero_denom diff) (compress non_zero_denom denominator))
  = zip_with smape_term_spec y_true y_pred.
Proof.
  revert y_pred. induction y_true as [| t ts IH]; intros [| p ps]; try reflexivity.
  specialize (IH ps). cbn in IH |- *.
  unfold smape_term_spec at 1.
  destruct (Req_dec_T ((Rabs t + Rabs p) / 2) 0) as [Hz | Hnz].
  - f_equal. exact IH.
  - cbn. f_equal. exact IH.
Qed.

Lemma smape_refines_spec (y_true y_pred : list R) :
  smape y_true y_pred = smape_spec y_true y_pred.
Proof.
  unfold smape, smape_spec. now rewrite smape_masked_terms.
Qed.

Lemma denominator_zero_iff (t p : R) :
  (Rabs t + Rabs p) / 2 = 0 <-> t = 0 /\ p = 0.
Proof.
  pose proof (Rabs_pos t) as Ht. pose proof (Rabs_pos p) as Hp. split.
  - intros H. assert (Rabs t = 0 /\ Rabs p = 0) as [H1 H2] by lra.
    split; [destruct (Req_dec t 0) as [|Hn] | destruct (Req_dec p 0) as [|Hn]];
      try assumption; apply Rabs_no_R0 in Hn; contradiction.
  - intros [-> ->]. rewrite Rabs_R0. lra.
Qed.


Lemma smape_term_spec_self (t : R) : smape_term_spec t t = 0.
Proof.
  unfold smape_term_spec. destruct (Req_dec_T _ _); [reflexivity |].
  rewrite Rminus_diag, Rabs_R0. unfold Rdiv. apply Rmult_0_l.
Qed.


Lemma smape_term_spec_nonzero (t p : R) :
  ~ (t = 0 /\ p = 0) ->
  smape_term_spec t p = Rabs (t - p) / ((Rabs t + Rabs p) / 2).
Proof.
  intros H. unfold smape_term_spec. destruct (Req_dec_T _ _) as [Hz |]; [| reflexivity].
  apply denominator_zero_iff in Hz. contradiction.
Qed.


Lemma np_sum_self_terms (a : list R) : np_sum (zip_with smape_term_spec a a) = 0.
Proof.
  induction a as [| x a IH]; simpl; [reflexivity |].
  rewrite smape_term_spec_self, IH. lra.
Qed.

Lemma smape_self (a : list R) : a <> [] -> smape a a = Fin 0.
Proof.
  intros Hne. rewrite smape_refines_spec. unfold smape_spec.
  destruct a as [| x a]; [contradiction |].
  pose proof (np_sum_self_terms (x :: a)) as Hsum. cbn [zip_with] in Hsum |- *.
  unfold np_mean, fmul. rewrite Hsum. f_equal.
  unfold Rdiv. now rewrite !Rmult_0_l.
Qed.


End Smape.

Section SmapeClaims.
Local Open Scope R_scope.






End SmapeClaims.

(** ** Ensemble weights *)

Section Weights.
Local Open Scope R_scope.

Lemma fsum_finite_acc (l : list R) (acc : R) :
  fold_left fadd (map Fin l) (Fin acc) = Fin (acc + np_sum l).
Proof.
  revert acc. induction l as [| x l IH]; intros acc; simpl.
  - f_equal. lra.
  - rewrite IH. f_equal. lra.
Qed.

Lemma fsum_finite (l : list R) : fsum (map Fin l) = Fin (np_sum l).
Proof. unfold fsum. rewrite fsum_finite_acc. f_equal. lra. Qed.

Lemma np_sum_pos (l : list R) :
  l <> [] -> Forall (fun x => 0 < x) l -> 0 < np_sum l.
Proof.
  intros Hne Hall. induction Hall as [| x l Hx Hall IH]; [contradiction |].
  simpl. destruct l as [| y l].
  - simpl. lra.
  - assert (0 < np_sum (y :: l)) by (apply IH; discriminate). lra.
Qed.

Lemma np_sum_div (l : list R) (c : R) :
  np_sum (map (fun x => x / c) l) = np_sum l / c.
Proof.
  induction l as [| x l IH]; simpl.
  - unfold Rdiv. now rewrite Rmult_0_l.
  - rewrite IH. unfold Rdiv. ring.
Qed.

Lemma sum_inverse_pos (es : dict R) :
  es <> [] -> Forall (fun kv => 0 < snd kv) es -> 0 < sum_inverse es.
Proof.
  intros Hne Hpos. unfold sum_inverse. apply np_sum_pos.
  - destruct es; [contradiction | discriminate].
  - clear Hne. induction Hpos as [| kv es Hkv Hpos IH]; simpl; constructor.
    + apply Rdiv_lt_0_compat; lra.
    + exact IH.
Qed.

Lemma inv_errors_finite (es : dict R) :
  Forall (fun kv => 0 < snd kv) es ->
  inv_errors (finite_errors es) = map (fun kv => (fst kv, Fin (1 / snd kv))) es.
Proof.
  unfold inv_errors, finite_errors.
  induction 1 as [| [k e] es He Hes IH]; [reflexivity |].
  cbn [map fst snd] in *. rewrite IH. unfold fdiv.
  destruct (Req_dec_T e 0); [lra | reflexivity].
Qed.

Lemma norm_weights_rule (es : dict R) :
  es <> [] -> Forall (fun kv => 0 < snd kv) es ->
  norm_weights (inv_errors (finite_errors es)) = weight_rule es.
Proof.
  intros Hne Hpos. rewrite inv_errors_finite by assumption.
  pose proof (sum_inverse_pos es Hne Hpos) as HS.
  assert (Htotal : fsum (map snd (map (fun kv : string * R => (fst kv, Fin (1 / snd kv))) es))
                   = Fin (sum_inverse es)).
  { rewrite map_map. cbn [snd].
    rewrite <- (map_map (fun kv : string * R => 1 / snd kv) Fin).
    apply fsum_finite. }
  unfold norm_weights, weight_rule. rewrite Htotal, map_map.
  apply map_ext. intros [k e]. cbn [fst snd fdiv].
  destruct (Req_dec_T (sum_inverse es) 0); [lra | reflexivity].
Qed.

Lemma weight_rule_sum (es : dict R) :
  es <> [] -> Forall (fun kv => 0 < snd kv) es ->
  fsum (map snd (weight_rule es)) = Fin 1.
Proof.
  intros Hne Hpos. pose proof (sum_inverse_pos es Hne Hpos) as HS.
  unfold weight_rule. rewrite map_map. cbn [snd].
  rewrite <- (map_map (fun kv : string * R => 1 / snd kv / sum_inverse es) Fin).
  rewrite <- (map_map (fun kv : string * R => 1 / snd kv) (fun x => x / sum_inverse es)).
  rewrite fsum_finite, np_sum_div. fold (sum_inverse es).
  f_equal. field. lra.
Qed.

End Weights.


(** ** Fold assignment and the out-of-fold store *)

Section Compress.
Context {A : Type}.

Lemma compress_In (mask : list bool) (a : list A) (x : A) :
  In x (compress mask a) -> In x a.
Proof.
  revert a. induction mask as [| m mask IH]; intros [| y a]; simpl; try tauto.
  destruct m; simpl; intuition.
Qed.

Lemma compress_NoDup (mask : list bool) (a : list A) :
  List.NoDup a -> List.NoDup (compress mask a).
Proof.
  revert a. induction mask as [| m mask IH]; intros [| y a] Hnd; simpl;
    try constructor.
  inversion Hnd as [| ? ? Hy Ha]; subst. destruct m; [constructor |]; auto.
  intros Hin. apply Hy. eapply compress_In; eauto.
Qed.

Lemma compress_all (B : Type) (p : B -> bool) (l : list B) (a : list A) :
  length a = length l -> Forall (fun x => p x = true) l ->
  compress (map p l) a = a.
Proof.
  intros Hlen Hall. revert a Hlen.
  induction Hall as [| x l Hx Hall IH]; intros [| y a] Hlen; simpl in *;
    try reflexivity; try discriminate.
  rewrite Hx, IH; [reflexivity | lia].
Qed.

(** Two masks that never hold together split what their union selects. *)
Lemma compress_split (B : Type) (p q : B -> bool) (l : list B) (a : list A) :
  (forall x, In x l -> p x && q x = false) ->
  Permutation (compress (map (fun x => p x || q x) l) a)
              (compress (map p l) a ++ compress (map q l) a).
Proof.
  revert a. induction l as [| x l IH]; intros [| y a] Hex; simpl; try constructor.
  assert (Hx : p x && q x = false) by (apply Hex; now left).
  assert (IH' : Permutation (compress (map (fun x => p x || q x) l) a)
                            (compress (map p l) a ++ compress (map q l) a)).
  { apply IH. intros z Hz. apply Hex. now right. }
  destruct (p x), (q x); simpl in *; try discriminate.
  - now constructor.
  - now apply Permutation_cons_app.
  - assumption.
Qed.

End Compress.

Lemma compress_seq_In (p : nat -> bool) (l : list nat) (s r : nat) :
  In r (compress (map p l) (seq s (length l)))
  <-> s <= r /\ exists x, l !! (r - s) = Some x /\ p x = true.
Proof.
  revert s. induction l as [| x l IH]; intros s; simpl.
  - split; [tauto | intros [_ [y [H _]]]; discriminate].
  - assert (Hrec : In r (compress (map p l) (seq (S s) (length l)))
                   <-> S s <= r /\ exists y, l !! (r - S s) = Some y /\ p y = true)
      by apply IH.
    assert (Hstep : forall y, S s <= r -> (x :: l) !! (r - s) = Some y <-> l !! (r - S s) = Some y).
    { intros y Hle. replace (r - s) with (S (r - S s)) by lia. reflexivity. }
    split.
    + intros Hin.
      assert (Hcases : (r = s /\ p x = true) \/ In r (compress (map p l) (seq (S s) (length l)))).
      { destruct (p x); simpl in Hin; [destruct Hin as [<- | Hin]|]; auto. }
      destruct Hcases as [[-> Hp] | Hin'].
      * split; [lia |]. exists x. rewrite Nat.sub_diag. auto.
      * apply Hrec in Hin' as [Hle [y [Hy Hp]]]. split; [lia |].
        exists y. split; [now apply Hstep | assumption].
    + intros [Hle [y [Hy Hp]]]. destruct (Nat.eq_dec r s) as [-> | Hne].
      * rewrite Nat.sub_diag in Hy. injection Hy as ->. rewrite Hp. now left.
      * assert (Hin : In r (compress (map p l) (seq (S s) (length l)))).
        { apply Hrec. split; [lia |]. exists y. split; [apply Hstep; [lia | assumption] | assumption]. }
        destruct (p x); [now right | assumption].
Qed.

Lemma lookup_map_seq {B : Type} (F : nat -> B) (s n i : nat) :
  i < n -> map F (seq s n) !! i = Some (F (s + i)).
Proof.
  revert s i. induction n as [| n IH]; intros s [| i] Hi; simpl; try lia.
  - now rewrite Nat.add_0_r.
  - rewrite IH by lia. f_equal. f_equal. lia.
Qed.

Lemma lookup_map_seq_Some {B : Type} (F : nat -> B) (s n i : nat) (b : B) :
  map F (seq s n) !! i = Some b -> i < n /\ b = F (s + i).
Proof.
  intros H. assert (Hi : i < n).
  { apply lookup_lt_Some in H. now rewrite length_map, length_seq in H. }
  rewrite lookup_map_seq in H by assumption. injection H as <-. auto.
Qed.

Lemma combine_seq_map {B : Type} (F : nat -> B) (s n : nat) :
  combine (seq (S s) n) (map F (seq s n)) = map (fun i => (S i, F i)) (seq s n).
Proof.
  revert s. induction n as [| n IH]; intros s; simpl; [reflexivity |].
  now rewrite IH.
Qed.

Section Folds.
Variable test_folds : list nat.

Let indices := seq 0 (length test_folds).
Let val_idx (i : nat) := compress (map (Nat.eqb i) test_folds) indices.
Let train_idx (i : nat) := compress (map negb (map (Nat.eqb i) test_folds)) indices.

Lemma kf_split_lookup (i : nat) (tv : list nat * list nat) :
  kf_split test_folds !! i = Some tv <-> i < N_SPLITS /\ tv = (train_idx i, val_idx i).
Proof.
  unfold kf_split. split.
  - intros H. apply lookup_map_seq_Some in H as [Hi ->]. auto.
  - intros [Hi ->]. now rewrite lookup_map_seq.
Qed.

Lemma val_idx_In (i r : nat) : In r (val_idx i) <-> test_folds !! r = Some i.
Proof.
  unfold val_idx, indices. rewrite compress_seq_In, Nat.sub_0_r. split.
  - intros [_ [x [Hx Hp]]]. apply Nat.eqb_eq in Hp. now subst.
  - intros H. split; [lia |]. exists i. split; [assumption | apply Nat.eqb_refl].
Qed.

Lemma train_idx_In (i r : nat) :
  In r (train_idx i) <-> r < length test_folds /\ ~ In r (val_idx i).
Proof.
  unfold train_idx, indices. rewrite map_map, compress_seq_In, Nat.sub_0_r, val_idx_In.
  split.
  - intros [_ [x [Hx Hp]]]. split; [eapply lookup_lt_Some; eauto |].
    rewrite Hx. intros [= ->]. rewrite Nat.eqb_refl in Hp. discriminate.
  - intros [Hr Hn]. split; [lia |].
    destruct (lookup_lt_is_Some_2 test_folds r Hr) as [x Hx]. exists x.
    split; [assumption |]. apply negb_true_iff, Nat.eqb_neq. congruence.
Qed.

Lemma val_idx_lt (i r : nat) : In r (val_idx i) -> r < length test_folds.
Proof. rewrite val_idx_In. apply lookup_lt_Some. Qed.

Lemma val_idx_concat (K : nat) :
  Permutation (concat (map val_idx (seq 0 K)))
              (compress (map (fun x => x <? K) test_folds) indices).
Proof.
  induction K as [| K IH].
  - simpl. replace (compress _ indices) with (@nil nat); [constructor |].
    symmetry. generalize indices. induction test_folds as [| x l IHl]; intros [| y a];
      simpl; try reflexivity. apply IHl.
  - rewrite seq_S, map_app, concat_app. simpl. rewrite app_nil_r.
    rewrite (map_ext (fun x => x <? S K) (fun x => (x <? K) || (K =? x))).
    + rewrite compress_split.
      * apply Permutation_app; [exact IH | reflexivity].
      * intros x _. destruct (x <? K) eqn:E1, (K =? x) eqn:E2; try reflexivity.
        apply Nat.ltb_lt in E1. apply Nat.eqb_eq in E2. lia.
    + intros x. destruct (x <? S K) eqn:E, (x <? K) eqn:E1, (K =? x) eqn:E2;
        try reflexivity;
        repeat match goal with
        | H : (_ <? _) = true |- _ => apply Nat.ltb_lt in H
        | H : (_ <? _) = false |- _ => apply Nat.ltb_ge in H
        | H : (_ =? _) = true |- _ => apply Nat.eqb_eq in H
        | H : (_ =? _) = false |- _ => apply Nat.eqb_neq in H
        end; lia.
Qed.

Hypothesis labels_in_range : Forall (fun i => i < N_SPLITS) test_folds.

Lemma val_idx_partition :
  Permutation (concat (map snd (kf_split test_folds))) (seq 0 (length test_folds)).
Proof.
  unfold kf_split. rewrite map_map. cbn [snd]. fold indices. fold val_idx.
  change (fun x => compress (map (Nat.eqb x) test_folds) indices) with val_idx.
  rewrite val_idx_concat, compress_all; [reflexivity | |].
  - unfold indices. now rewrite length_seq.
  - eapply List.Forall_impl; [| exact labels_in_range].
    intros x Hx. now apply Nat.ltb_lt.
Qed.

Lemma row_has_fold (r : nat) :
  r < length test_folds -> exists i, test_folds !! r = Some i /\ i < N_SPLITS.
Proof.
  intros Hr. destruct (lookup_lt_is_Some_2 test_folds r Hr) as [i Hi].
  exists i. split; [assumption |].
  rewrite List.Forall_forall in labels_in_range. apply labels_in_range.
  apply list_elem_of_In. eapply list_elem_of_lookup_2; eauto.
Qed.

End Folds.

Lemma setitem_length (a : list R) (idx : list nat) (vals : list R) :
  length (setitem a idx vals) = length a.
Proof.
  revert a vals. induction idx as [| i idx IH]; intros a [| v vals]; simpl;
    try reflexivity.
  now rewrite IH, length_insert.
Qed.

(** After [a[idx] = v(idx)], a row of [idx] holds its own prediction and
    every other row is unchanged. *)
Lemma setitem_lookup (v : nat -> R) (idx : list nat) (a : list R) (r : nat) :
  (forall i, In i idx -> i < length a) ->
  (In r idx -> setitem a idx (map v idx) !! r = Some (v r))
  /\ (~ In r idx -> setitem a idx (map v idx) !! r = a !! r).
Proof.
  revert a. induction idx as [| i idx IH]; intros a Hlt; simpl.
  - tauto.
  - assert (Hlt' : forall j, In j idx -> j < length (<[i:=v i]> a)).
    { intros j Hj. rewrite length_insert. apply Hlt. now right. }
    destruct (IH (<[i:=v i]> a) Hlt') as [IHin IHout].
    assert (Hi : i < length a) by (apply Hlt; now left).
    split.
    + intros Hin. destruct (in_dec Nat.eq_dec r idx) as [Hr | Hr]; [auto |].
      destruct Hin as [-> | Hin]; [| contradiction].
      rewrite IHout by assumption. now apply list_lookup_insert_eq.
    + intros Hn. rewrite IHout by tauto.
      apply list_lookup_insert_ne. intros ->. apply Hn. now left.
Qed.

Section FoldLoop.
Variable test_folds : list nat.
Variable fit_model : nat -> list nat -> fold_outcome.
Variable n_test : nat.

Let F (i : nat) : list nat * list nat :=
  (compress (map negb (map (Nat.eqb i) test_folds)) (seq 0 (length test_folds)),
   compress (map (Nat.eqb i) test_folds) (seq 0 (length test_folds))).

Lemma enumerate_folds_map :
  enumerate_folds test_folds = map (fun i => (S i, F i)) (seq 0 N_SPLITS).
Proof. unfold enumerate_folds, kf_split. apply (combine_seq_map F). Qed.

(** The loop invariant: once the folds [ks] have all completed, a row held
    out by one of them carries that fold's prediction, any other row is as
    before. *)
Lemma cv_folds_invariant (ks : list nat) :
  forall oof tst oof' tst',
  cv_folds fit_model n_test (map (fun i => (S i, F i)) ks) oof tst = (oof', tst', true) ->
  length oof = length test_folds ->
  List.NoDup ks ->
  length oof' = length test_folds
  /\ forall r i, test_folds !! r = Some i ->
       (In i ks -> exists v t, fit_model (S i) (fst (F i)) = FoldCompletes v t
                               /\ oof' !! r = Some (v r))
       /\ (~ In i ks -> oof' !! r = oof !! r).
Proof.
  induction ks as [| k ks IH]; intros oof tst oof' tst' Hrun Hlen Hnd.
  - simpl in Hrun. injection Hrun as <- <-. split; [assumption |].
    intros r i _. split; [intros [] | reflexivity].
  - cbn [map cv_folds] in Hrun. unfold F at 1 2 in Hrun. fold (F k) in Hrun.
    destruct (fit_model (S k) (fst (F k))) as [| v | v t] eqn:Hfit;
      cbn [fst snd] in Hrun; unfold F in Hfit; cbn [fst] in Hfit; rewrite Hfit in Hrun;
      try discriminate.
    inversion Hnd as [| ? ? Hk Hnd']; subst.
    set (val := compress (map (Nat.eqb k) test_folds) (seq 0 (length test_folds))) in *.
    assert (Hval : forall r, In r val <-> test_folds !! r = Some k)
      by (intros r; apply val_idx_In).
    assert (Hlt : forall r, In r val -> r < length oof).
    { intros r Hr. rewrite Hlen. apply Hval in Hr. eapply lookup_lt_Some; eauto. }
    apply IH in Hrun as [Hlen' Hrows]; [| now rewrite setitem_length | assumption].
    split; [assumption |]. intros r i Hri.
    destruct (setitem_lookup v val oof r Hlt) as [Hin Hout].
    destruct (Hrows r i Hri) as [Hdone Hkeep]. split.
    + intros [<- | Hi]; [| auto].
      exists v, t. split; [exact Hfit |].
      rewrite Hkeep by assumption. apply Hin. now apply Hval.
    + intros Hn. rewrite Hkeep by (intros Hi; apply Hn; now right).
      apply Hout. intros Hr. apply Hval in Hr. apply Hn. left. congruence.
Qed.

End FoldLoop.

(** C7.  The ten validation folds partition the training rows: they are
    pairwise disjoint, their union is all rows, and every row is validated
    exactly once.  After a model has completed all folds, every entry of
    its out-of-fold store holds the prediction made for that row by the
    fold that held the row out; the loop assigns an entry once, in that
    fold.  (The labels come from [StratifiedKFold], which numbers the
    folds below [n_splits].) *)
Theorem folds_partition_and_oof_filled (test_folds : list nat) :
  Forall (fun i => i < N_SPLITS) test_folds ->
  let n := length test_folds in
  let folds := kf_split test_folds in
  length folds = 10
  /\ Permutation (concat (map snd folds)) (seq 0 n)
  /\ (forall r, r < n -> count_occ Nat.eq_dec (concat (map snd folds)) r = 1)
  /\ (forall i j ti vi tj vj r,
        folds !! i = Some (ti, vi) -> folds !! j = Some (tj, vj) ->
        In r vi -> In r vj -> i = j)
  /\ (forall r, r < n -> exists i t v, folds !! i = Some (t, v) /\ In r v)
  /\ (forall i t v r, folds !! i = Some (t, v) -> (In r t <-> r < n /\ ~ In r v))
  /\ (forall fit_model n_test oof tst,
        cv_folds fit_model n_test (enumerate_folds test_folds)
          (np_zeros n) (np_zeros n_test) = (oof, tst, true) ->
        length oof = n
        /\ forall r, r < n ->
             exists i train val v t,
               test_folds !! r = Some i
               /\ folds !! i = Some (train, val) /\ In r val
               /\ fit_model (S i) train = FoldCompletes v t
               /\ oof !! r = Some (v r)).
Proof.
  intros Hlabels n folds. subst n folds.
  pose proof (val_idx_partition test_folds Hlabels) as Hperm.
  split; [| split; [exact Hperm | split; [| split; [| split; [| split]]]]].
  - unfold kf_split. now rewrite length_map, length_seq.
  - intros r Hr.
    rewrite (proj1 (Permutation_count_occ Nat.eq_dec _ _) Hperm r).
    apply NoDup_count_occ'; [apply seq_NoDup | apply in_seq; lia].
  - intros i j ti vi tj vj r Hi Hj Hri Hrj.
    apply kf_split_lookup in Hi as [_ [= -> ->]].
    apply kf_split_lookup in Hj as [_ [= -> ->]].
    apply val_idx_In in Hri. apply val_idx_In in Hrj. congruence.
  - intros r Hr. destruct (row_has_fold test_folds Hlabels r Hr) as [i [Hi Hlt]].
    eexists i, _, _. split.
    + apply kf_split_lookup. split; [exact Hlt | reflexivity].
    + now apply val_idx_In.
  - intros i t v r Hi. apply kf_split_lookup in Hi as [_ [= -> ->]].
    apply train_idx_In.
  - intros fit_model n_test oof tst Hrun.
    rewrite enumerate_folds_map in Hrun.
    apply cv_folds_invariant in Hrun as [Hlen Hrows];
      [| unfold np_zeros; apply repeat_length | apply seq_NoDup].
    split; [exact Hlen |]. intros r Hr.
    destruct (row_has_fold test_folds Hlabels r Hr) as [i [Hi Hlt]].
    destruct (Hrows r i Hi) as [Hdone _].
    destruct Hdone as [v [t [Hfit Hoof]]]; [apply in_seq; lia |].
    eexists i, _, _, v, t. split; [exact Hi | split; [| split; [| split]]].
    + apply kf_split_lookup. split; [exact Hlt | reflexivity].
    + now apply val_idx_In.
    + exact Hfit.
    + exact Hoof.
Qed.

Lemma folds_partition_and_oof_filled_witness :
  kf_split demo_test_folds !! 0 = Some ([1; 2; 3; 4; 5; 6; 7; 8; 9; 11], [0; 10])
  /\ Permutation (concat (map snd (kf_split demo_test_folds))) (seq 0 12)
  /\ exists oof tst,
       cv_folds demo_fit_model 2 (enumerate_folds demo_test_folds)
         (np_zeros 12) (np_zeros 2) = (oof, tst, true)
       /\ length oof = 12
       /\ oof !! 10 = Some (INR 1) /\ oof !! 3 = Some (INR 4).
Proof.
  assert (Hlabels : Forall (fun i => i < N_SPLITS) demo_test_folds).
  { unfold demo_test_folds, N_SPLITS. repeat constructor; lia. }
  destruct (folds_partition_and_oof_filled demo_test_folds Hlabels)
    as (_ & Hperm & _ & _ & _ & _ & Hoof).
  split; [reflexivity | split; [exact Hperm |]].
  destruct (cv_folds demo_fit_model 2 (enumerate_folds demo_test_folds)
              (np_zeros 12) (np_zeros 2)) as [[oof tst] finished] eqn:Hrun.
  assert (Hfin : finished = true).
  { pose proof (f_equal snd Hrun) as Hsnd. cbn [snd] in Hsnd.
    rewrite <- Hsnd. reflexivity. }
  subst finished. exists oof, tst. split; [reflexivity |].
  destruct (Hoof demo_fit_model 2%nat oof tst Hrun) as [Hlen Hrows].
  split; [exact Hlen | split].
  - destruct (Hrows 10) as (i & train & val & v & t & Hi & _ & _ & Hfit & Hv);
      [simpl; lia |].
    injection Hi as <-. injection Hfit as <- _. exact Hv.
  - destruct (Hrows 3) as (i & train & val & v & t & Hi & _ & _ & Hfit & Hv);
      [simpl; lia |].
    injection Hi as <-. injection Hfit as <- _. exact Hv.
Defined.

(** ** Dicts and the training loop over the models *)

Section Dict.
Context {V : Type}.

Lemma dict_get_In (d : dict V) (k : string) :
  In k (keys d) <-> exists v, dict_get d k = Some v.
Proof.
  induction d as [| [k' v'] d IH]; simpl.
  - split; [tauto | intros [v H]; discriminate].
  - destruct (String.eqb_spec k k') as [-> | Hne].
    + split; eauto.
    + rewrite <- IH. split; [intros [H | H]; [congruence | assumption] | auto].
Qed.

Lemma dict_get_set_eq (d : dict V) (k : string) (v : V) :
  dict_get (dict_set d k v) k = Some v.
Proof.
  induction d as [| [k' v'] d IH]; simpl.
  - now rewrite String.eqb_refl.
  - destruct (String.eqb_spec k k') as [-> | Hne]; simpl.
    + now rewrite String.eqb_refl.
    + destruct (String.eqb_spec k k'); [contradiction | exact IH].
Qed.

Lemma dict_get_set_ne (d : dict V) (k m : string) (v : V) :
  k <> m -> dict_get (dict_set d k v) m = dict_get d m.
Proof.
  intros Hne. induction d as [| [k' v'] d IH]; simpl.
  - destruct (String.eqb_spec m k); [congruence | reflexivity].
  - destruct (String.eqb_spec k k') as [-> | Hk]; simpl.
    + destruct (String.eqb_spec m k'); [congruence | reflexivity].
    + now rewrite IH.
Qed.

Lemma keys_dict_set (d : dict V) (k : string) (v : V) :
  In k (keys d) -> keys (dict_set d k v) = keys d.
Proof.
  induction d as [| [k' v'] d IH]; simpl; [tauto |].
  intros Hin. destruct (String.eqb_spec k k') as [-> | Hne]; simpl.
  - reflexivity.
  - f_equal. apply IH. destruct Hin; [congruence | assumption].
Qed.

Lemma dict_set_Forall (P : V -> Prop) (d : dict V) (k : string) (v : V) :
  Forall (fun kv => P (snd kv)) d -> P v ->
  Forall (fun kv => P (snd kv)) (dict_set d k v).
Proof.
  intros Hd Hv. induction Hd as [| [k' v'] d Hk Hd IH]; simpl.
  - repeat constructor. exact Hv.
  - destruct (String.eqb k k'); constructor; auto.
Qed.

Lemma dict_get_Forall (P : V -> Prop) (d : dict V) (k : string) (v : V) :
  Forall (fun kv => P (snd kv)) d -> dict_get d k = Some v -> P v.
Proof.
  intros Hd. induction Hd as [| [k' v'] d Hk Hd IH]; simpl; [discriminate |].
  destruct (String.eqb k k'); [intros [= <-]; exact Hk | exact IH].
Qed.

Lemma dict_get_init (names : list string) (v : V) (k : string) :
  In k names -> dict_get (map (fun name => (name, v)) names) k = Some v.
Proof.
  induction names as [| a names IH]; simpl; [tauto |].
  intros Hin. destruct (String.eqb_spec k a); [reflexivity |].
  apply IH. destruct Hin; [congruence | assumption].
Qed.

End Dict.

Lemma cv_folds_test_length (fit_model : nat -> list nat -> fold_outcome) (n_test : nat)
    (folds : list (nat * (list nat * list nat))) (oof tst : list R) :
  length tst = n_test ->
  length (snd (fst (cv_folds fit_model n_test folds oof tst))) = n_test.
Proof.
  revert oof tst. induction folds as [| [fold [train val]] folds IH];
    intros oof tst Hlen; simpl; [assumption |].
  destruct (fit_model fold train); simpl; try assumption.
  apply IH. unfold np_add, np_div_scalar.
  rewrite length_zip_with, !length_map, length_seq. lia.
Qed.

Lemma cv_folds_oof_length (fit_model : nat -> list nat -> fold_outcome) (n_test : nat)
    (folds : list (nat * (list nat * list nat))) (oof tst : list R) :
  length (fst (fst (cv_folds fit_model n_test folds oof tst))) = length oof.
Proof.
  revert oof tst. induction folds as [| [fold [train val]] folds IH];
    intros oof tst; simpl; [reflexivity |].
  destruct (fit_model fold train); simpl; try reflexivity.
  - apply setitem_length.
  - rewrite IH. apply setitem_length.
Qed.

(** A fold that raises ends the loop of its model: the folds after it are
    never run, whatever they would have done. *)
Lemma cv_folds_aborts (fit_model : nat -> list nat -> fold_outcome) (n_test : nat)
    (before : list (nat * (list nat * list nat))) (fold : nat) (train_idx val_idx : list nat)
    (rest : list (nat * (list nat * list nat))) (oof tst : list R) :
  (forall v t, fit_model fold train_idx <> FoldCompletes v t) ->
  cv_folds fit_model n_test (before ++ (fold, (train_idx, val_idx)) :: rest) oof tst
  = cv_folds fit_model n_test (before ++ [(fold, (train_idx, val_idx))]) oof tst
  /\ snd (cv_folds fit_model n_test (before ++ (fold, (train_idx, val_idx)) :: rest) oof tst)
     = false.
Proof.
  intros Hraise. revert oof tst.
  induction before as [| [f [tr va]] before IH]; intros oof tst; simpl.
  - destruct (fit_model fold train_idx) as [| v | v t] eqn:E; auto.
    exfalso. eapply Hraise; eauto.
  - destruct (fit_model f tr); auto.
Qed.

Section Training.
Variable fit_all : learner.
Variables n_train n_test : nat.
Variable test_folds : list nat.

Let step := train_model fit_all n_test test_folds.
Let outcome (m : string) :=
  cv_folds (fit_all m) n_test (enumerate_folds test_folds)
    (np_zeros n_train) (np_zeros n_test).

Lemma train_model_other (st : cv_state) (k m : string) :
  k <> m ->
  dict_get (oof_preds (step st k)) m = dict_get (oof_preds st) m
  /\ dict_get (test_preds (step st k)) m = dict_get (test_preds st) m.
Proof.
  intros Hne. unfold step, train_model.
  destruct (dict_get (oof_preds st) k) as [oof |]; [| auto].
  destruct (dict_get (test_preds st) k) as [tst |]; [| auto].
  destruct (cv_folds _ _ _ oof tst) as [[oof' tst'] fin]. simpl.
  split; now apply dict_get_set_ne.
Qed.

Lemma train_model_keys (st : cv_state) (k : string) :
  keys (oof_preds (step st k)) = keys (oof_preds st)
  /\ keys (test_preds (step st k)) = keys (test_preds st).
Proof.
  unfold step, train_model.
  destruct (dict_get (oof_preds st) k) as [oof |] eqn:Eo; [| auto].
  destruct (dict_get (test_preds st) k) as [tst |] eqn:Et; [| auto].
  destruct (cv_folds _ _ _ oof tst) as [[oof' tst'] fin]. simpl.
  split; apply keys_dict_set; apply dict_get_In; eauto.
Qed.

Lemma train_model_test_lengths (st : cv_state) (k : string) :
  Forall (fun kv => length (snd kv) = n_test) (test_preds st) ->
  Forall (fun kv => length (snd kv) = n_test) (test_preds (step st k)).
Proof.
  intros Hlen. unfold step, train_model.
  destruct (dict_get (oof_preds st) k) as [oof |] eqn:Eo; [| assumption].
  destruct (dict_get (test_preds st) k) as [tst |] eqn:Et; [| assumption].
  pose proof (cv_folds_test_length (fit_all k) n_test (enumerate_folds test_folds) oof tst) as Hcv.
  destruct (cv_folds _ _ _ oof tst) as [[oof' tst'] fin]. simpl in *.
  apply (dict_set_Forall (fun a : list R => length a = n_test)); [assumption |].
  apply Hcv. exact (dict_get_Forall (fun a : list R => length a = n_test) _ _ _ Hlen Et).
Qed.

Lemma train_model_oof_lengths (st : cv_state) (k : string) (n : nat) :
  Forall (fun kv => length (snd kv) = n) (oof_preds st) ->
  Forall (fun kv => length (snd kv) = n) (oof_preds (step st k)).
Proof.
  intros Hlen. unfold step, train_model.
  destruct (dict_get (oof_preds st) k) as [oof |] eqn:Eo; [| assumption].
  destruct (dict_get (test_preds st) k) as [tst |] eqn:Et; [| assumption].
  pose proof (cv_folds_oof_length (fit_all k) n_test (enumerate_folds test_folds) oof tst) as Hcv.
  destruct (cv_folds _ _ _ oof tst) as [[oof' tst'] fin]. simpl in *.
  apply (dict_set_Forall (fun a : list R => length a = n)); [assumption |].
  rewrite Hcv. exact (dict_get_Forall (fun a : list R => length a = n) _ _ _ Hlen Eo).
Qed.

Lemma train_fold_oof_lengths (todo : list string) (st : cv_state) (n : nat) :
  Forall (fun kv => length (snd kv) = n) (oof_preds st) ->
  Forall (fun kv => length (snd kv) = n) (oof_preds (fold_left step todo st)).
Proof.
  revert st. induction todo as [| k todo IH]; intros st H; simpl; [assumption |].
  apply IH. now apply train_model_oof_lengths.
Qed.

Lemma train_fold_keys (todo : list string) (st : cv_state) :
  keys (oof_preds (fold_left step todo st)) = keys (oof_preds st)
  /\ keys (test_preds (fold_left step todo st)) = keys (test_preds st).
Proof.
  revert st. induction todo as [| k todo IH]; intros st; simpl; [auto |].
  destruct (IH (step st k)) as [-> ->]. apply train_model_keys.
Qed.

Lemma train_fold_test_lengths (todo : list string) (st : cv_state) :
  Forall (fun kv => length (snd kv) = n_test) (test_preds st) ->
  Forall (fun kv => length (snd kv) = n_test) (test_preds (fold_left step todo st)).
Proof.
  revert st. induction todo as [| k todo IH]; intros st H; simpl; [assumption |].
  apply IH. now apply train_model_test_lengths.
Qed.

Lemma train_fold_other (todo : list string) (st : cv_state) (m : string) :
  ~ In m todo ->
  dict_get (oof_preds (fold_left step todo st)) m = dict_get (oof_preds st) m
  /\ dict_get (test_preds (fold_left step todo st)) m = dict_get (test_preds st) m.
Proof.
  revert st. induction todo as [| k todo IH]; intros st Hn; simpl; [auto |].
  destruct (IH (step st k)) as [-> ->]; [intros H; apply Hn; now right |].
  apply train_model_other. intros ->. apply Hn. now left.
Qed.

(** Every model, finished or not, ends with the arrays its own fold loop
    left behind; the loops of the other models do not touch them. *)
Lemma train_fold_entry (todo : list string) (st : cv_state) (m : string) :
  List.NoDup todo -> In m todo ->
  dict_get (oof_preds st) m = Some (np_zeros n_train) ->
  dict_get (test_preds st) m = Some (np_zeros n_test) ->
  dict_get (oof_preds (fold_left step todo st)) m = Some (fst (fst (outcome m)))
  /\ dict_get (test_preds (fold_left step todo st)) m = Some (snd (fst (outcome m))).
Proof.
  revert st. induction todo as [| k todo IH]; intros st Hnd Hin Ho Ht; [destruct Hin |].
  inversion Hnd as [| ? ? Hk Hnd']; subst. simpl.
  destruct (string_dec k m) as [-> | Hne].
  - destruct (train_fold_other todo (step st m) m Hk) as [-> ->].
    unfold step, train_model, outcome. rewrite Ho, Ht.
    destruct (cv_folds _ _ _ _ _) as [[oof' tst'] fin]. simpl.
    split; apply dict_get_set_eq.
  - destruct (train_model_other st k m Hne) as [Ho' Ht'].
    apply IH; [assumption | destruct Hin; [contradiction | assumption] | |]; congruence.
Qed.

Lemma train_fold_importances (todo : list string) (st : cv_state) (m : string) :
  List.NoDup todo ->
  (forall k, In k todo -> dict_get (oof_preds st) k = Some (np_zeros n_train)
                          /\ dict_get (test_preds st) k = Some (np_zeros n_test)) ->
  In m (feature_importances (fold_left step todo st))
  <-> In m (feature_importances st) \/ (In m todo /\ snd (outcome m) = true).
Proof.
  revert st. induction todo as [| k todo IH]; intros st Hnd Hinit; simpl; [tauto |].
  inversion Hnd as [| ? ? Hk Hnd']; subst.
  rewrite IH; [| assumption |].
  - destruct (Hinit k (or_introl eq_refl)) as [Ho Ht].
    unfold step, train_model. rewrite Ho, Ht. fold (outcome k).
    destruct (outcome k) as [[oof' tst'] fin] eqn:E. simpl.
    destruct fin.
    + rewrite in_app_iff. simpl. split.
      * intros [[H | [<- | []]] | [H1 H2]]; auto.
        right. split; [now left |]. now rewrite E.
      * intros [H | [[<- | H1] H2]]; auto.
    + split.
      * intros [H | [H1 H2]]; auto.
      * intros [H | [[<- | H1] H2]]; auto.
        rewrite E in H2. discriminate.
  - intros j Hj. destruct (train_model_other st k j) as [-> ->].
    + intros ->. contradiction.
    + apply Hinit. now right.
Qed.

End Training.

(** ** The ensemble and the run as a whole *)

Lemma errors_keys (names : list string) (y : list R) (st : cv_state) (errs : dict npfloat) :
  errors names y st = Ok errs -> keys errs = names.
Proof.
  unfold errors. revert errs. induction names as [| name names IH]; intros errs; simpl.
  - intros [= <-]. reflexivity.
  - destruct (item (oof_preds st) name); simpl; [| discriminate].
    destruct (dict_comp names _) as [d |]; simpl; [| discriminate].
    intros [= <-]. simpl. f_equal. now apply IH.
Qed.

(** The error of every model is computed from the array its entry of the
    out-of-fold store holds, whether or not its fold loop finished. *)
Lemma errors_total (names : list string) (y : list R) (st : cv_state) :
  (forall name, In name names -> In name (keys (oof_preds st))) ->
  errors names y st
  = Ok (map (fun name =>
               (name, smape_np (np_exp y)
                        (np_exp (default [] (dict_get (oof_preds st) name)))))
            names).
Proof.
  unfold errors. induction names as [| name names IH]; intros Hin; simpl; [reflexivity |].
  destruct (proj1 (dict_get_In (oof_preds st) name) (Hin name (or_introl eq_refl)))
    as [oof Hoof].
  unfold item at 1. rewrite Hoof. simpl.
  rewrite IH by (intros n Hn; apply Hin; now right). reflexivity.
Qed.

Lemma keys_inv_errors (errs : dict npfloat) : keys (inv_errors errs) = keys errs.
Proof. unfold keys, inv_errors. rewrite map_map. reflexivity. Qed.

Lemma keys_norm_weights (inv : dict npfloat) : keys (norm_weights inv) = keys inv.
Proof. unfold keys, norm_weights. rewrite map_map. reflexivity. Qed.

Lemma blend_total (preds : dict (list R)) (weights : dict npfloat)
    (acc : list npfloat) (n : nat) :
  (forall k, In k (keys preds) -> In k (keys weights)) ->
  Forall (fun kv => length (snd kv) = n) preds ->
  length acc = n ->
  exists out, blend preds weights acc = Ok out /\ length out = n.
Proof.
  intros Hkeys Hlen. revert acc.
  induction Hlen as [| [k arr] preds Hk Hlen IH]; intros acc Hacc; simpl.
  - eauto.
  - destruct (proj1 (dict_get_In weights k) (Hkeys k (or_introl eq_refl))) as [w Hw].
    unfold item. rewrite Hw. simpl. apply IH.
    + intros j Hj. apply Hkeys. now right.
    + unfold vadd, scale. rewrite length_zip_with, length_map.
      simpl in Hk. lia.
Qed.

Lemma init_oof_lengths (names : list string) (n : nat) :
  Forall (fun kv : string * list R => length (snd kv) = n)
    (map (fun name => (name, np_zeros n)) names).
Proof. induction names; simpl; constructor; [apply repeat_length | assumption]. Qed.

Lemma init_keys (names : list string) (v : list R) :
  keys (map (fun name => (name, v)) names) = names.
Proof. unfold keys. rewrite map_map. apply map_id. Qed.

(** The cells between the reading of the target and the submission cell
    (training, weighting, blending) cannot raise, whatever the learners
    do. *)
Lemma training_and_ensemble_total (fit_all : learner) (names : list string) (y : list R)
    (n_test : nat) (test_folds : list nat) :
  let st := train_all fit_all names (length y) n_test test_folds in
  exists errs blended,
    errors names y st = Ok errs
    /\ keys errs = names
    /\ ensemble_preds_log st (norm_weights (inv_errors errs)) n_test = Ok blended
    /\ length blended = n_test.
Proof.
  intros st.
  destruct (train_fold_keys fit_all n_test test_folds names
              (init_state names (length y) n_test)) as [Hko Hkt].
  fold (train_all fit_all names (length y) n_test test_folds) in Hko, Hkt.
  fold st in Hko, Hkt. simpl in Hko, Hkt. rewrite init_keys in Hko, Hkt.
  assert (Herr : errors names y st
                 = Ok (map (fun name =>
                         (name, smape_np (np_exp y)
                                  (np_exp (default [] (dict_get (oof_preds st) name)))))
                       names)).
  { apply errors_total. intros name Hn. now rewrite Hko. }
  pose proof (errors_keys _ _ _ _ Herr) as Hkeys.
  set (errs := map _ names) in Herr, Hkeys.
  destruct (blend_total (test_preds st) (norm_weights (inv_errors errs))
              (map Fin (np_zeros n_test)) n_test) as [blended [Hb Hlen]].
  - intros k Hk. rewrite keys_norm_weights, keys_inv_errors, Hkeys. now rewrite <- Hkt.
  - apply train_fold_test_lengths. apply init_oof_lengths.
  - rewrite length_map. apply repeat_length.
  - exists errs, blended. repeat split; assumption.
Qed.

(** The run, once the columns have been detected and the target column has
    been read as floats: what is left is the reading of the identifier
    column and the building of the submission. *)
Lemma run_after_target (inp : run_input) (y_sel : selection) (y : list R)
    (cols : list string * list string * list string * list string * list string) :
  getitem (train_df inp) TARGET = Ok y_sel ->
  detect_columns (features (train_df inp)) = Ok cols ->
  target_floats y_sel = Ok y ->
  let n_test := nrows (test_df inp) in
  let st := train_all (fit inp) (models inp) (length y) n_test
              (map (fold_of inp) (seq 0 (length y))) in
  exists errs blended,
    errors (models inp) y st = Ok errs
    /\ keys errs = models inp
    /\ ensemble_preds_log st (norm_weights (inv_errors errs)) n_test = Ok blended
    /\ length blended = n_test
    /\ run inp =
       (do ids_sel <- getitem (test_df inp) "id";
        do ids <- id_column ids_sel;
        do sub <- make_submission ids (np_clip (ensemble_preds blended) 0);
        Ok (mkTrace cols st errs (norm_weights (inv_errors errs)) blended
              (ensemble_preds blended) sub)).
Proof.
  intros Hy Hd Hf n_test st.
  destruct (training_and_ensemble_total (fit inp) (models inp) y n_test
              (map (fold_of inp) (seq 0 (length y))))
    as (errs & blended & Herr & Hkeys & Hb & Hlen).
  fold st in Herr, Hb.
  exists errs, blended. repeat split; try assumption.
  unfold run. cbn [drop rbind nrows]. rewrite Hy. cbn [rbind].
  change (mkFrame (nrows (train_df inp))
            (List.filter (fun cs => negb (mem (fst cs) DROP_COLS))
               (frame_data (train_df inp))))
    with (features (train_df inp)).
  rewrite Hd. cbn [rbind]. rewrite Hf. cbn [rbind].
  fold n_test. fold st. rewrite Herr. cbn [rbind]. rewrite Hb. reflexivity.
Qed.


Lemma run_without_target (inp : run_input) (e : exn) :
  getitem (train_df inp) TARGET = Raise e -> run inp = Raise e.
Proof. intros H. unfold run. cbn [drop rbind]. rewrite H. reflexivity. Qed.

(** A training table with a repeated feature label stops the run in the
    detection cell. *)
Lemma run_detection_raises (inp : run_input) (y_sel : selection) (e : exn) :
  getitem (train_df inp) TARGET = Ok y_sel ->
  detect_columns (features (train_df inp)) = Raise e ->
  run inp = Raise e.
Proof.
  intros Hy Hd. unfold run. cbn [drop rbind]. rewrite Hy. cbn [rbind].
  change (mkFrame (nrows (train_df inp))
            (List.filter (fun cs => negb (mem (fst cs) DROP_COLS))
               (frame_data (train_df inp))))
    with (features (train_df inp)).
  rewrite Hd. reflexivity.
Qed.

Lemma run_target_not_numeric (inp : run_input) (y_sel : selection)
    (cols : list string * list string * list string * list string * list string) (e : exn) :
  getitem (train_df inp) TARGET = Ok y_sel ->
  detect_columns (features (train_df inp)) = Ok cols ->
  target_floats y_sel = Raise e -> run inp = Raise e.
Proof.
  intros Hy Hd Hf. unfold run. cbn [drop rbind]. rewrite Hy. cbn [rbind].
  change (mkFrame (nrows (train_df inp))
            (List.filter (fun cs => negb (mem (fst cs) DROP_COLS))
               (frame_data (train_df inp))))
    with (features (train_df inp)).
  rewrite Hd. cbn [rbind]. rewrite Hf. reflexivity.
Qed.

Lemma run_without_id (inp : run_input) (y_sel : selection) (y : list R)
    (cols : list string * list string * list string * list string * list string) (e : exn) :
  getitem (train_df inp) TARGET = Ok y_sel ->
  detect_columns (features (train_df inp)) = Ok cols ->
  target_floats y_sel = Ok y ->
  getitem (test_df inp) "id" = Raise e ->
  run inp = Raise e.
Proof.
  intros Hy Hd Hf Hid.
  destruct (run_after_target inp y_sel y cols Hy Hd Hf)
    as (errs & blended & _ & _ & _ & _ & Hrun).
  rewrite Hrun, Hid. reflexivity.
Qed.

(** With the target and the identifier columns there, each once, and the
    feature labels distinct, the run writes its submission, whatever the
    learners did. *)
Lemma run_writes (inp : run_input) (y_col : Series) (y : list R) (ids : Series)
    (cols : list string * list string * list string * list string * list string) :
  getitem (train_df inp) TARGET = Ok (OneColumn y_col) ->
  to_floats (values y_col) = Ok y ->
  getitem (test_df inp) "id" = Ok (OneColumn ids) ->
  length (values ids) = nrows (test_df inp) ->
  detect_columns (features (train_df inp)) = Ok cols ->
  let n_test := nrows (test_df inp) in
  let st := train_all (fit inp) (models inp) (length y) n_test
              (map (fold_of inp) (seq 0 (length y))) in
  exists tr,
    run inp = Ok tr
    /\ tr_state tr = st
    /\ errors (models inp) y st = Ok (tr_errors tr)
    /\ keys (tr_errors tr) = models inp
    /\ tr_weights tr = norm_weights (inv_errors (tr_errors tr))
    /\ ensemble_preds_log st (tr_weights tr) n_test = Ok (tr_blend tr)
    /\ length (tr_blend tr) = n_test
    /\ tr_preds tr = ensemble_preds (tr_blend tr)
    /\ tr_submission tr = combine (values ids) (np_clip (tr_preds tr) 0).
Proof.
  intros Hy Hf Hid Hlen Hd n_test st.
  destruct (run_after_target inp (OneColumn y_col) y cols Hy Hd Hf)
    as (errs & blended & Herr & Hkeys & Hb & Hbl & Hrun).
  rewrite Hid in Hrun. cbn [rbind id_column] in Hrun. unfold make_submission in Hrun.
  assert (Hcl : length (np_clip (ensemble_preds blended) 0) = length (values ids)).
  { unfold np_clip, ensemble_preds. rewrite !length_map. congruence. }
  rewrite Hcl, Nat.eqb_refl in Hrun. cbn [rbind] in Hrun.
  eexists. split; [exact Hrun |]. cbn.
  repeat split; assumption.
Qed.

Lemma run_inversion (inp : run_input) (tr : run_trace) :
  run inp = Ok tr ->
  exists y_col y ids,
    getitem (train_df inp) TARGET = Ok (OneColumn y_col)
    /\ to_floats (values y_col) = Ok y
    /\ getitem (test_df inp) "id" = Ok (OneColumn ids)
    /\ length (values ids) = length (tr_blend tr)
    /\ length (tr_blend tr) = nrows (test_df inp)
    /\ keys (tr_errors tr) = models inp
    /\ tr_weights tr = norm_weights (inv_errors (tr_errors tr))
    /\ tr_preds tr = ensemble_preds (tr_blend tr)
    /\ tr_submission tr = combine (values ids) (np_clip (tr_preds tr) 0)
    /\ ensemble_preds_log (tr_state tr) (tr_weights tr) (nrows (test_df inp))
       = Ok (tr_blend tr)
    /\ tr_state tr = train_all (fit inp) (models inp) (length y) (nrows (test_df inp))
                       (map (fold_of inp) (seq 0 (length y)))
    /\ errors (models inp) y (tr_state tr) = Ok (tr_errors tr).
Proof.
  intros Hrun.
  destruct (getitem (train_df inp) TARGET) as [y_sel | e] eqn:Hy;
    [| rewrite (run_without_target inp e Hy) in Hrun; discriminate].
  destruct (detect_columns (features (train_df inp))) as [cols | e] eqn:Hd;
    [| rewrite (run_detection_raises inp y_sel e Hy Hd) in Hrun; discriminate].
  destruct (target_floats y_sel) as [y | e] eqn:Hf;
    [| rewrite (run_target_not_numeric inp y_sel cols e Hy Hd Hf) in Hrun; discriminate].
  destruct y_sel as [y_col | frame]; [| discriminate Hf]. cbn [target_floats] in Hf.
  destruct (getitem (test_df inp) "id") as [ids_sel | e] eqn:Hid;
    [| rewrite (run_without_id inp _ y cols e Hy Hd Hf Hid) in Hrun; discriminate].
  destruct (run_after_target inp _ y cols Hy Hd Hf)
    as (errs & blended & Herr & Hkeys & Hb & Hbl & Hrun').
  rewrite Hrun' in Hrun. rewrite Hid in Hrun. cbn [rbind] in Hrun.
  destruct ids_sel as [ids | frame]; cbn [id_column rbind] in Hrun; [| discriminate].
  unfold make_submission in Hrun.
  destruct (length (values ids) =? length (np_clip (ensemble_preds blended) 0)) eqn:E;
    cbn [rbind] in Hrun; [| discriminate].
  injection Hrun as <-. cbn.
  apply Nat.eqb_eq in E. unfold np_clip, ensemble_preds in E. rewrite !length_map in E.
  exists y_col, y, ids. repeat split; assumption.
Qed.

(** The lists of a run are those of the detection on the training table
    without the columns of the drop-list, whose labels are distinct. *)
Lemma run_columns (inp : run_input) (tr : run_trace) :
  run inp = Ok tr ->
  detect_columns (features (train_df inp)) = Ok (tr_columns tr)
  /\ tr_columns tr = classify (features (train_df inp))
  /\ List.NoDup (columns (features (train_df inp))).
Proof.
  intros Hrun.
  assert (Hd : detect_columns (features (train_df inp)) = Ok (tr_columns tr)).
  { destruct (getitem (train_df inp) TARGET) as [y_sel | e] eqn:Hy;
      [| rewrite (run_without_target inp e Hy) in Hrun; discriminate].
    destruct (detect_columns (features (train_df inp))) as [cols | e] eqn:Hd;
      [| rewrite (run_detection_raises inp y_sel e Hy Hd) in Hrun; discriminate].
    destruct (target_floats y_sel) as [y | e] eqn:Hf;
      [| rewrite (run_target_not_numeric inp y_sel cols e Hy Hd Hf) in Hrun; discriminate].
    destruct (run_after_target inp _ y cols Hy Hd Hf)
      as (errs & blended & _ & _ & _ & _ & Hrun').
    rewrite Hrun' in Hrun.
    destruct (getitem (test_df inp) "id") as [ids_sel |]; cbn [rbind] in Hrun;
      [| discriminate].
    destruct (id_column ids_sel) as [ids |]; cbn [rbind] in Hrun; [| discriminate].
    destruct (make_submission ids _) as [sub |]; cbn [rbind] in Hrun; [| discriminate].
    now injection Hrun as <-. }
  pose proof (detect_columns_Ok_distinct _ _ Hd) as Hnd.
  split; [exact Hd | split; [| exact Hnd]].
  rewrite (detect_columns_distinct _ Hnd) in Hd. now injection Hd.
Qed.

(** ** Dropped and required columns *)

Lemma drop_ignore_columns (labels : list string) (df : DataFrame) :
  exists X, drop labels errors_ignore df = Ok X
            /\ nrows X = nrows df
            /\ forall c, In c (columns X) <-> In c (columns df) /\ ~ In c labels.
Proof.
  eexists. split; [reflexivity | split; [reflexivity |]].
  intros c. unfold columns. cbn [frame_data]. rewrite !in_map_iff. split.
  - intros [[c' s] [<- Hin]]. apply filter_In in Hin as [Hin Hm]. cbn [fst] in *.
    split; [exists (c', s); auto |].
    intros Hl. apply mem_In in Hl. rewrite Hl in Hm. discriminate.
  - intros [[[c' s] [<- Hin]] Hn]. exists (c', s). split; [reflexivity |].
    apply filter_In. split; [assumption |]. cbn [fst] in *.
    destruct (mem c' labels) eqn:E; [apply mem_In in E; contradiction | reflexivity].
Qed.

(** Without [errors='ignore'] an absent label would have raised. *)
Lemma drop_raise_absent_label :
  drop DROP_COLS errors_raise demo_X = Raise (KeyError "id").
Proof. reflexivity. Qed.

Lemma demo_features_distinct : List.NoDup (columns (features demo_train_df)).
Proof. exact demo_X_distinct. Qed.

(** C9.  Dropping the columns of the drop-list never raises, also when
    some of them are absent from the table; the run raises when the target
    column is missing from the training table (at [train_df[TARGET]]) or
    the identifier column is missing from the test table, and then nothing
    is written.  The error for the missing identifier is the [KeyError] of
    [test_df['id']], in the submission cell, when the cells before it have
    not raised: when the target is in place and the feature labels are
    distinct; with a repeated feature label the run has ended before, in
    the column detection. *)
Theorem drop_tolerant_required_columns_raise (inp : run_input) :
  (forall df, exists X,
      drop DROP_COLS errors_ignore df = Ok X
      /\ nrows X = nrows df
      /\ forall c, In c (columns X) <-> In c (columns df) /\ ~ In c DROP_COLS)
  /\ (~ In TARGET (columns (train_df inp)) ->
      run inp = Raise (KeyError TARGET) /\ written inp = None)
  /\ (~ In "id" (columns (test_df inp)) ->
      (exists e, run inp = Raise e) /\ written inp = None)
  /\ (forall y_col y,
        getitem (train_df inp) TARGET = Ok (OneColumn y_col) ->
        to_floats (values y_col) = Ok y ->
        List.NoDup (columns (features (train_df inp))) ->
        ~ In "id" (columns (test_df inp)) ->
        run inp = Raise (KeyError "id"))
  /\ (forall y_sel,
        getitem (train_df inp) TARGET = Ok y_sel ->
        ~ List.NoDup (columns (features (train_df inp))) ->
        run inp = Raise (AttributeError "'DataFrame' object has no attribute 'dtype'")).
Proof.
  assert (Hid : forall y_sel y cols,
            getitem (train_df inp) TARGET = Ok y_sel ->
            detect_columns (features (train_df inp)) = Ok cols ->
            target_floats y_sel = Ok y ->
            ~ In "id" (columns (test_df inp)) ->
            run inp = Raise (KeyError "id")).
  { intros y_sel y cols Hy Hd Hf Hn. eapply run_without_id; eauto.
    now apply getitem_absent. }
  split; [intros df; apply drop_ignore_columns | split; [| split; [| split]]].
  - intros Hn. apply getitem_absent in Hn.
    pose proof (run_without_target inp _ Hn) as Hrun.
    split; [exact Hrun |]. unfold written. now rewrite Hrun.
  - intros Hn.
    assert (Hrun : exists e, run inp = Raise e).
    { destruct (getitem (train_df inp) TARGET) as [y_sel | e] eqn:Hy;
        [| exists e; now apply run_without_target].
      destruct (detect_columns (features (train_df inp))) as [cols | e] eqn:Hd;
        [| exists e; eapply run_detection_raises; eauto].
      destruct (target_floats y_sel) as [y | e] eqn:Hf.
      - exists (KeyError "id"). eapply Hid; eauto.
      - exists e. eapply run_target_not_numeric; eauto. }
    split; [exact Hrun |]. destruct Hrun as [e Hrun]. unfold written. now rewrite Hrun.
  - intros y_col y Hy Hf Hnd Hn.
    exact (Hid (OneColumn y_col) y _ Hy (detect_columns_distinct _ Hnd) Hf Hn).
  - intros y_sel Hy Hnd.
    exact (run_detection_raises inp y_sel _ Hy (detect_columns_repeated _ Hnd)).
Qed.

Lemma drop_tolerant_required_columns_raise_witness :
  run (mkInput demo_train_no_target demo_test_df ["XGB"] demo_fold_of constant_fit)
  = Raise (KeyError "log_price")
  /\ run (mkInput demo_train_df demo_test_no_id ["XGB"] demo_fold_of constant_fit)
     = Raise (KeyError "id").
Proof.
  split.
  - refine (proj1 (proj1 (proj2 (drop_tolerant_required_columns_raise _)) _)).
    cbn. intuition discriminate.
  - refine (proj1 (proj2 (proj2 (proj2 (drop_tolerant_required_columns_raise _))))
              (mkSeries (numpy_dtype Kfloat) 1 (repeat (Num 1) 12)) (repeat 1%R 12) _ _ _ _).
    + reflexivity.
    + reflexivity.
    + exact demo_features_distinct.
    + cbn. intuition discriminate.
Defined.

(** ** The submission writer *)

Section Submission.
Local Open Scope R_scope.

Lemma Rmax_clip (x : R) : Rmax x 0 = if Rlt_dec x 0 then 0 else x.
Proof. unfold Rmax. destruct (Rle_dec x 0), (Rlt_dec x 0); lra. Qed.

Lemma lookup_map {A B : Type} (f : A -> B) (l : list A) (i : nat) (a : A) :
  l !! i = Some a -> map f l !! i = Some (f a).
Proof.
  revert i. induction l as [| x l IH]; intros [| i]; simpl; try discriminate.
  - now intros [= ->].
  - apply IH.
Qed.

Lemma lookup_combine {A B : Type} (l1 : list A) (l2 : list B) (i : nat) (a : A) (b : B) :
  l1 !! i = Some a -> l2 !! i = Some b -> combine l1 l2 !! i = Some (a, b).
Proof.
  revert l2 i. induction l1 as [| x l1 IH]; intros [| y l2] [| i]; simpl;
    try discriminate.
  - now intros [= ->] [= ->].
  - apply IH.
Qed.

Lemma combine_fst {A B : Type} (l1 : list A) (l2 : list B) :
  length l1 = length l2 -> map fst (combine l1 l2) = l1.
Proof.
  revert l2. induction l1 as [| x l1 IH]; intros [| y l2] H; simpl in *;
    try reflexivity; try discriminate.
  f_equal. apply IH. lia.
Qed.

Lemma combine_snd {A B : Type} (l1 : list A) (l2 : list B) :
  length l1 = length l2 -> map snd (combine l1 l2) = l2.
Proof.
  revert l2. induction l1 as [| x l1 IH]; intros [| y l2] H; simpl in *;
    try reflexivity; try discriminate.
  f_equal. apply IH. lia.
Qed.

Lemma np_clip_length (a : list npfloat) (a_min : R) :
  length (np_clip a a_min) = length a.
Proof. unfold np_clip. apply length_map. Qed.

(** C8.  The writer replaces every prediction below 0 by 0 and leaves every
    other prediction as it is, however large; the submission has one row
    per test row, and its identifier column is the identifier column of
    the test table, in the same order. *)
Theorem submission_clips_and_keeps_ids :
  (forall (ids : Series) (preds : list npfloat),
      length preds = length (values ids) ->
      exists sub,
        make_submission ids (np_clip preds 0) = Ok sub
        /\ length sub = length (values ids)
        /\ map fst sub = values ids
        /\ map snd sub = np_clip preds 0
        /\ forall i x, preds !! i = Some (Fin x) ->
             exists id, values ids !! i = Some id
                        /\ sub !! i = Some (id, Fin (if Rlt_dec x 0 then 0 else x)))
  /\ (forall inp tr,
        run inp = Ok tr ->
        exists ids,
          getitem (test_df inp) "id" = Ok (OneColumn ids)
          /\ length (tr_submission tr) = nrows (test_df inp)
          /\ map fst (tr_submission tr) = values ids
          /\ map snd (tr_submission tr) = np_clip (tr_preds tr) 0).
Proof.
  split.
  - intros ids preds Hlen. unfold make_submission.
    rewrite np_clip_length, Hlen, Nat.eqb_refl.
    assert (Hl : length (values ids) = length (np_clip preds 0))
      by now rewrite np_clip_length.
    eexists. split; [reflexivity |].
    split; [rewrite length_combine, <- Hl; apply Nat.min_id |].
    split; [now apply combine_fst | split; [now apply combine_snd |]].
    intros i x Hi.
    destruct (lookup_lt_is_Some_2 (values ids) i) as [id Hid].
    { rewrite <- Hlen. eapply lookup_lt_Some; eauto. }
    exists id. split; [exact Hid |].
    apply lookup_combine; [exact Hid |].
    rewrite <- Rmax_clip. unfold np_clip.
    exact (lookup_map _ preds i (Fin x) Hi).
  - intros inp tr Hrun.
    destruct (run_inversion inp tr Hrun)
      as (y_col & y & ids & _ & _ & Hid & Hlen & Hn & _ & _ & Hp & Hs & _).
    assert (Hl : length (values ids) = length (np_clip (tr_preds tr) 0)).
    { rewrite np_clip_length, Hp. unfold ensemble_preds. now rewrite length_map. }
    exists ids. split; [exact Hid |]. rewrite Hs.
    split; [rewrite length_combine, <- Hl, Nat.min_id; congruence |].
    split; [now apply combine_fst | now apply combine_snd].
Qed.

Lemma submission_clips_and_keeps_ids_witness :
  make_submission (mkSeries (numpy_dtype Kint) 2 [Num 101; Num 102])
    (np_clip [Fin (-1.5); Fin 42.7] 0)
  = Ok [(Num 101, Fin 0); (Num 102, Fin 42.7)].
Proof.
  destruct (proj1 submission_clips_and_keeps_ids
              (mkSeries (numpy_dtype Kint) 2 [Num 101; Num 102]) [Fin (-1.5); Fin 42.7] eq_refl)
    as (sub & -> & _ & Hfst & _ & Hrows).
  destruct (Hrows 0%nat (-1.5) eq_refl) as (id0 & Hid0 & H0).
  destruct (Hrows 1%nat 42.7 eq_refl) as (id1 & Hid1 & H1).
  injection Hid0 as <-. injection Hid1 as <-.
  destruct (Rlt_dec (-1.5) 0) as [_ | Hn]; [| exfalso; lra].
  destruct (Rlt_dec 42.7 0) as [Hn | _]; [exfalso; lra |].
  destruct sub as [| r0 [| r1 [| r2 sub]]]; try discriminate.
  cbn in H0, H1. injection H0 as ->. injection H1 as ->. reflexivity.
Defined.

End Submission.

(** ** The exponential, finite blends and the sign of the predictions *)

Section Positive.
Local Open Scope R_scope.

(** The arguments on which [np.exp] neither overflows nor underflows. *)

Lemma float_exp_in_range (x : R) :
  EXP_UNDERFLOW <= x <= EXP_OVERFLOW -> float_exp x = Fin (exp x).
Proof.
  intros [H1 H2]. unfold float_exp.
  destruct (Rlt_dec EXP_OVERFLOW x); [lra |].
  destruct (Rlt_dec x EXP_UNDERFLOW); [lra | reflexivity].
Qed.

Lemma float_exp_underflow (x : R) : x < EXP_UNDERFLOW -> float_exp x = Fin 0.
Proof.
  intros H. unfold float_exp.
  destruct (Rlt_dec EXP_OVERFLOW x) as [H' |];
    [unfold EXP_OVERFLOW, EXP_UNDERFLOW in *; lra |].
  destruct (Rlt_dec x EXP_UNDERFLOW); [reflexivity | lra].
Qed.

Lemma float_exp_overflow (x : R) : EXP_OVERFLOW < x -> float_exp x = PInf.
Proof. intros H. unfold float_exp. destruct (Rlt_dec EXP_OVERFLOW x); [reflexivity | lra]. Qed.

Lemma float_exp_cases (x : R) :
  float_exp x = PInf \/ exists v, float_exp x = Fin v /\ 0 <= v.
Proof.
  unfold float_exp. destruct (Rlt_dec EXP_OVERFLOW x); [now left | right].
  destruct (Rlt_dec x EXP_UNDERFLOW).
  - exists 0. split; [reflexivity | lra].
  - exists (exp x). split; [reflexivity |]. left. apply exp_pos.
Qed.

(** A float is 0.0 after [np.exp] only by underflow. *)
Lemma float_exp_zero (x : R) : float_exp x = Fin 0 <-> x < EXP_UNDERFLOW.
Proof.
  split; [| apply float_exp_underflow]. unfold float_exp.
  destruct (Rlt_dec EXP_OVERFLOW x); [discriminate |].
  destruct (Rlt_dec x EXP_UNDERFLOW); [auto |].
  intros [= H]. pose proof (exp_pos x). lra.
Qed.

Lemma fexp_cases (v : npfloat) :
  fexp v = NaN \/ fexp v = PInf \/ exists x, fexp v = Fin x /\ 0 <= x.
Proof.
  destruct v as [x | | |]; cbn [fexp]; auto.
  - destruct (float_exp_cases x) as [-> | H]; auto.
  - right; right. exists 0. split; [reflexivity | lra].
Qed.

Lemma finite_array_Fin (a : list R) : finite_array (map Fin a) = Some a.
Proof. induction a as [| x a IH]; simpl; [reflexivity | now rewrite IH]. Qed.

Lemma np_exp_in_range (a : list R) :
  Forall (fun x => EXP_UNDERFLOW <= x <= EXP_OVERFLOW) a ->
  np_exp a = map Fin (map exp a).
Proof.
  unfold np_exp. induction 1 as [| x a Hx Ha IH]; simpl; [reflexivity |].
  now rewrite float_exp_in_range, IH.
Qed.

(** Where no exponential leaves the range of the floats, the error of a
    model is the metric of the prices themselves. *)
Lemma smape_np_in_range (a b : list R) :
  Forall (fun x => EXP_UNDERFLOW <= x <= EXP_OVERFLOW) a ->
  Forall (fun x => EXP_UNDERFLOW <= x <= EXP_OVERFLOW) b ->
  smape_np (np_exp a) (np_exp b) = smape (map exp a) (map exp b).
Proof.
  intros Ha Hb. unfold smape_np.
  now rewrite (np_exp_in_range a Ha), (np_exp_in_range b Hb), !finite_array_Fin.
Qed.


Lemma finite_array_overflow (a : list R) :
  Exists (fun x => EXP_OVERFLOW < x) a -> finite_array (np_exp a) = None.
Proof.
  unfold np_exp. induction 1 as [x a Hx | x a Ha IH]; simpl.
  - now rewrite float_exp_overflow.
  - rewrite IH. now destruct (float_exp x).
Qed.

Lemma vadd_scale_finite (acc : list npfloat) (arr : list R) (w : npfloat) :
  Forall finite acc -> finite w -> Forall finite (vadd acc (scale arr w)).
Proof.
  intros Hacc [w' ->].
  revert arr. induction Hacc as [| a acc [a' ->] Hacc IH]; intros [| x arr]; simpl;
    try constructor.
  - eexists. reflexivity.
  - apply IH.
Qed.

Lemma blend_finite (preds : dict (list R)) (weights : dict npfloat)
    (acc out : list npfloat) :
  blend preds weights acc = Ok out ->
  Forall (fun kv => finite (snd kv)) weights ->
  Forall finite acc ->
  Forall finite out.
Proof.
  intros Hb Hw. revert acc Hb.
  induction preds as [| [k arr] preds IH]; intros acc Hb Hacc; simpl in Hb.
  - injection Hb as <-. exact Hacc.
  - unfold item in Hb. destruct (dict_get weights k) as [w |] eqn:E; [| discriminate].
    simpl in Hb. eapply IH; [exact Hb |].
    apply vadd_scale_finite; [exact Hacc |].
    exact (dict_get_Forall finite _ _ _ Hw E).
Qed.

Lemma finite_errors_of (errs : dict npfloat) :
  Forall (fun kv => exists e, snd kv = Fin e /\ 0 < e) errs ->
  exists es, errs = finite_errors es /\ Forall (fun kv => 0 < snd kv) es.
Proof.
  induction 1 as [| [k v] errs [e [Hv He]] Herrs [es [-> Hes]]].
  - exists []. split; [reflexivity | constructor].
  - simpl in Hv. subst v. exists ((k, e) :: es). split; [reflexivity |].
    constructor; assumption.
Qed.

Lemma weights_finite (errs : dict npfloat) :
  Forall (fun kv => exists e, snd kv = Fin e /\ 0 < e) errs ->
  Forall (fun kv => finite (snd kv)) (norm_weights (inv_errors errs)).
Proof.
  intros Hpos. destruct (finite_errors_of errs Hpos) as [es [-> Hes]].
  destruct es as [| kv es]; [constructor |].
  rewrite norm_weights_rule; [| discriminate | assumption]. unfold weight_rule.
  generalize (sum_inverse (kv :: es)). intros total. generalize (kv :: es).
  clear. intros es. induction es; simpl; constructor; [eexists; reflexivity | assumption].
Qed.

Lemma smape_term_spec_nonneg (t p : R) : 0 <= smape_term_spec t p.
Proof.
  destruct (Req_dec t p) as [-> | Hne].
  - rewrite smape_term_spec_self. lra.
  - assert (Hnz : ~ (t = 0 /\ p = 0)) by (intros [-> ->]; now apply Hne).
    rewrite smape_term_spec_nonzero by assumption.
    assert (Hd : (Rabs t + Rabs p) / 2 <> 0)
      by (intros H; apply denominator_zero_iff in H; contradiction).
    pose proof (Rabs_pos t). pose proof (Rabs_pos p). pose proof (Rabs_pos (t - p)).
    apply Rmult_le_pos; [assumption |]. left. apply Rinv_0_lt_compat. lra.
Qed.

(** The metric is nan on empty input and otherwise a number. *)
Lemma smape_cases (y_true y_pred : list R) :
  smape y_true y_pred = NaN \/ exists e, smape y_true y_pred = Fin e.
Proof.
  rewrite smape_refines_spec. unfold smape_spec.
  destruct (zip_with smape_term_spec y_true y_pred); cbn; eauto.
Qed.

(** The metric is never negative. *)
Lemma smape_nonneg (y_true y_pred : list R) (e : R) :
  smape y_true y_pred = Fin e -> 0 <= e.
Proof.
  rewrite smape_refines_spec. unfold smape_spec.
  assert (Hsum : forall a b, 0 <= np_sum (zip_with smape_term_spec a b)).
  { induction a as [| t a IH]; intros [| q b]; simpl; try lra.
    pose proof (smape_term_spec_nonneg t q). pose proof (IH b). lra. }
  specialize (Hsum y_true y_pred).
  destruct (zip_with smape_term_spec y_true y_pred) as [| c terms] eqn:E;
    [discriminate |].
  cbn [np_mean fmul]. intros [= <-].
  assert (0 < INR (length (c :: terms))) by (apply lt_0_INR; simpl; lia).
  apply Rmult_le_pos; [| lra].
  apply Rmult_le_pos; [assumption |]. left. now apply Rinv_0_lt_compat.
Qed.

Lemma smape_finite (y_true y_pred : list R) :
  length y_true = length y_pred -> y_true <> [] ->
  exists e, smape y_true y_pred = Fin e /\ 0 <= e.
Proof.
  intros Hlen Hne.
  destruct y_true as [| t ts]; [contradiction |].
  destruct y_pred as [| p ps]; [discriminate |].
  destruct (smape_cases (t :: ts) (p :: ps)) as [E | [e E]].
  - rewrite smape_refines_spec in E. discriminate E.
  - exists e. split; [exact E |]. eapply smape_nonneg; eauto.
Qed.

Lemma smape_np_cases (a b : list npfloat) :
  smape_np a b = NaN \/ exists e, smape_np a b = Fin e /\ 0 <= e.
Proof.
  unfold smape_np. destruct (finite_array a) as [x |]; [| now left].
  destruct (finite_array b) as [y |]; [| now left].
  destruct (smape_cases x y) as [E | [e E]]; [now left | right].
  exists e. split; [exact E |]. eapply smape_nonneg; eauto.
Qed.


(** The error of a model is a number that is not negative, or nan; it is
    never an infinity. *)
Lemma errors_cases (names : list string) (y : list R) (st : cv_state)
    (errs : dict npfloat) :
  errors names y st = Ok errs ->
  Forall (fun kv => snd kv = NaN \/ exists e, snd kv = Fin e /\ 0 <= e) errs.
Proof.
  unfold errors. revert errs.
  induction names as [| name names IH]; intros errs; simpl.
  - intros [= <-]. constructor.
  - unfold item at 1. destruct (dict_get (oof_preds st) name) as [oof |] eqn:Eo;
      simpl; [| discriminate].
    destruct (dict_comp names _) as [d |]; simpl; [| discriminate].
    intros [= <-]. constructor; [apply smape_np_cases | now apply IH].
Qed.

Lemma run_errors_cases (inp : run_input) (tr : run_trace) :
  run inp = Ok tr ->
  Forall (fun kv => snd kv = NaN \/ exists e, snd kv = Fin e /\ 0 <= e) (tr_errors tr).
Proof.
  intros Hrun.
  destruct (run_inversion inp tr Hrun)
    as (y_col & y & ids & _ & _ & _ & _ & _ & _ & _ & _ & _ & _ & _ & Herr).
  exact (errors_cases _ _ _ _ Herr).
Qed.

(** Errors that are numbers other than 0 are positive numbers. *)
Lemma positive_errors (errs : dict npfloat) :
  Forall (fun kv => snd kv = NaN \/ exists e, snd kv = Fin e /\ 0 <= e) errs ->
  Forall (fun kv => exists e, snd kv = Fin e /\ e <> 0) errs ->
  exists es, errs = finite_errors es /\ Forall (fun kv => 0 < snd kv) es.
Proof.
  intros Hcases Hnz. apply finite_errors_of.
  induction Hcases as [| kv errs Hkv Hcases IH]; [constructor |].
  inversion Hnz as [| ? ? [e [He Hne]] Hnz']; subst. constructor; [| now apply IH].
  exists e. split; [exact He |].
  destruct Hkv as [Hkv | [e' [He' Hge]]]; [congruence |].
  assert (e' = e) by congruence. subst. lra.
Qed.

Lemma zeros_finite (n : nat) : Forall finite (map Fin (np_zeros n)).
Proof.
  generalize (np_zeros n). intros zeros.
  induction zeros; simpl; constructor; [eexists; reflexivity | assumption].
Qed.

(** When every error is a number other than 0, the weights are finite and
    so is the log-space blend. *)
Lemma run_blend_real_valued (inp : run_input) (tr : run_trace) :
  run inp = Ok tr ->
  Forall (fun kv => exists e, snd kv = Fin e /\ e <> 0) (tr_errors tr) ->
  real_valued (tr_blend tr).
Proof.
  intros Hrun Hnz.
  destruct (positive_errors _ (run_errors_cases inp tr Hrun) Hnz) as [es [Hes Hpos]].
  destruct (run_inversion inp tr Hrun)
    as (y_col & y & ids & _ & _ & _ & _ & _ & _ & Hw & _ & _ & Hb & _).
  unfold ensemble_preds_log in Hb. eapply blend_finite; [exact Hb | | apply zeros_finite].
  rewrite Hw. apply weights_finite. rewrite Hes. clear - Hpos.
  induction Hpos as [| [k e] es He Hpos IH]; simpl; constructor; [eauto | exact IH].
Qed.

Lemma combine_Forall_snd {A B : Type} (P : B -> Prop) (l1 : list A) (l2 : list B) :
  Forall P l2 -> Forall (fun row => P (snd row)) (combine l1 l2).
Proof.
  intros H. revert l1. induction H as [| y l2 Hy H IH]; intros [| x l1]; simpl;
    constructor; auto.
Qed.

(** After [np.exp] a value is nan, inf or a number that is not negative,
    and the clip at 0 leaves it as it is. *)
Lemma ensemble_preds_sign (blended : list npfloat) :
  Forall (fun v => v = NaN \/ v = PInf \/ exists x, v = Fin x /\ 0 <= x)
    (ensemble_preds blended).
Proof.
  unfold ensemble_preds. induction blended as [| v l IH]; simpl; constructor;
    [apply fexp_cases | exact IH].
Qed.

Lemma np_clip_ensemble_preds (blended : list npfloat) :
  np_clip (ensemble_preds blended) 0 = ensemble_preds blended.
Proof.
  pose proof (ensemble_preds_sign blended) as Hall. unfold np_clip.
  induction Hall as [| v l Hv Hall IH]; simpl; [reflexivity |].
  rewrite IH. f_equal. destruct Hv as [-> | [-> | [x [-> Hx]]]]; try reflexivity.
  f_equal. now apply Rmax_left.
Qed.

(** C10, amended.  In every run that reaches the submission step a final
    prediction is [np.exp] of the log-space blend; the clip at 0 changes
    no value; and no written value is negative: it is nan, inf, or a
    number from 0 up.  When every model's error is a number other than 0,
    the blend is real-valued, and the value written for a row is the
    exponential of the blend of that row, strictly positive, as long as
    the blend is in the range of [np.exp]; it is exactly 0.0 when the
    blend is below that range, and inf when it is above. *)
Theorem final_predictions_positive_unless_underflow (inp : run_input) (tr : run_trace) :
  run inp = Ok tr ->
  tr_preds tr = map fexp (tr_blend tr)
  /\ np_clip (tr_preds tr) 0 = tr_preds tr
  /\ Forall (fun row => snd row = NaN \/ snd row = PInf
                        \/ exists x, snd row = Fin x /\ 0 <= x) (tr_submission tr)
  /\ (Forall (fun kv => exists e, snd kv = Fin e /\ e <> 0) (tr_errors tr) ->
      real_valued (tr_blend tr)
      /\ forall j b, tr_blend tr !! j = Some (Fin b) ->
           exists id v,
             tr_submission tr !! j = Some (id, v)
             /\ (EXP_UNDERFLOW <= b <= EXP_OVERFLOW -> v = Fin (exp b) /\ 0 < exp b)
             /\ (b < EXP_UNDERFLOW -> v = Fin 0)
             /\ (EXP_OVERFLOW < b -> v = PInf)).
Proof.
  intros Hrun.
  destruct (run_inversion inp tr Hrun)
    as (y_col & y & ids & _ & _ & _ & Hlen & _ & _ & _ & Hp & Hs & _).
  assert (Hclip : np_clip (tr_preds tr) 0 = tr_preds tr)
    by (rewrite Hp; apply np_clip_ensemble_preds).
  split; [exact Hp | split; [exact Hclip | split]].
  - rewrite Hs, Hclip, Hp.
    exact (combine_Forall_snd
             (fun v : npfloat => v = NaN \/ v = PInf \/ exists x, v = Fin x /\ 0 <= x)
             _ _ (ensemble_preds_sign (tr_blend tr))).
  - intros Hnz. split; [now apply (run_blend_real_valued inp tr Hrun) |].
    intros j b Hj.
    destruct (lookup_lt_is_Some_2 (values ids) j) as [id Hid].
    { rewrite Hlen. eapply lookup_lt_Some; eauto. }
    exists id, (float_exp b). split.
    + rewrite Hs, Hclip, Hp. apply lookup_combine; [exact Hid |].
      unfold ensemble_preds. exact (lookup_map fexp _ _ (Fin b) Hj).
    + split; [| split].
      * intros Hr. split; [now apply float_exp_in_range | apply exp_pos].
      * apply float_exp_underflow.
      * apply float_exp_overflow.
Qed.

End Positive.

(** ** The small runs, traced *)

(** The log-prices of the small runs are in the range of [np.exp]. *)
Lemma small_in_range (x : R) :
  (-1 <= x <= 2 -> EXP_UNDERFLOW <= x <= EXP_OVERFLOW)%R.
Proof. unfold EXP_UNDERFLOW, EXP_OVERFLOW. lra. Qed.

Lemma small_array_in_range (a : list R) :
  Forall (fun x => -1 <= x <= 2)%R a ->
  Forall (fun x => EXP_UNDERFLOW <= x <= EXP_OVERFLOW)%R a.
Proof. apply List.Forall_impl. exact small_in_range. Qed.

Ltac small_range :=
  apply small_array_in_range; cbn [repeat];
  repeat (apply List.Forall_cons; [lra |]); apply List.Forall_nil.

Lemma Ok_eq {A : Type} (a b : A) : Ok a = Ok b -> a = b.
Proof. now intros [= ->]. Qed.

(** The error of a model, read off the run. *)
Ltac read_errors Herr rhs :=
  match type of Herr with
  | ?lhs = _ => change lhs with (Ok rhs) in Herr; apply Ok_eq in Herr; rewrite <- Herr
  end.

Section DemoRuns.
Local Open Scope R_scope.

Lemma smape_term_spec_pos (t p : R) : t <> p -> 0 < smape_term_spec t p.
Proof.
  intros Hne.
  assert (Hnz : ~ (t = 0 /\ p = 0)) by (intros [-> ->]; now apply Hne).
  rewrite smape_term_spec_nonzero by assumption.
  assert (Hd : (Rabs t + Rabs p) / 2 <> 0)
    by (intros H; apply denominator_zero_iff in H; contradiction).
  pose proof (Rabs_pos t). pose proof (Rabs_pos p).
  apply Rdiv_lt_0_compat; [apply Rabs_pos_lt; lra | lra].
Qed.

(** Against a prediction of 0 the term of a value other than 0 is 2. *)
Lemma smape_term_spec_zero_pred (t : R) : t <> 0 -> smape_term_spec t 0 = 2.
Proof.
  intros Ht. rewrite smape_term_spec_nonzero by tauto.
  rewrite Rminus_0_r, Rabs_R0. pose proof (Rabs_pos_lt t Ht). field. lra.
Qed.

Lemma zip_with_repeat {A B C : Type} (f : A -> B -> C) (a : A) (b : B) (n : nat) :
  zip_with f (repeat a n) (repeat b n) = repeat (f a b) n.
Proof. induction n as [| n IH]; simpl; [reflexivity | now rewrite IH]. Qed.

Lemma np_sum_repeat (c : R) (n : nat) : np_sum (repeat c n) = INR n * c.
Proof.
  induction n as [| n IH]; [simpl; lra |].
  rewrite S_INR. cbn [repeat np_sum fold_right]. fold (np_sum (repeat c n)).
  rewrite IH. lra.
Qed.

(** On arrays that repeat one true value and one prediction, the metric is
    their term times 100. *)
Lemma smape_constant (a b : R) (n : nat) :
  smape (repeat a (S n)) (repeat b (S n)) = Fin (smape_term_spec a b * 100).
Proof.
  rewrite smape_refines_spec. unfold smape_spec. rewrite zip_with_repeat.
  change (np_mean (repeat (smape_term_spec a b) (S n)))
    with (Fin (np_sum (repeat (smape_term_spec a b) (S n))
               / INR (length (repeat (smape_term_spec a b) (S n))))).
  rewrite repeat_length, np_sum_repeat. cbn [fmul]. f_equal.
  field. apply not_0_INR. discriminate.
Qed.

Lemma single_model_weight (k : string) (e : R) :
  0 < e -> norm_weights (inv_errors [(k, Fin e)]) = [(k, Fin 1)].
Proof.
  intros He. change [(k, Fin e)] with (finite_errors [(k, e)]).
  rewrite norm_weights_rule; [| discriminate | repeat constructor; exact He].
  unfold weight_rule, sum_inverse. cbn [map np_sum fold_right fst snd].
  do 3 f_equal. field. lra.
Qed.

(** The weight of a single model whose error is 0 or nan is nan. *)
Lemma single_model_weight_nan (k : string) (v : npfloat) :
  v = Fin 0 \/ v = NaN -> norm_weights (inv_errors [(k, v)]) = [(k, NaN)].
Proof.
  intros [-> | ->]; [| reflexivity].
  unfold norm_weights, inv_errors, fsum. cbn [map fst snd fold_left fdiv].
  destruct (Req_dec_T 0 0) as [_ | Hn]; [| contradiction].
  unfold signed_inf. destruct (Rlt_dec 0 1) as [_ | Hn]; [reflexivity | lra].
Qed.

(** The blend of a registry of one model. *)
Lemma blend_one (k : string) (arr : list R) (w : npfloat) (n : nat) :
  length arr = n ->
  blend [(k, arr)] [(k, w)] (map Fin (np_zeros n))
  = Ok (map (fun x => fadd (Fin 0) (fmul (Fin x) w)) arr).
Proof.
  intros Hlen. cbn [blend]. unfold item. cbn [dict_get]. rewrite String.eqb_refl.
  cbn [rbind]. f_equal. unfold vadd, scale, np_zeros. revert n Hlen.
  induction arr as [| x arr IH]; intros [| n] Hlen; try discriminate; [reflexivity |].
  cbn [repeat map zip_with]. f_equal. apply IH. now injection Hlen.
Qed.

Lemma demo_error_pos : 0 < demo_error.
Proof.
  unfold demo_error.
  assert (0 < smape_term_spec (exp 1) (exp 0)); [| lra].
  apply smape_term_spec_pos.
  pose proof (exp_increasing 0 1). lra.
Qed.

Lemma demo_failed_error_pos : 0 < demo_failed_error.
Proof.
  unfold demo_failed_error.
  assert (0 < smape_term_spec (exp 1) (exp 0)); [| lra].
  apply smape_term_spec_pos.
  pose proof (exp_increasing 0 1). lra.
Qed.

Lemma demo_second_error_pos : 0 < demo_second_error.
Proof.
  unfold demo_second_error.
  assert (0 < smape_term_spec (exp 1) (exp 2)); [| lra].
  apply smape_term_spec_pos.
  pose proof (exp_increasing 1 2). lra.
Qed.

Lemma demo_detect :
  detect_columns (features demo_train_df)
  = Ok (["year"], ["is_moscow"], ["region_name"], ["region_code"], ["series"]).
Proof. reflexivity. Qed.

(** The run whose only model completes one fold and raises in the next:
    the model is scored on its partly filled out-of-fold array, gets the
    whole weight, and the one tenth of a test prediction its loop had
    accumulated is exponentiated and written as the price of every test
    row. *)
Lemma demo_failed_run_trace :
  exists tr,
    run demo_failed_run = Ok tr
    /\ oof_preds (tr_state tr) = [("XGB", [1; 0; 0; 0; 0; 0; 0; 0; 0; 0; 1; 0])]
    /\ feature_importances (tr_state tr) = []
    /\ tr_errors tr = [("XGB", Fin demo_failed_error)]
    /\ tr_weights tr = [("XGB", Fin 1)]
    /\ tr_submission tr = [(Num 101, Fin (exp (1 / 10))); (Num 102, Fin (exp (1 / 10)))].
Proof.
  destruct (run_writes demo_failed_run
              (mkSeries (numpy_dtype Kfloat) 1 (repeat (Num 1) 12)) (repeat 1 12)
              (mkSeries (numpy_dtype Kint) 2 [Num 101; Num 102]) _
              eq_refl eq_refl eq_refl eq_refl demo_detect)
    as (tr & Hrun & Hst & Herr & _ & Hw & Hb & _ & Hp & Hs).
  exists tr. split; [exact Hrun |].
  assert (Est : tr_state tr
                = mkState [("XGB", [1; 0; 0; 0; 0; 0; 0; 0; 0; 0; 1; 0])]
                          [("XGB", [0 + 1 / INR N_SPLITS; 0 + 1 / INR N_SPLITS])] [])
    by (rewrite Hst; reflexivity).
  rewrite Est. cbn [oof_preds feature_importances].
  split; [reflexivity | split; [reflexivity |]].
  assert (Eerr : tr_errors tr = [("XGB", Fin demo_failed_error)]).
  { read_errors Herr
      [("XGB", smape_np (np_exp (repeat 1 12))
                 (np_exp [1; 0; 0; 0; 0; 0; 0; 0; 0; 0; 1; 0]))].
    rewrite smape_np_in_range by small_range.
    rewrite smape_refines_spec. unfold smape_spec, demo_failed_error.
    cbn [map repeat zip_with np_mean fmul length].
    rewrite smape_term_spec_self. unfold np_sum. cbn [fold_right].
    do 3 f_equal. simpl INR. field. }
  assert (Ew : tr_weights tr = [("XGB", Fin 1)]).
  { rewrite Hw, Eerr. apply single_model_weight, demo_failed_error_pos. }
  split; [exact Eerr | split; [exact Ew |]].
  unfold ensemble_preds_log in Hb. rewrite <- Hst, Est, Ew in Hb. cbn [test_preds] in Hb.
  rewrite blend_one with (n := 2%nat) in Hb by reflexivity. apply Ok_eq in Hb.
  rewrite Hs, Hp, <- Hb. unfold ensemble_preds, np_clip. cbn [map fadd fmul fexp].
  assert (E : 0 + (0 + 1 / INR N_SPLITS) * 1 = 1 / 10) by (simpl INR; lra).
  rewrite E, float_exp_in_range by (apply small_in_range; lra).
  rewrite Rmax_left by (pose proof (exp_pos (1 / 10)); lra). reflexivity.
Qed.

(** The run whose model completes reaches the submission step with a
    real-valued blend. *)
Lemma demo_run_trace :
  exists tr,
    run demo_run = Ok tr
    /\ feature_importances (tr_state tr) = ["XGB"]
    /\ tr_errors tr = [("XGB", Fin demo_error)]
    /\ real_valued (tr_blend tr).
Proof.
  destruct (run_writes demo_run
              (mkSeries (numpy_dtype Kfloat) 1 (repeat (Num 1) 12)) (repeat 1 12)
              (mkSeries (numpy_dtype Kint) 2 [Num 101; Num 102]) _
              eq_refl eq_refl eq_refl eq_refl demo_detect)
    as (tr & Hrun & Hst & Herr & _ & _).
  exists tr. split; [exact Hrun |].
  assert (Efi : feature_importances (tr_state tr) = ["XGB"])
    by (rewrite Hst; reflexivity).
  assert (Eerr : tr_errors tr = [("XGB", Fin demo_error)]).
  { read_errors Herr [("XGB", smape_np (np_exp (repeat 1 12)) (np_exp (repeat 0 12)))].
    rewrite smape_np_in_range by small_range.
    pose proof (smape_constant (exp 1) (exp 0) 11) as Hc. cbn [repeat] in Hc.
    cbn [map repeat]. now rewrite Hc. }
  split; [exact Efi | split; [exact Eerr |]].
  apply (run_blend_real_valued demo_run tr Hrun).
  rewrite Eerr. repeat constructor. exists demo_error. split; [reflexivity |].
  pose proof demo_error_pos. cbn. lra.
Qed.

Lemma final_predictions_positive_unless_underflow_witness :
  exists tr,
    run demo_run = Ok tr
    /\ np_clip (tr_preds tr) 0 = tr_preds tr
    /\ real_valued (tr_blend tr).
Proof.
  destruct demo_run_trace as (tr & Hrun & _ & Herr & _).
  exists tr. split; [exact Hrun |].
  destruct (final_predictions_positive_unless_underflow demo_run tr Hrun)
    as (_ & Hclip & _ & Hcond).
  split; [exact Hclip |]. apply Hcond.
  rewrite Herr. repeat constructor. exists demo_error. split; [reflexivity |].
  pose proof demo_error_pos. cbn. lra.
Defined.

(** The run whose model predicts every training row exactly: its error is
    0.0, a numpy float, so [1 / v] does not raise but is inf; the sum of the
    inverse errors is inf, the weight inf / inf is nan, and so is every
    blended, exponentiated, clipped and written value. *)
Lemma demo_exact_run_trace :
  exists tr,
    run demo_exact_run = Ok tr
    /\ feature_importances (tr_state tr) = ["XGB"]
    /\ tr_errors tr = [("XGB", Fin 0)]
    /\ tr_weights tr = [("XGB", NaN)]
    /\ tr_preds tr = [NaN; NaN]
    /\ tr_submission tr = [(Num 101, NaN); (Num 102, NaN)].
Proof.
  destruct (run_writes demo_exact_run
              (mkSeries (numpy_dtype Kfloat) 1 (repeat (Num 1) 12)) (repeat 1 12)
              (mkSeries (numpy_dtype Kint) 2 [Num 101; Num 102]) _
              eq_refl eq_refl eq_refl eq_refl demo_detect)
    as (tr & Hrun & Hst & Herr & _ & Hw & Hb & Hlen & Hp & Hs).
  exists tr. split; [exact Hrun |].
  assert (Efi : feature_importances (tr_state tr) = ["XGB"])
    by (rewrite Hst; reflexivity).
  assert (Eerr : tr_errors tr = [("XGB", Fin 0)]).
  { read_errors Herr [("XGB", smape_np (np_exp (repeat 1 12)) (np_exp (repeat 1 12)))].
    rewrite smape_np_in_range by small_range. now rewrite smape_self. }
  assert (Ew : tr_weights tr = [("XGB", NaN)]).
  { rewrite Hw, Eerr. apply single_model_weight_nan. now left. }
  split; [exact Efi | split; [exact Eerr | split; [exact Ew |]]].
  assert (Et : exists t0 t1, test_preds (tr_state tr) = [("XGB", [t0; t1])])
    by (rewrite Hst; eexists _, _; reflexivity).
  destruct Et as (t0 & t1 & Et).
  unfold ensemble_preds_log in Hb. rewrite <- Hst, Et, Ew in Hb.
  rewrite blend_one with (n := 2%nat) in Hb by reflexivity. apply Ok_eq in Hb.
  assert (Epreds : tr_preds tr = [NaN; NaN]) by (rewrite Hp, <- Hb; reflexivity).
  split; [exact Epreds |]. rewrite Hs, Epreds. reflexivity.
Qed.

(** C10 as stated fails: this run reaches the submission step, and the
    values it writes are nan, not numbers greater than 0. *)
Lemma zero_error_run_writes_nan :
  exists tr,
    run demo_exact_run = Ok tr
    /\ tr_errors tr = [("XGB", Fin 0)]
    /\ tr_submission tr = [(Num 101, NaN); (Num 102, NaN)]
    /\ ~ Forall (fun row => exists x, snd row = Fin x /\ 0 < x) (tr_submission tr).
Proof.
  destruct demo_exact_run_trace as (tr & Hrun & _ & Herr & _ & _ & Hsub).
  exists tr. split; [exact Hrun | split; [exact Herr | split; [exact Hsub |]]].
  rewrite Hsub. intros H. inversion H as [| row rows [x [Hx _]] _]; subst.
  discriminate Hx.
Qed.

(** It fails as well in a run in which no error is 0: the model predicts a
    log-price of -1000 for every row, [np.exp] underflows, the error is
    200, the weight 1, and the price written for every test row is 0.0. *)
Lemma underflow_run_writes_zero :
  exists tr,
    run demo_underflow_run = Ok tr
    /\ tr_errors tr = [("XGB", Fin 200)]
    /\ tr_weights tr = [("XGB", Fin 1)]
    /\ tr_submission tr = [(Num 101, Fin 0); (Num 102, Fin 0)]
    /\ ~ Forall (fun row => exists x, snd row = Fin x /\ 0 < x) (tr_submission tr).
Proof.
  destruct (run_writes demo_underflow_run
              (mkSeries (numpy_dtype Kfloat) 1 (repeat (Num 1) 12)) (repeat 1 12)
              (mkSeries (numpy_dtype Kint) 2 [Num 101; Num 102]) _
              eq_refl eq_refl eq_refl eq_refl demo_detect)
    as (tr & Hrun & Hst & Herr & _ & Hw & Hb & Hlen & Hp & Hs).
  exists tr. split; [exact Hrun |].
  assert (Eerr : tr_errors tr = [("XGB", Fin 200)]).
  { read_errors Herr [("XGB", smape_np (np_exp (repeat 1 12)) (np_exp (repeat (-1000) 12)))].
    unfold smape_np. rewrite np_exp_in_range by small_range. rewrite finite_array_Fin.
    assert (Elow : np_exp (repeat (-1000) 12) = map Fin (repeat 0 12)).
    { unfold np_exp. cbn [repeat map].
      rewrite float_exp_underflow by (unfold EXP_UNDERFLOW; lra). reflexivity. }
    rewrite Elow, finite_array_Fin.
    pose proof (smape_constant (exp 1) 0 11) as Hc. cbn [repeat] in Hc.
    cbn [map repeat]. rewrite Hc, smape_term_spec_zero_pred.
    - assert (E : 2 * 100 = 200) by lra. now rewrite E.
    - pose proof (exp_pos 1). lra. }
  assert (Ew : tr_weights tr = [("XGB", Fin 1)]).
  { rewrite Hw, Eerr. apply single_model_weight. lra. }
  split; [exact Eerr | split; [exact Ew |]].
  assert (Et : exists t, test_preds (tr_state tr) = [("XGB", [t; t])] /\ t = -1000).
  { rewrite Hst. eexists. split; [reflexivity |]. cbv beta. unfold N_SPLITS. simpl INR. lra. }
  destruct Et as (t & Et & Ht).
  unfold ensemble_preds_log in Hb. rewrite <- Hst, Et, Ew in Hb.
  rewrite blend_one with (n := 2%nat) in Hb by reflexivity. apply Ok_eq in Hb.
  assert (Esub : tr_submission tr = [(Num 101, Fin 0); (Num 102, Fin 0)]).
  { rewrite Hs, Hp, <- Hb. unfold ensemble_preds, np_clip. cbn [map fadd fmul fexp].
    rewrite float_exp_underflow by (unfold EXP_UNDERFLOW; lra).
    rewrite Rmax_left by lra. reflexivity. }
  split; [exact Esub |]. rewrite Esub. intros H.
  inversion H as [| row rows [x [Hx Hpos]] _]; subst. injection Hx as <-. lra.
Qed.

(** And where [np.exp] overflows: the model predicts a log-price of 1000
    for every row, its prices are inf, its error is nan, and so are its
    weight and every written value. *)
Lemma overflow_run_writes_nan :
  exists tr,
    run demo_overflow_run = Ok tr
    /\ tr_errors tr = [("XGB", NaN)]
    /\ tr_weights tr = [("XGB", NaN)]
    /\ tr_submission tr = [(Num 101, NaN); (Num 102, NaN)].
Proof.
  destruct (run_writes demo_overflow_run
              (mkSeries (numpy_dtype Kfloat) 1 (repeat (Num 1) 12)) (repeat 1 12)
              (mkSeries (numpy_dtype Kint) 2 [Num 101; Num 102]) _
              eq_refl eq_refl eq_refl eq_refl demo_detect)
    as (tr & Hrun & Hst & Herr & _ & Hw & Hb & Hlen & Hp & Hs).
  exists tr. split; [exact Hrun |].
  assert (Eerr : tr_errors tr = [("XGB", NaN)]).
  { read_errors Herr [("XGB", smape_np (np_exp (repeat 1 12)) (np_exp (repeat 1000 12)))].
    unfold smape_np. rewrite np_exp_in_range by small_range. rewrite finite_array_Fin.
    rewrite finite_array_overflow; [reflexivity |].
    cbn [repeat]. left. unfold EXP_OVERFLOW. lra. }
  assert (Ew : tr_weights tr = [("XGB", NaN)]).
  { rewrite Hw, Eerr. apply single_model_weight_nan. now right. }
  split; [exact Eerr | split; [exact Ew |]].
  assert (Et : exists t0 t1, test_preds (tr_state tr) = [("XGB", [t0; t1])])
    by (rewrite Hst; eexists _, _; reflexivity).
  destruct Et as (t0 & t1 & Et).
  unfold ensemble_preds_log in Hb. rewrite <- Hst, Et, Ew in Hb.
  rewrite blend_one with (n := 2%nat) in Hb by reflexivity. apply Ok_eq in Hb.
  rewrite Hs, Hp, <- Hb. reflexivity.
Qed.

End DemoRuns.

(** ** The weight rule *)

Section WeightClaims.
Local Open Scope R_scope.

(** The run with two models of which the second fails: both are scored,
    the second on its untouched store, and they share the weight. *)
Lemma demo_mixed_run_trace :
  exists tr,
    run demo_mixed_run = Ok tr
    /\ feature_importances (tr_state tr) = ["XGB"]
    /\ tr_errors tr = [("XGB", Fin demo_error); ("LGBM", Fin demo_error)]
    /\ tr_weights tr = [("XGB", Fin (1 / 2)); ("LGBM", Fin (1 / 2))].
Proof.
  destruct (run_writes demo_mixed_run
              (mkSeries (numpy_dtype Kfloat) 1 (repeat (Num 1) 12)) (repeat 1 12)
              (mkSeries (numpy_dtype Kint) 2 [Num 101; Num 102]) _
              eq_refl eq_refl eq_refl eq_refl demo_detect)
    as (tr & Hrun & Hst & Herr & _ & Hw & _).
  exists tr. split; [exact Hrun |].
  assert (Efi : feature_importances (tr_state tr) = ["XGB"])
    by (rewrite Hst; reflexivity).
  assert (Eerr : tr_errors tr = [("XGB", Fin demo_error); ("LGBM", Fin demo_error)]).
  { read_errors Herr
      [("XGB", smape_np (np_exp (repeat 1 12)) (np_exp (repeat 0 12)));
       ("LGBM", smape_np (np_exp (repeat 1 12)) (np_exp (repeat 0 12)))].
    rewrite smape_np_in_range by small_range.
    pose proof (smape_constant (exp 1) (exp 0) 11) as Hc. cbn [repeat] in Hc.
    cbn [map repeat]. now rewrite Hc. }
  split; [exact Efi | split; [exact Eerr |]].
  pose proof demo_error_pos as He.
  rewrite Hw, Eerr.
  change [("XGB", Fin demo_error); ("LGBM", Fin demo_error)]
    with (finite_errors [("XGB", demo_error); ("LGBM", demo_error)]).
  rewrite norm_weights_rule; [| discriminate | repeat constructor; exact He].
  unfold weight_rule, sum_inverse. cbn [map np_sum fold_right fst snd].
  assert (Hhalf : 1 / demo_error / (1 / demo_error + (1 / demo_error + 0)) = 1 / 2)
    by (field; lra).
  now rewrite Hhalf.
Qed.

(** C6 as stated fails.  For the empty set of models there is no weight
    and the weights sum to 0.  And in a run where exactly one model
    succeeded and another failed, the weight of the one that succeeded is
    1/2, not 1: the sum of the rule runs over the failed model too. *)
Lemma weights_of_no_model_and_of_failed_model :
  (norm_weights (inv_errors (finite_errors [])) = []
   /\ fsum (map snd (norm_weights (inv_errors (finite_errors [])))) = Fin 0
   /\ fsum (map snd (norm_weights (inv_errors (finite_errors [])))) <> Fin 1)
  /\ exists tr,
       run demo_mixed_run = Ok tr
       /\ model_completes demo_mixed_run (repeat 1 12) "XGB" = true
       /\ model_completes demo_mixed_run (repeat 1 12) "LGBM" = false
       /\ dict_get (tr_weights tr) "XGB" = Some (Fin (1 / 2))
       /\ dict_get (tr_weights tr) "XGB" <> Some (Fin 1).
Proof.
  split.
  - split; [reflexivity | split; [reflexivity |]].
    cbn. intros H. injection H as H. lra.
  - destruct demo_mixed_run_trace as (tr & Hrun & _ & _ & Hw).
    exists tr. rewrite Hw.
    split; [exact Hrun | split; [reflexivity | split; [reflexivity | split]]].
    + reflexivity.
    + cbn. intros H. injection H as H. lra.
Qed.

(** C6, amended.  For every non-empty set of models with positive error
    metrics that the weight rule is applied to, the weight of model m is
    (1/error(m)) / sum of 1/error(m'); the weights sum to 1; a single model
    has weight 1; and of two models the one with the lower error has the
    higher weight.  In a run the rule is applied to every model of the
    registry, completed or not. *)
Theorem inverse_error_weights (es : dict R) :
  es <> [] ->
  Forall (fun kv => 0 < snd kv) es ->
  let weights := norm_weights (inv_errors (finite_errors es)) in
  weights = weight_rule es
  /\ fsum (map snd weights) = Fin 1
  /\ (forall k e, es = [(k, e)] -> weights = [(k, Fin 1)])
  /\ (forall k1 e1 k2 e2, In (k1, e1) es -> In (k2, e2) es -> e1 < e2 ->
        1 / e2 / sum_inverse es < 1 / e1 / sum_inverse es)
  /\ (forall k1 e1 k2 e2, es = [(k1, e1); (k2, e2)] -> e1 < e2 ->
        exists w1 w2, weights = [(k1, Fin w1); (k2, Fin w2)]
                      /\ w2 < w1 /\ w1 + w2 = 1)
  /\ (forall inp tr, run inp = Ok tr -> tr_errors tr = finite_errors es ->
        tr_weights tr = weights /\ keys (tr_weights tr) = models inp).
Proof.
  intros Hne Hpos weights. subst weights.
  pose proof (sum_inverse_pos es Hne Hpos) as HS.
  rewrite (norm_weights_rule es Hne Hpos).
  assert (Hmono : forall e1 e2, 0 < e1 -> e1 < e2 ->
            1 / e2 / sum_inverse es < 1 / e1 / sum_inverse es).
  { intros e1 e2 H1 H12. unfold Rdiv. rewrite !Rmult_1_l.
    apply Rmult_lt_compat_r; [now apply Rinv_0_lt_compat |].
    apply Rinv_lt_contravar; [| assumption].
    apply Rmult_lt_0_compat; lra. }
  split; [reflexivity | split; [now apply weight_rule_sum | split; [| split; [| split]]]].
  - intros k e ->. unfold weight_rule, sum_inverse. cbn [map np_sum fold_right fst snd].
    inversion Hpos as [| kv l He _]; subst. cbn [snd] in He.
    do 3 f_equal. field. lra.
  - intros k1 e1 k2 e2 H1 H2 H12. apply Hmono; [| assumption].
    rewrite List.Forall_forall in Hpos. exact (Hpos _ H1).
  - intros k1 e1 k2 e2 -> H12.
    inversion Hpos as [| kv l He1 Hrest]; subst. cbn [snd] in He1.
    exists (1 / e1 / sum_inverse [(k1, e1); (k2, e2)]),
           (1 / e2 / sum_inverse [(k1, e1); (k2, e2)]).
    split; [reflexivity | split; [now apply Hmono |]].
    pose proof (weight_rule_sum _ Hne Hpos) as Hsum.
    unfold weight_rule, fsum in Hsum. cbn [map fold_left fadd fst snd] in Hsum.
    injection Hsum as Hsum. lra.
  - intros inp tr Hrun Herrs.
    destruct (run_inversion inp tr Hrun)
      as (y_col & y & ids & _ & _ & _ & _ & _ & Hk & Hw & _).
    rewrite Hw, keys_norm_weights, keys_inv_errors, Hk, Herrs.
    split; [now apply norm_weights_rule | reflexivity].
Qed.

Lemma inverse_error_weights_witness :
  norm_weights (inv_errors (finite_errors [("XGB", 20); ("LGBM", 30)]))
  = weight_rule [("XGB", 20); ("LGBM", 30)]
  /\ fsum (map snd (norm_weights (inv_errors (finite_errors [("XGB", 20); ("LGBM", 30)]))))
     = Fin 1.
Proof.
  assert (Hne : [("XGB", 20); ("LGBM", 30)] <> ([] : dict R)) by discriminate.
  assert (Hpos : Forall (fun kv : string * R => 0 < snd kv) [("XGB", 20); ("LGBM", 30)]).
  { repeat constructor; simpl; lra. }
  destruct (inverse_error_weights _ Hne Hpos) as (H1 & H2 & _).
  split; assumption.
Defined.

End WeightClaims.

(** ** Failed models and the ensemble *)

Lemma dict_get_comprehension {V : Type} (f : string -> V) (names : list string) (k : string) :
  In k names -> dict_get (map (fun name => (name, f name)) names) k = Some (f k).
Proof.
  induction names as [| a names IH]; simpl; [tauto |].
  intros Hin. destruct (String.eqb_spec k a) as [-> | Hne]; [reflexivity |].
  apply IH. destruct Hin; [congruence | assumption].
Qed.

(** Reading a dict whose values were mapped, as the comprehensions
    [{k: g(v) for k, v in d.items()}] of the ensembler do. *)
Lemma dict_get_map_values {V W : Type} (g : V -> W) (d : dict V) (k : string) :
  dict_get (map (fun kv => (fst kv, g (snd kv))) d) k = option_map g (dict_get d k).
Proof.
  induction d as [| [a v] d IH]; [reflexivity |].
  cbn [map dict_get fst snd]. destruct (String.eqb k a); [reflexivity | exact IH].
Qed.

(** The weight of a model, read off its error and the errors of all. *)
Lemma dict_get_norm_weights (errs : dict npfloat) (k : string) (e : npfloat) :
  dict_get errs k = Some e ->
  dict_get (norm_weights (inv_errors errs)) k
  = Some (fdiv (fdiv (Fin 1%R) e) (fsum (map snd (inv_errors errs)))).
Proof.
  intros He. unfold norm_weights.
  rewrite (dict_get_map_values
             (fun v => fdiv v (fsum (map snd (inv_errors errs)))) (inv_errors errs) k).
  change (dict_get (inv_errors errs) k)
    with (dict_get (map (fun kv => (fst kv, fdiv (Fin 1%R) (snd kv))) errs) k).
  rewrite (dict_get_map_values (fdiv (Fin 1%R)) errs k), He. reflexivity.
Qed.

(** C1 as stated fails: the only model of this run completes one fold and
    raises in the second; its partly filled out-of-fold array is scored,
    and the model is in the error metrics and in the weights, with the
    whole weight. *)
Lemma failed_model_is_weighted :
  exists tr,
    run demo_failed_run = Ok tr
    /\ model_completes demo_failed_run (repeat 1%R 12) "XGB" = false
    /\ ~ In "XGB" (feature_importances (tr_state tr))
    /\ dict_get (oof_preds (tr_state tr)) "XGB"
       = Some [1; 0; 0; 0; 0; 0; 0; 0; 0; 0; 1; 0]%R
    /\ In "XGB" (keys (tr_errors tr))
    /\ dict_get (tr_weights tr) "XGB" = Some (Fin 1%R).
Proof.
  destruct demo_failed_run_trace as (tr & Hrun & Hoof & Hfi & Herr & Hw & _).
  exists tr. rewrite Hfi, Hoof, Herr, Hw.
  split; [exact Hrun | split; [reflexivity | split; [intros [] | split; [| split]]]].
  - reflexivity.
  - now left.
  - reflexivity.
Qed.

(** C1, amended.  A fold that raises ends the fold loop of its model: the
    remaining folds are not run, and training goes on with the next model.
    The error metrics and the normalised weights of the ensemble range
    over every model of the registry, whether it completed its folds or
    not.  With [y] the target column of the training table read as
    floats, the error of a model is the metric of exp y against the
    exponential of the out-of-fold array its own loop left behind; its
    weight is the inverse of that error over the sum of the inverse errors
    of all models of the registry; the blend is the sum, over all of them,
    of the test predictions their loops accumulated times those weights;
    and only the models that completed are recorded in
    [feature_importances]. *)
Theorem failed_model_aborted_yet_weighted (inp : run_input) (tr : run_trace) :
  run inp = Ok tr ->
  (forall name before fold train_idx val_idx rest oof tst,
      (forall v t, fit inp name fold train_idx <> FoldCompletes v t) ->
      cv_folds (fit inp name) (nrows (test_df inp))
        (before ++ (fold, (train_idx, val_idx)) :: rest) oof tst
      = cv_folds (fit inp name) (nrows (test_df inp))
          (before ++ [(fold, (train_idx, val_idx))]) oof tst
      /\ snd (cv_folds (fit inp name) (nrows (test_df inp))
                (before ++ (fold, (train_idx, val_idx)) :: rest) oof tst) = false)
  /\ keys (tr_errors tr) = models inp
  /\ keys (tr_weights tr) = models inp
  /\ tr_weights tr = norm_weights (inv_errors (tr_errors tr))
  /\ blend (test_preds (tr_state tr)) (tr_weights tr)
       (map Fin (np_zeros (nrows (test_df inp)))) = Ok (tr_blend tr)
  /\ keys (test_preds (tr_state tr)) = models inp
  /\ exists y_col y,
       getitem (train_df inp) TARGET = Ok (OneColumn y_col)
       /\ to_floats (values y_col) = Ok y
       /\ (forall name, In name (models inp) ->
          exists oof,
            dict_get (oof_preds (tr_state tr)) name = Some oof
            /\ dict_get (tr_errors tr) name = Some (smape_np (np_exp y) (np_exp oof))
            /\ dict_get (tr_weights tr) name
               = Some (fdiv (fdiv (Fin 1%R) (smape_np (np_exp y) (np_exp oof)))
                            (fsum (map snd (inv_errors (tr_errors tr))))))
       /\ (List.NoDup (models inp) ->
           forall name, In name (models inp) ->
             dict_get (oof_preds (tr_state tr)) name
             = Some (fst (fst (cv_folds (fit inp name) (nrows (test_df inp))
                                 (enumerate_folds (map (fold_of inp) (seq 0 (length y))))
                                 (np_zeros (length y))
                                 (np_zeros (nrows (test_df inp))))))
             /\ dict_get (test_preds (tr_state tr)) name
                = Some (snd (fst (cv_folds (fit inp name) (nrows (test_df inp))
                                    (enumerate_folds (map (fold_of inp) (seq 0 (length y))))
                                    (np_zeros (length y))
                                    (np_zeros (nrows (test_df inp))))))
             /\ (In name (feature_importances (tr_state tr))
                 <-> model_completes inp y name = true)).
Proof.
  intros Hrun.
  destruct (run_inversion inp tr Hrun)
    as (y_col & y & ids & Hy & Hf & _ & _ & _ & Hk & Hw & _ & _ & Hb & Hst & Herr).
  split; [intros; now apply cv_folds_aborts |].
  split; [exact Hk |].
  split; [now rewrite Hw, keys_norm_weights, keys_inv_errors |].
  split; [exact Hw |].
  split; [exact Hb |].
  set (n_test := nrows (test_df inp)) in *.
  set (tf := map (fold_of inp) (seq 0 (length y))) in *.
  destruct (train_fold_keys (fit inp) n_test tf (models inp)
              (init_state (models inp) (length y) n_test)) as [Hko Hkt].
  fold (train_all (fit inp) (models inp) (length y) n_test tf) in Hko, Hkt.
  rewrite <- Hst in Hko, Hkt. cbn [init_state oof_preds test_preds] in Hko, Hkt.
  assert (Hkeys : keys (oof_preds (tr_state tr)) = models inp).
  { rewrite Hko. unfold keys. rewrite map_map. apply map_id. }
  split; [rewrite Hkt; unfold keys; rewrite map_map; apply map_id |].
  exists y_col, y. split; [exact Hy | split; [exact Hf |]].
  split.
  - intros name Hin.
    destruct (proj1 (dict_get_In (oof_preds (tr_state tr)) name)) as [oof Hoof];
      [now rewrite Hkeys |].
    exists oof. split; [exact Hoof |].
    assert (He : dict_get (tr_errors tr) name = Some (smape_np (np_exp y) (np_exp oof))).
    { rewrite errors_total in Herr by (intros n Hn; now rewrite Hkeys).
      apply Ok_eq in Herr. rewrite <- Herr.
      rewrite (dict_get_comprehension
                 (fun name => smape_np (np_exp y)
                                (np_exp (default [] (dict_get (oof_preds (tr_state tr)) name))))
                 (models inp) name Hin).
      now rewrite Hoof. }
    split; [exact He |].
    rewrite Hw at 1. now apply dict_get_norm_weights.
  - intros Hnd name Hin.
    assert (Hinit : forall k, In k (models inp) ->
              dict_get (oof_preds (init_state (models inp) (length y) n_test)) k
              = Some (np_zeros (length y))
              /\ dict_get (test_preds (init_state (models inp) (length y) n_test)) k
                 = Some (np_zeros n_test)).
    { intros k Hk'. cbn [init_state oof_preds test_preds].
      split; now apply dict_get_init. }
    destruct (Hinit name Hin) as [Ho Ht]. rewrite Hst. unfold train_all.
    split; [| split].
    + exact (proj1 (train_fold_entry (fit inp) (length y) n_test tf (models inp)
                      _ name Hnd Hin Ho Ht)).
    + exact (proj2 (train_fold_entry (fit inp) (length y) n_test tf (models inp)
                      _ name Hnd Hin Ho Ht)).
    + rewrite (train_fold_importances (fit inp) (length y) n_test tf (models inp)
                 _ name Hnd Hinit).
      cbn [init_state feature_importances]. unfold model_completes.
      fold n_test. fold tf. intuition.
Qed.

Lemma failed_model_aborted_yet_weighted_witness :
  exists tr,
    run demo_failed_run = Ok tr
    /\ keys (tr_errors tr) = ["XGB"]
    /\ keys (tr_weights tr) = ["XGB"]
    /\ tr_weights tr = norm_weights (inv_errors (tr_errors tr)).
Proof.
  destruct demo_failed_run_trace as (tr & Hrun & _).
  exists tr. split; [exact Hrun |].
  destruct (failed_model_aborted_yet_weighted demo_failed_run tr Hrun)
    as (_ & Hke & Hkw & Hw & _).
  repeat split; assumption.
Defined.


(** The same run on a training table in which a feature label occurs
    twice ends in the column detection, before any model is trained, and
    writes nothing. *)
Lemma repeated_label_run_raises :
  run demo_repeated_run
  = Raise (AttributeError "'DataFrame' object has no attribute 'dtype'")
  /\ written demo_repeated_run = None.
Proof. split; reflexivity. Qed.



(** * Further properties *)

(** ** The range of the metric *)

Section SmapeRange.
Local Open Scope R_scope.

Lemma smape_term_spec_le_2 (t p : R) : smape_term_spec t p <= 2.
Proof.
  unfold smape_term_spec. destruct (Req_dec_T _ _) as [Hz | Hnz]; [lra |].
  pose proof (Rabs_pos t) as Ht. pose proof (Rabs_pos p) as Hp.
  assert (Hd : 0 < (Rabs t + Rabs p) / 2) by lra.
  apply (Rmult_le_reg_r ((Rabs t + Rabs p) / 2)); [exact Hd |].
  unfold Rdiv at 1. rewrite Rmult_assoc, Rinv_l, Rmult_1_r by lra.
  pose proof (Rabs_triang t (- p)) as Htri. rewrite Rabs_Ropp in Htri.
  unfold Rminus. lra.
Qed.


Lemma np_sum_terms_bounds (a b : list R) :
  0 <= np_sum (zip_with smape_term_spec a b)
  <= 2 * INR (length (zip_with smape_term_spec a b)).
Proof.
  revert b. induction a as [| t a IH]; intros [| p b]; cbn [zip_with np_sum fold_right length];
    try (simpl; lra).
  fold (np_sum (zip_with smape_term_spec a b)). rewrite S_INR.
  pose proof (smape_term_spec_nonneg t p). pose proof (smape_term_spec_le_2 t p).
  specialize (IH b). lra.
Qed.


Lemma smape_value (y_true y_pred : list R) :
  length y_true = length y_pred -> y_true <> [] ->
  smape y_true y_pred
  = Fin (np_sum (zip_with smape_term_spec y_true y_pred)
          / INR (length (zip_with smape_term_spec y_true y_pred)) * 100)
  /\ 0 < INR (length (zip_with smape_term_spec y_true y_pred)).
Proof.
  intros Hlen Hne. rewrite smape_refines_spec. unfold smape_spec.
  destruct y_true as [| t ts]; [contradiction |].
  destruct y_pred as [| p ps]; [discriminate |].
  split; [reflexivity |]. apply lt_0_INR. simpl. lia.
Qed.

(** X1.  On two arrays of one length that are not empty, the metric is a
    number between 0 and 200. *)
Theorem smape_between_0_and_200 (y_true y_pred : list R) :
  length y_true = length y_pred -> y_true <> [] ->
  exists e, smape y_true y_pred = Fin e /\ 0 <= e <= 200.
Proof.
  intros Hlen Hne. destruct (smape_value y_true y_pred Hlen Hne) as [-> Hn].
  eexists. split; [reflexivity |].
  pose proof (np_sum_terms_bounds y_true y_pred) as [Hlo Hhi].
  set (s := np_sum _) in *. set (n := INR _) in *.
  assert (Hq : 0 <= s / n <= 2).
  { split.
    - apply Rmult_le_pos; [exact Hlo |]. left. now apply Rinv_0_lt_compat.
    - apply (Rmult_le_reg_r n); [exact Hn |].
      unfold Rdiv. rewrite Rmult_assoc, Rinv_l, Rmult_1_r; lra. }
  lra.
Qed.

Lemma smape_between_0_and_200_witness :
  exists e, smape [1; 0] [3; 0] = Fin e /\ 0 <= e <= 200.
Proof.
  apply (smape_between_0_and_200 [1; 0] [3; 0]); [reflexivity | discriminate].
Defined.

Lemma np_sum_terms_zero (a b : list R) :
  length a = length b -> np_sum (zip_with smape_term_spec a b) = 0 -> a = b.
Proof.
  revert b. induction a as [| t a IH]; intros [| p b] Hlen Hsum; try discriminate;
    [reflexivity |].
  cbn [zip_with np_sum fold_right] in Hsum.
  fold (np_sum (zip_with smape_term_spec a b)) in Hsum.
  pose proof (smape_term_spec_nonneg t p) as Ht.
  pose proof (np_sum_terms_bounds a b) as [Hs _].
  destruct (Req_dec t p) as [-> | Hne].
  - f_equal. apply IH; [now injection Hlen | lra].
  - pose proof (smape_term_spec_pos t p Hne). lra.
Qed.

(** X2.  On two arrays of one length that are not empty, the metric is 0
    exactly when the prediction equals the truth in every element. *)
Theorem smape_zero_iff_equal (y_true y_pred : list R) :
  length y_true = length y_pred -> y_true <> [] ->
  (smape y_true y_pred = Fin 0 <-> y_true = y_pred).
Proof.
  intros Hlen Hne. split.
  - destruct (smape_value y_true y_pred Hlen Hne) as [-> Hn].
    intros [= H]. apply np_sum_terms_zero; [exact Hlen |].
    set (s := np_sum _) in *. set (n := INR _) in *.
    assert (Hq : s / n = 0) by lra.
    apply (f_equal (fun x => x * n)) in Hq.
    unfold Rdiv in Hq. rewrite Rmult_assoc, Rinv_l, Rmult_1_r, Rmult_0_l in Hq; lra.
  - intros <-. now apply smape_self.
Qed.

Lemma smape_zero_iff_equal_witness :
  smape [2; 5] [2; 5] = Fin 0 <-> [2; 5] = [2; 5].
Proof.
  apply (smape_zero_iff_equal [2; 5] [2; 5]); [reflexivity | discriminate].
Defined.

Lemma smape_term_spec_scale (c t p : R) :
  c <> 0 -> smape_term_spec (c * t) (c * p) = smape_term_spec t p.
Proof.
  intros Hc. pose proof (Rabs_pos_lt c Hc) as Hac.
  pose proof (Rabs_pos t) as Ht. pose proof (Rabs_pos p) as Hp.
  unfold smape_term_spec.
  replace (c * t - c * p) with (c * (t - p)) by ring.
  rewrite !Rabs_mult.
  replace ((Rabs c * Rabs t + Rabs c * Rabs p) / 2)
    with (Rabs c * ((Rabs t + Rabs p) / 2)) by field.
  destruct (Req_dec_T (Rabs c * ((Rabs t + Rabs p) / 2)) 0) as [Hz | Hnz];
    destruct (Req_dec_T ((Rabs t + Rabs p) / 2) 0) as [Hz' | Hnz'].
  - reflexivity.
  - apply Rmult_integral in Hz as [Hz | Hz]; [lra | contradiction].
  - rewrite Hz', Rmult_0_r in Hnz. contradiction.
  - field. split; lra.
Qed.

(** X3.  The metric does not depend on the unit of the prices: multiplying
    the truth and the prediction by one factor other than 0 leaves it
    unchanged. *)
Theorem smape_scale_invariant (c : R) (y_true y_pred : list R) :
  c <> 0 ->
  smape (map (Rmult c) y_true) (map (Rmult c) y_pred) = smape y_true y_pred.
Proof.
  intros Hc. rewrite !smape_refines_spec. unfold smape_spec. f_equal. f_equal.
  revert y_pred. induction y_true as [| t ts IH]; intros [| p ps]; simpl; try reflexivity.
  now rewrite smape_term_spec_scale, IH.
Qed.

Lemma smape_scale_invariant_witness :
  smape (map (Rmult 1000) [1; 0]) (map (Rmult 1000) [3; 0]) = smape [1; 0] [3; 0].
Proof. apply (smape_scale_invariant 1000 [1; 0] [3; 0]). lra. Defined.

End SmapeRange.

(** ** The errors of a run *)

Section RunErrors.
Local Open Scope R_scope.











End RunErrors.

(** ** Column detection: counts, order, and the dropped columns *)

Lemma filter_filter_andb {A : Type} (f g : A -> bool) (l : list A) :
  List.filter g (List.filter f l) = List.filter (fun x => f x && g x) l.
Proof.
  induction l as [| x l IH]; simpl; [reflexivity |].
  destruct (f x); simpl; [destruct (g x) |]; now rewrite IH.
Qed.

Lemma filter_sublist {A : Type} (f : A -> bool) (l : list A) :
  sublist (List.filter f l) l.
Proof.
  induction l as [| x l IH]; simpl; [constructor |].
  destruct (f x); now constructor.
Qed.

(** Five tests of which every element passes exactly one share the list out. *)
Lemma filter_five_lengths {A : Type} (f1 f2 f3 f4 f5 : A -> bool) (l : list A) :
  (forall x, In x l ->
     Nat.b2n (f1 x) + Nat.b2n (f2 x) + Nat.b2n (f3 x) + Nat.b2n (f4 x) + Nat.b2n (f5 x) = 1) ->
  length (List.filter f1 l) + length (List.filter f2 l) + length (List.filter f3 l)
  + length (List.filter f4 l) + length (List.filter f5 l) = length l.
Proof.
  induction l as [| x l IH]; intros Hone; [reflexivity |].
  specialize (IH (fun y Hy => Hone y (or_intror Hy))).
  specialize (Hone x (or_introl eq_refl)). simpl.
  destruct (f1 x), (f2 x), (f3 x), (f4 x), (f5 x); simpl in *; lia.
Qed.

Lemma classify_counts_and_order (X : DataFrame) :
  let '(num_cols, bool_cols, cat_low, cat_mid, cat_high) := classify X in
  length num_cols + length bool_cols + length cat_low + length cat_mid + length cat_high
  = length (columns X)
  /\ Forall (fun l => sublist l (columns X))
       [num_cols; bool_cols; cat_low; cat_mid; cat_high].
Proof.
  destruct (classify X) as [[[[num_cols bool_cols] cat_low] cat_mid] cat_high] eqn:E.
  pose proof (classify_route X _ _ _ _ _ E) as Hr.
  unfold classify in E. injection E as <- <- <- <- <-.
  rewrite !filter_filter_andb in *.
  split.
  - apply filter_five_lengths. intros c Hc.
    pose proof (Hr c Numeric) as H1. pose proof (Hr c Boolean) as H2.
    pose proof (Hr c CatLow) as H3. pose proof (Hr c CatMid) as H4.
    pose proof (Hr c CatHigh) as H5. cbv beta iota in H1, H2, H3, H4, H5.
    rewrite filter_In in H1, H2, H3, H4, H5.
    destruct (proj1 (lookup_columns X c) Hc) as [s Hs].
    assert (Hdec : forall (v : bool) b,
              (In c (columns X) /\ v = true
               <-> exists s', lookup_col (frame_data X) c = Some s' /\ route s' = b) ->
              v = true <-> route s = b).
    { intros v b H. split.
      - intros Hf. destruct (proj1 H (conj Hc Hf)) as [s' [Hs' Hb]]. congruence.
      - intros Hb. apply H. eauto. }
    apply Hdec in H1, H2, H3, H4, H5.
    clear Hr Hdec. set (r := route s) in *. clearbody r.
    destruct r;
      repeat match goal with
             | H : ?v = true <-> ?l = ?l |- _ => rewrite (proj2 H eq_refl); clear H
             | H : ?v = true <-> _ |- _ =>
                 let Ev := fresh "Ev" in
                 destruct v eqn:Ev; [discriminate (proj1 H eq_refl) |]; clear H
             end; reflexivity.
  - repeat constructor;
      repeat match goal with
             | |- sublist (List.filter _ _) _ => apply filter_sublist
             end.
Qed.

(** X5.  When [detect_columns] returns, every column of the table is
    counted once in the summary it prints: the lengths of the five lists
    add up to the number of columns; each list names its columns in the
    order of the table; and the labels of the table are distinct. *)
Theorem detect_columns_counts_and_order (X : DataFrame)
    (num_cols bool_cols cat_low cat_mid cat_high : list string) :
  detect_columns X = Ok (num_cols, bool_cols, cat_low, cat_mid, cat_high) ->
  length num_cols + length bool_cols + length cat_low + length cat_mid + length cat_high
  = length (columns X)
  /\ Forall (fun l => sublist l (columns X))
       [num_cols; bool_cols; cat_low; cat_mid; cat_high]
  /\ List.NoDup (columns X).
Proof.
  intros Hd. pose proof (detect_columns_Ok_distinct X _ Hd) as Hnd.
  rewrite (detect_columns_distinct X Hnd) in Hd. apply Ok_eq in Hd.
  pose proof (classify_counts_and_order X) as H. rewrite Hd in H.
  destruct H as [H1 H2]. repeat split; assumption.
Qed.

Lemma detect_columns_counts_and_order_witness :
  length ["year"] + length ["is_moscow"] + length ["region_name"]
  + length ["region_code"] + length ["series"] = length (columns demo_X)
  /\ List.NoDup (columns demo_X).
Proof.
  destruct (detect_columns_counts_and_order demo_X
              ["year"] ["is_moscow"] ["region_name"] ["region_code"] ["series"] eq_refl)
    as (H1 & _ & H3).
  split; assumption.
Defined.

(** X6.  No column of the drop-list is ever used as a feature: in a run,
    every label in the five lists of the column classifier is a column of
    the training table that is not on the drop-list; so neither the target
    [log_price], nor [price], nor [id] is among the features. *)
Theorem features_exclude_dropped_columns (inp : run_input) (tr : run_trace) :
  run inp = Ok tr ->
  let '(num_cols, bool_cols, cat_low, cat_mid, cat_high) := tr_columns tr in
  forall c, In c (num_cols ++ bool_cols ++ cat_low ++ cat_mid ++ cat_high) ->
    In c (columns (train_df inp)) /\ ~ In c DROP_COLS
    /\ c <> TARGET /\ c <> "price" /\ c <> "id".
Proof.
  intros Hrun. destruct (run_columns inp tr Hrun) as (_ & -> & _).
  set (X := features (train_df inp)).
  destruct (classify X) as [[[[num_cols bool_cols] cat_low] cat_mid] cat_high] eqn:E.
  pose proof (classify_route X _ _ _ _ _ E) as Hr.
  intros c Hin.
  assert (HX : In c (columns X)).
  { apply lookup_columns. rewrite !in_app_iff in Hin.
    destruct Hin as [H | [H | [H | [H | H]]]];
      [ apply (Hr c Numeric) in H | apply (Hr c Boolean) in H
      | apply (Hr c CatLow) in H | apply (Hr c CatMid) in H
      | apply (Hr c CatHigh) in H ];
      destruct H as [s [Hs _]]; eauto. }
  destruct (drop_ignore_columns DROP_COLS (train_df inp)) as (X' & HX' & _ & Hcols).
  injection HX' as <-. fold (features (train_df inp)) in Hcols. fold X in Hcols.
  apply Hcols in HX as [Hc Hn].
  split; [exact Hc | split; [exact Hn |]].
  repeat split; intros ->; apply Hn; unfold DROP_COLS, TARGET; simpl; tauto.
Qed.

Lemma features_exclude_dropped_columns_witness :
  exists tr,
    run demo_run = Ok tr
    /\ let '(num_cols, bool_cols, cat_low, cat_mid, cat_high) := tr_columns tr in
       forall c, In c (num_cols ++ bool_cols ++ cat_low ++ cat_mid ++ cat_high) ->
         In c (columns (train_df demo_run)) /\ ~ In c DROP_COLS
         /\ c <> TARGET /\ c <> "price" /\ c <> "id".
Proof.
  destruct demo_run_trace as (tr & Hrun & _).
  exists tr. split; [exact Hrun |].
  exact (features_exclude_dropped_columns demo_run tr Hrun).
Defined.

(** ** Reading a table after dropping columns *)

Lemma select_filter (labels : list string) (data : list (string * Series)) (c : string) :
  select (List.filter (fun cs => negb (mem (fst cs) labels)) data) c
  = if mem c labels then [] else select data c.
Proof.
  unfold select. induction data as [| [c' s] data IH]; cbn [List.filter map fst];
    [now destruct (mem c labels) |].
  destruct (mem c' labels) eqn:Em; cbn [negb].
  - rewrite IH. destruct (String.eqb_spec c c') as [-> | Hne]; [now rewrite Em |].
    reflexivity.
  - cbn [List.filter fst]. destruct (String.eqb_spec c c') as [-> | Hne].
    + cbn [map snd]. rewrite IH, Em. reflexivity.
    + exact IH.
Qed.

(** X7.  After [drop(columns=labels, errors='ignore')] the table has the
    rows it had; reading a dropped label from it raises [KeyError], and
    reading any other label gives what the table before the drop gives. *)
Theorem getitem_after_drop (labels : list string) (df : DataFrame) (c : string) :
  exists X,
    drop labels errors_ignore df = Ok X
    /\ nrows X = nrows df
    /\ getitem X c = if mem c labels then Raise (KeyError c) else getitem df c.
Proof.
  eexists. split; [reflexivity | split; [reflexivity |]].
  unfold getitem. cbn [frame_data]. rewrite select_filter.
  now destruct (mem c labels).
Qed.

Lemma columns_filter (p : string -> bool) (data : list (string * Series)) :
  map fst (List.filter (fun cs => p (fst cs)) data) = List.filter p (map fst data).
Proof.
  induction data as [| [c s] data IH]; simpl; [reflexivity |].
  destruct (p c); simpl; now rewrite IH.
Qed.

(** X8.  The two feature tables have the same columns in the same order
    whenever the test table is the training table without some columns of
    the drop-list (the target and the price are known for training rows
    only). *)
Theorem drop_aligns_train_and_test (labels missing : list string) (train test : DataFrame) :
  incl missing labels ->
  columns test = List.filter (fun c => negb (mem c missing)) (columns train) ->
  exists X X_test,
    drop labels errors_ignore train = Ok X
    /\ drop labels errors_ignore test = Ok X_test
    /\ columns X_test = columns X.
Proof.
  intros Hincl Htest. eexists _, _. split; [reflexivity | split; [reflexivity |]].
  unfold columns in *. cbn [frame_data].
  rewrite !(columns_filter (fun c => negb (mem c labels))), Htest, filter_filter_andb.
  apply filter_ext. intros c.
  destruct (mem c missing) eqn:Em; [| reflexivity]. simpl.
  apply mem_In in Em. apply Hincl, mem_In in Em. now rewrite Em.
Qed.

Lemma drop_aligns_train_and_test_witness :
  exists X X_test,
    drop DROP_COLS errors_ignore demo_train_df = Ok X
    /\ drop DROP_COLS errors_ignore demo_test_df = Ok X_test
    /\ columns X_test = columns X.
Proof.
  apply (drop_aligns_train_and_test DROP_COLS ["price"; "log_price"]).
  - intros c [<- | [<- | []]]; unfold DROP_COLS; simpl; tauto.
  - reflexivity.
Defined.

(** ** What a fold loop leaves in the two stores *)

Section FoldStores.
Variable test_folds : list nat.
Variable fit_model : nat -> list nat -> fold_outcome.
Variable n_test : nat.

Let F (i : nat) : list nat * list nat :=
  (compress (map negb (map (Nat.eqb i) test_folds)) (seq 0 (length test_folds)),
   compress (map (Nat.eqb i) test_folds) (seq 0 (length test_folds))).

Let completes (i : nat) (t : nat -> R) : Prop :=
  exists v, fit_model (S i) (fst (F i)) = FoldCompletes v t.

Lemma cv_folds_app (l1 l2 : list (nat * (list nat * list nat))) (oof tst : list R) :
  cv_folds fit_model n_test (l1 ++ l2) oof tst
  = let '(oof1, tst1, finished) := cv_folds fit_model n_test l1 oof tst in
    if finished then cv_folds fit_model n_test l2 oof1 tst1 else (oof1, tst1, false).
Proof.
  revert oof tst. induction l1 as [| [fold [train val]] l1 IH]; intros oof tst; simpl;
    [reflexivity |].
  destruct (fit_model fold train); try reflexivity. apply IH.
Qed.

Lemma cv_folds_completes (ks : list nat) (oof tst : list R) :
  (forall i, In i ks -> exists t, completes i t) ->
  snd (cv_folds fit_model n_test (map (fun i => (S i, F i)) ks) oof tst) = true.
Proof.
  revert oof tst. induction ks as [| k ks IH]; intros oof tst Hall; [reflexivity |].
  destruct (Hall k (or_introl eq_refl)) as [t [v Hfit]].
  cbn [map cv_folds]. unfold F at 1 2. unfold F in Hfit. cbn [fst snd] in Hfit |- *.
  rewrite Hfit. apply IH. intros i Hi. apply Hall. now right.
Qed.

(** Every completed fold adds its test predictions, divided by the number
    of folds, to the running total. *)
Lemma cv_folds_test_sum (ks : list nat) :
  forall oof tst oof' tst',
  cv_folds fit_model n_test (map (fun i => (S i, F i)) ks) oof tst = (oof', tst', true) ->
  length tst = n_test ->
  exists ts,
    Forall2 completes ks ts
    /\ length tst' = n_test
    /\ forall j x, tst !! j = Some x ->
         tst' !! j = Some (x + np_sum (map (fun t : nat -> R => t j) ts) / INR N_SPLITS)%R.
Proof.
  induction ks as [| k ks IH]; intros oof tst oof' tst' Hrun Hlen.
  - simpl in Hrun. injection Hrun as <- <-. exists []. split; [constructor |].
    split; [exact Hlen |]. intros j x Hj. rewrite Hj. f_equal. simpl.
    unfold Rdiv. rewrite Rmult_0_l. lra.
  - cbn [map cv_folds] in Hrun. unfold F at 1 2 in Hrun. cbn [fst snd] in Hrun.
    destruct (fit_model (S k) _) as [| v | v t] eqn:Hfit; try discriminate.
    apply IH in Hrun as (ts & Hts & Hlen' & Hsum).
    + exists (t :: ts). split; [constructor; [exists v; exact Hfit | exact Hts] |].
      split; [exact Hlen' |]. intros j x Hj.
      assert (Hjn : j < n_test) by (rewrite <- Hlen; eapply lookup_lt_Some; eauto).
      rewrite (Hsum j (x + t j / INR N_SPLITS)%R).
      * f_equal. cbn [map np_sum fold_right]. fold (np_sum (map (fun t0 : nat -> R => t0 j) ts)).
        unfold Rdiv. lra.
      * unfold np_add, np_div_scalar. rewrite lookup_zip_with, Hj.
        rewrite map_map, (lookup_map_seq (fun i => (t i / INR N_SPLITS)%R) 0 n_test j Hjn).
        reflexivity.
    + unfold np_add, np_div_scalar.
      rewrite length_zip_with, !length_map, length_seq. lia.
Qed.

End FoldStores.

Lemma zeros_lookup (n j : nat) : j < n -> np_zeros n !! j = Some 0%R.
Proof.
  intros Hj. unfold np_zeros.
  destruct (repeat 0%R n !! j) as [x |] eqn:E.
  - apply list_elem_of_lookup_2, list_elem_of_In, repeat_spec in E. now subst.
  - apply lookup_ge_None in E. rewrite repeat_length in E. lia.
Qed.

Lemma completed_folds_lookup (test_folds : list nat)
    (fit_model : nat -> list nat -> fold_outcome) (s c : nat) (ts : list (nat -> R)) :
  s + c <= N_SPLITS ->
  Forall2 (fun i t => exists v,
             fit_model (S i)
               (fst (compress (map negb (map (Nat.eqb i) test_folds))
                       (seq 0 (length test_folds)),
                     compress (map (Nat.eqb i) test_folds) (seq 0 (length test_folds))))
             = FoldCompletes v t) (seq s c) ts ->
  length ts = c
  /\ forall i t, ts !! i = Some t ->
       exists train val v,
         kf_split test_folds !! (s + i) = Some (train, val)
         /\ fit_model (S (s + i)) train = FoldCompletes v t.
Proof.
  intros Hc Hts. split.
  - apply Forall2_length in Hts. now rewrite length_seq in Hts.
  - intros i t Hi.
    destruct (Forall2_lookup_r _ _ _ _ _ Hts Hi) as (k & Hk & v & Hfit).
    apply lookup_seq in Hk as [-> Hlt]. cbn [fst] in Hfit.
    eexists _, _, v. split; [| exact Hfit].
    apply kf_split_lookup. split; [lia | reflexivity].
Qed.

(** X9.  When the fold loop of a model runs to its end, its entry of the
    test store holds, for every test row, the mean over the ten folds of
    the predictions that the pipeline fitted in each fold made for that
    row. *)
Theorem test_preds_average_the_folds (test_folds : list nat)
    (fit_model : nat -> list nat -> fold_outcome) (n_train n_test : nat)
    (oof tst : list R) :
  cv_folds fit_model n_test (enumerate_folds test_folds)
    (np_zeros n_train) (np_zeros n_test) = (oof, tst, true) ->
  exists ts : list (nat -> R),
    length ts = N_SPLITS
    /\ (forall i t, ts !! i = Some t ->
          exists train val v,
            kf_split test_folds !! i = Some (train, val)
            /\ fit_model (S i) train = FoldCompletes v t)
    /\ length tst = n_test
    /\ forall j, j < n_test ->
         tst !! j = Some (np_sum (map (fun t : nat -> R => t j) ts) / INR N_SPLITS)%R.
Proof.
  intros Hrun. rewrite enumerate_folds_map in Hrun.
  apply cv_folds_test_sum in Hrun as (ts & Hts & Hlen & Hsum);
    [| apply repeat_length].
  destruct (completed_folds_lookup test_folds fit_model 0 N_SPLITS ts) as [Hl Hlook];
    [lia | exact Hts |].
  exists ts. split; [exact Hl | split; [exact Hlook | split; [exact Hlen |]]].
  intros j Hj. rewrite (Hsum j 0%R (zeros_lookup n_test j Hj)). f_equal. lra.
Qed.

Lemma test_preds_average_the_folds_witness :
  exists (oof tst : list R) (ts : list (nat -> R)),
    cv_folds demo_fit_model 2 (enumerate_folds demo_test_folds)
      (np_zeros 12) (np_zeros 2) = (oof, tst, true)
    /\ length ts = N_SPLITS
    /\ forall j, j < 2 ->
         tst !! j = Some (np_sum (map (fun t : nat -> R => t j) ts) / INR N_SPLITS)%R.
Proof.
  destruct (cv_folds demo_fit_model 2 (enumerate_folds demo_test_folds)
              (np_zeros 12) (np_zeros 2)) as [[oof tst] finished] eqn:Hrun.
  assert (Hfin : finished = true).
  { pose proof (f_equal snd Hrun) as Hsnd. cbn [snd] in Hsnd.
    rewrite <- Hsnd. reflexivity. }
  subst finished.
  destruct (test_preds_average_the_folds demo_test_folds demo_fit_model 12 2 oof tst Hrun)
    as (ts & Hl & _ & _ & Hmean).
  exists oof, tst, ts. split; [reflexivity | split; [exact Hl | exact Hmean]].
Defined.

(** X10.  What a model that fails leaves in the stores.  When the first
    [c] folds complete and the next one raises, the loop is left with:
    the rows held out by a completed fold carrying that fold's prediction;
    the rows of the fold that raised carrying its prediction if it raised
    after the out-of-fold assignment and 0 if it raised before; the rows
    of the folds never reached at 0; and the test store at the sum, over
    the [c] completed folds only, of a tenth of their test predictions. *)
Theorem aborted_loop_leaves_partial_results (test_folds : list nat)
    (fit_model : nat -> list nat -> fold_outcome) (n_test c : nat)
    (train_c val_c : list nat) :
  kf_split test_folds !! c = Some (train_c, val_c) ->
  (forall i train val, i < c -> kf_split test_folds !! i = Some (train, val) ->
     exists v t, fit_model (S i) train = FoldCompletes v t) ->
  (forall v t, fit_model (S c) train_c <> FoldCompletes v t) ->
  exists (oof tst : list R) (ts : list (nat -> R)),
    cv_folds fit_model n_test (enumerate_folds test_folds)
      (np_zeros (length test_folds)) (np_zeros n_test) = (oof, tst, false)
    /\ length oof = length test_folds
    /\ length tst = n_test
    /\ length ts = c
    /\ (forall i t, ts !! i = Some t ->
          exists train val v,
            kf_split test_folds !! i = Some (train, val)
            /\ fit_model (S i) train = FoldCompletes v t)
    /\ (forall j, j < n_test ->
          tst !! j = Some (np_sum (map (fun t : nat -> R => t j) ts) / INR N_SPLITS)%R)
    /\ (forall r i, test_folds !! r = Some i ->
          (i < c -> exists train val v t,
                      kf_split test_folds !! i = Some (train, val)
                      /\ fit_model (S i) train = FoldCompletes v t
                      /\ oof !! r = Some (v r))
          /\ (i = c -> oof !! r = Some match fit_model (S c) train_c with
                                       | RaisesAfterStore v => v r
                                       | _ => 0%R
                                       end)
          /\ (c < i -> oof !! r = Some 0%R)).
Proof.
  intros Hc Hdone Hraise.
  apply kf_split_lookup in Hc as [Hlt [= -> ->]].
  set (F := fun i : nat =>
         (compress (map negb (map (Nat.eqb i) test_folds)) (seq 0 (length test_folds)),
          compress (map (Nat.eqb i) test_folds) (seq 0 (length test_folds)))) in *.
  set (G := fun i : nat => (S i, F i)).
  assert (HF : forall i, i < N_SPLITS -> kf_split test_folds !! i = Some (F i)).
  { intros i Hi. apply kf_split_lookup. split; [exact Hi | reflexivity]. }
  assert (Hseq : seq 0 N_SPLITS = (seq 0 c ++ c :: seq (S c) (N_SPLITS - S c))%list).
  { replace N_SPLITS with (c + S (N_SPLITS - S c)) at 1 by lia.
    rewrite seq_app. reflexivity. }
  assert (HE : enumerate_folds test_folds = map G (seq 0 N_SPLITS))
    by apply enumerate_folds_map.
  rewrite HE, Hseq, map_app, cv_folds_app.
  assert (Hfin : (forall i, In i (seq 0 c) ->
                    exists t v, fit_model (S i) (fst (F i)) = FoldCompletes v t) ->
                 snd (cv_folds fit_model n_test (map G (seq 0 c))
                        (np_zeros (length test_folds)) (np_zeros n_test)) = true)
    by apply cv_folds_completes.
  destruct (cv_folds fit_model n_test (map G (seq 0 c))
              (np_zeros (length test_folds)) (np_zeros n_test))
    as [[oof1 tst1] fin] eqn:E1.
  cbn [snd] in Hfin.
  assert (Efin : fin = true).
  { apply Hfin. intros i Hi. apply in_seq in Hi.
    destruct (Hdone i (fst (F i)) (snd (F i))) as (v & t & Hfit);
      [lia | apply HF; lia |]. exists t, v. exact Hfit. }
  subst fin. clear Hfin.
  destruct (cv_folds_invariant test_folds fit_model n_test (seq 0 c) _ _ _ _ E1
              (repeat_length _ _) (seq_NoDup _ _)) as [Hlen1 Hrows].
  destruct (cv_folds_test_sum test_folds fit_model n_test (seq 0 c) _ _ _ _ E1
              (repeat_length _ _)) as (ts & Hts & Hlen2 & Hsum).
  destruct (completed_folds_lookup test_folds fit_model 0 c ts) as [Hl Hlook];
    [lia | exact Hts |].
  assert (Hval : forall r, In r (snd (F c)) <-> test_folds !! r = Some c)
    by (intros r; apply val_idx_In).
  assert (Hvlt : forall r, In r (snd (F c)) -> r < length oof1).
  { intros r Hr. rewrite Hlen1. apply Hval in Hr. eapply lookup_lt_Some; eauto. }
  assert (Hzero : forall r i, test_folds !! r = Some i -> c <= i -> oof1 !! r = Some 0%R).
  { intros r i Hri Hi. destruct (Hrows r i Hri) as [_ Hkeep].
    rewrite Hkeep by (rewrite in_seq; lia).
    apply zeros_lookup. eapply lookup_lt_Some; eauto. }
  assert (Hprefix : forall r i, test_folds !! r = Some i -> i < c ->
            exists train val v t,
              kf_split test_folds !! i = Some (train, val)
              /\ fit_model (S i) train = FoldCompletes v t
              /\ oof1 !! r = Some (v r)).
  { intros r i Hri Hi. destruct (Hrows r i Hri) as [Hin _].
    destruct Hin as (v & t & Hfit & Hv); [apply in_seq; lia |].
    exists (fst (F i)), (snd (F i)), v, t.
    split; [apply HF; lia | split; [exact Hfit | exact Hv]]. }
  cbn [map]. change (G c) with (S c, (fst (F c), snd (F c))). cbn [cv_folds].
  change (compress (map negb (map (Nat.eqb c) test_folds)) (seq 0 (length test_folds)))
    with (fst (F c)) in Hraise |- *.
  destruct (fit_model (S c) (fst (F c))) as [| v | v t] eqn:Hfit.
  - exists oof1, tst1, ts.
    split; [reflexivity |]. split; [exact Hlen1 |]. split; [exact Hlen2 |].
    split; [exact Hl |]. split; [exact Hlook |].
    split; [intros j Hj; rewrite (Hsum j 0%R (zeros_lookup n_test j Hj)); f_equal; lra |].
    intros r i Hri. split; [now apply Hprefix | split].
    + intros ->. eapply Hzero; eauto.
    + intros Hi. eapply Hzero; [exact Hri | lia].
  - exists (setitem oof1 (snd (F c)) (map v (snd (F c)))), tst1, ts.
    split; [reflexivity |]. split; [now rewrite setitem_length |]. split; [exact Hlen2 |].
    split; [exact Hl |]. split; [exact Hlook |].
    split; [intros j Hj; rewrite (Hsum j 0%R (zeros_lookup n_test j Hj)); f_equal; lra |].
    intros r i Hri.
    destruct (setitem_lookup v (snd (F c)) oof1 r Hvlt) as [Hin Hout].
    assert (Hother : i <> c -> setitem oof1 (snd (F c)) (map v (snd (F c))) !! r = oof1 !! r).
    { intros Hne. apply Hout. intros Hr. apply Hval in Hr. congruence. }
    split; [| split].
    + intros Hi. destruct (Hprefix r i Hri Hi) as (train & val & v' & t' & H1 & H2 & H3).
      exists train, val, v', t'. split; [exact H1 | split; [exact H2 |]].
      rewrite Hother by lia. exact H3.
    + intros ->. apply Hin. now apply Hval.
    + intros Hi. rewrite Hother by lia. eapply Hzero; [exact Hri | lia].
  - exfalso. exact (Hraise v t eq_refl).
Qed.

Lemma aborted_loop_leaves_partial_results_witness :
  exists (oof tst : list R) (ts : list (nat -> R)),
    cv_folds (partial_fit "XGB") 2 (enumerate_folds demo_test_folds)
      (np_zeros 12) (np_zeros 2) = (oof, tst, false)
    /\ length ts = 1
    /\ oof !! 5 = Some 0%R.
Proof.
  destruct (aborted_loop_leaves_partial_results demo_test_folds (partial_fit "XGB") 2 1
              [0; 2; 3; 4; 5; 6; 7; 8; 9; 10] [1; 11])
    as (oof & tst & ts & Hrun & _ & _ & Hl & _ & _ & Hrows).
  - reflexivity.
  - intros i train val Hi _. assert (i = 0) as -> by lia.
    eexists _, _. reflexivity.
  - intros v t. discriminate.
  - exists oof, tst, ts. split; [exact Hrun | split; [exact Hl |]].
    apply (Hrows 5 5 eq_refl). lia.
Defined.

(** ** The stores of a run *)

Lemma cells_to_floats_length (cells : list cell) (y : list R) :
  cells_to_floats cells = Ok y -> length y = length cells.
Proof.
  revert y. induction cells as [| [x | s] cells IH]; intros y; simpl.
  - now intros [= <-].
  - destruct (cells_to_floats cells) as [xs |]; simpl; [| discriminate].
    intros [= <-]. simpl. f_equal. now apply IH.
  - discriminate.
Qed.

Lemma to_floats_length (cells : list cell) (y : list R) :
  to_floats cells = Ok y -> length y = length cells.
Proof.
  destruct cells as [| c cells]; [discriminate |]. apply cells_to_floats_length.
Qed.

(** X11.  The shape of the two stores is fixed when they are created and
    no fold loop changes it: at the end of a run each store has one entry
    per model of the registry, in registry order; every out-of-fold array
    has one entry per cell of the target column and every test array one
    per row of the test table, whether the model's loop finished or was
    left through the handler. *)
Theorem stores_keep_their_shape (inp : run_input) (tr : run_trace) :
  run inp = Ok tr ->
  exists y_col,
    getitem (train_df inp) TARGET = Ok (OneColumn y_col)
    /\ keys (oof_preds (tr_state tr)) = models inp
    /\ keys (test_preds (tr_state tr)) = models inp
    /\ Forall (fun kv => length (snd kv) = length (values y_col)) (oof_preds (tr_state tr))
    /\ Forall (fun kv => length (snd kv) = nrows (test_df inp)) (test_preds (tr_state tr)).
Proof.
  intros Hrun.
  destruct (run_inversion inp tr Hrun)
    as (y_col & y & ids & Hy & Hf & _ & _ & _ & _ & _ & _ & _ & _ & Hst & _).
  exists y_col. split; [exact Hy |].
  rewrite Hst, <- (to_floats_length _ _ Hf). unfold train_all.
  destruct (train_fold_keys (fit inp) (nrows (test_df inp))
              (map (fold_of inp) (seq 0 (length y))) (models inp)
              (init_state (models inp) (length y) (nrows (test_df inp)))) as [-> ->].
  cbn [init_state oof_preds test_preds]. rewrite !init_keys.
  split; [reflexivity | split; [reflexivity | split]].
  - apply train_fold_oof_lengths. apply init_oof_lengths.
  - apply train_fold_test_lengths. apply init_oof_lengths.
Qed.

Lemma stores_keep_their_shape_witness :
  exists tr y_col,
    run demo_failed_run = Ok tr
    /\ getitem (train_df demo_failed_run) TARGET = Ok (OneColumn y_col)
    /\ keys (oof_preds (tr_state tr)) = models demo_failed_run
    /\ Forall (fun kv => length (snd kv) = length (values y_col)) (oof_preds (tr_state tr)).
Proof.
  destruct demo_failed_run_trace as (tr & Hrun & _).
  destruct (stores_keep_their_shape demo_failed_run tr Hrun)
    as (y_col & Hy & Hko & _ & Hlo & _).
  exists tr, y_col. split; [exact Hrun | split; [exact Hy | split; [exact Hko | exact Hlo]]].
Defined.

Lemma train_fold_importances_list (fit_all : learner) (n_train n_test : nat)
    (test_folds : list nat) (todo : list string) (st : cv_state) :
  List.NoDup todo ->
  (forall k, In k todo -> dict_get (oof_preds st) k = Some (np_zeros n_train)
                          /\ dict_get (test_preds st) k = Some (np_zeros n_test)) ->
  feature_importances (fold_left (train_model fit_all n_test test_folds) todo st)
  = (feature_importances st
     ++ List.filter (fun m => snd (cv_folds (fit_all m) n_test (enumerate_folds test_folds)
                                     (np_zeros n_train) (np_zeros n_test))) todo)%list.
Proof.
  revert st. induction todo as [| k todo IH]; intros st Hnd Hinit;
    cbn [fold_left List.filter]; [now rewrite app_nil_r |].
  inversion Hnd as [| ? ? Hk Hnd']; subst.
  rewrite IH; [| assumption |].
  - destruct (Hinit k (or_introl eq_refl)) as [Ho Ht].
    unfold train_model. rewrite Ho, Ht.
    destruct (cv_folds (fit_all k) n_test (enumerate_folds test_folds)
                (np_zeros n_train) (np_zeros n_test)) as [[oof' tst'] fin].
    cbn [feature_importances snd].
    destruct fin; [now rewrite <- app_assoc | reflexivity].
  - intros j Hj.
    destruct (train_model_other fit_all n_test test_folds st k j) as [-> ->].
    + intros ->. contradiction.
    + apply Hinit. now right.
Qed.

(** X12.  The record of feature importances names the models whose fold
    loop ran to its end, each once, in the order of the registry. *)
Theorem feature_importances_in_registry_order (inp : run_input) (tr : run_trace) :
  run inp = Ok tr ->
  List.NoDup (models inp) ->
  exists y_col y,
    getitem (train_df inp) TARGET = Ok (OneColumn y_col)
    /\ to_floats (values y_col) = Ok y
    /\ feature_importances (tr_state tr)
       = List.filter (model_completes inp y) (models inp)
    /\ sublist (feature_importances (tr_state tr)) (models inp)
    /\ List.NoDup (feature_importances (tr_state tr)).
Proof.
  intros Hrun Hnd.
  destruct (run_inversion inp tr Hrun)
    as (y_col & y & ids & Hy & Hf & _ & _ & _ & _ & _ & _ & _ & _ & Hst & _).
  exists y_col, y. split; [exact Hy | split; [exact Hf |]].
  assert (E : feature_importances (tr_state tr)
              = List.filter (model_completes inp y) (models inp)).
  { rewrite Hst. unfold train_all.
    rewrite (train_fold_importances_list (fit inp) (length y) (nrows (test_df inp))).
    - reflexivity.
    - exact Hnd.
    - intros k Hk. cbn [init_state oof_preds test_preds]. split; now apply dict_get_init. }
  rewrite E. split; [reflexivity | split; [apply filter_sublist |]].
  now apply List.NoDup_filter.
Qed.

Lemma feature_importances_in_registry_order_witness :
  exists tr,
    run demo_mixed_run = Ok tr
    /\ feature_importances (tr_state tr) = ["XGB"].
Proof.
  destruct demo_mixed_run_trace as (tr & Hrun & _).
  destruct (feature_importances_in_registry_order demo_mixed_run tr Hrun)
    as (y_col & y & Hy & Hf & E & _).
  - apply List.NoDup_cons; [simpl; intros [H | []]; discriminate H |].
    apply List.NoDup_cons; [simpl; tauto | apply List.NoDup_nil].
  - injection Hy as <-. injection Hf as <-.
    exists tr. split; [exact Hrun |]. rewrite E. reflexivity.
Defined.


(** ** The blend as a weighted mean *)

Section Blend.
Local Open Scope R_scope.

(** A dict without repeated keys gives, key by key, its own values. *)
Lemma dict_get_keys {V : Type} (d : dict V) :
  List.NoDup (keys d) -> map (dict_get d) (keys d) = map (fun kv => Some (snd kv)) d.
Proof.
  induction d as [| [k v] d IH]; intros Hnd; [reflexivity |].
  inversion Hnd as [| ? ? Hk Hnd']; subst. cbn [keys map fst snd dict_get].
  rewrite String.eqb_refl. f_equal. rewrite <- IH by assumption.
  apply map_ext_in. intros k' Hk'. fold (keys d) in Hk'.
  destruct (String.eqb k' k) eqn:E; [| reflexivity].
  apply String.eqb_eq in E. subst. contradiction.
Qed.

(** One pass of the blend over the stored arrays, seen at row [j]: the
    running total moves by each model's prediction times its weight, and
    stays between [lo] and [hi] times the weight used so far. *)
Lemma blend_row (ws : dict R) (j : nat) (lo hi : R) (preds : dict (list R)) :
  Forall (fun kv => 0 <= snd kv) ws ->
  Forall (fun kv => exists x, snd kv !! j = Some x /\ lo <= x <= hi) preds ->
  (forall k, In k (keys preds) -> In k (keys ws)) ->
  forall (acc out : list npfloat) (a W : R),
  blend preds (map (fun kv => (fst kv, Fin (snd kv))) ws) acc = Ok out ->
  acc !! j = Some (Fin a) ->
  lo * W <= a <= hi * W ->
  let used := np_sum (map (fun k => default 0 (dict_get ws k)) (keys preds)) in
  exists b, out !! j = Some (Fin b) /\ lo * (W + used) <= b <= hi * (W + used).
Proof.
  intros Hws Hrows. induction Hrows as [| [k arr] preds [x [Hx Hb]] Hrows IH];
    intros Hkeys acc out a W Hrun Ha HW; cbn [blend keys map fst np_sum fold_right] in *.
  - injection Hrun as <-. exists a. split; [exact Ha |]. rewrite Rplus_0_r. exact HW.
  - unfold item in Hrun. rewrite (dict_get_map_values Fin ws k) in Hrun.
    destruct (proj1 (dict_get_In ws k) (Hkeys k (or_introl eq_refl))) as [w Hw].
    rewrite Hw in Hrun |- *. cbn [option_map rbind default] in Hrun |- *.
    assert (Hw0 : 0 <= w)
      by exact (dict_get_Forall (fun w : R => 0 <= w) _ _ _ Hws Hw).
    destruct (IH (fun k' Hk' => Hkeys k' (or_intror Hk')) _ out (a + x * w) (W + w) Hrun)
      as [b [Hout Hbounds]].
    + unfold vadd, scale. rewrite lookup_zip_with, Ha. cbn.
      rewrite list_lookup_fmap. cbn in Hx. rewrite Hx. reflexivity.
    + simpl in Hb. split; nra.
    + exists b. split; [exact Hout |].
      unfold keys in Hbounds. unfold Datatypes.id.
      fold (np_sum (map (fun k0 => default 0 (dict_get ws k0)) (map fst preds))).
      rewrite <- !Rplus_assoc. exact Hbounds.
Qed.

End Blend.

Section WeightedMean.
Local Open Scope R_scope.

Lemma exp_monotone (x y : R) : x <= y -> exp x <= exp y.
Proof.
  intros [Hlt | ->]; [left; now apply exp_increasing | right; reflexivity].
Qed.

Lemma weight_rule_values (es : dict R) :
  weight_rule es
  = map (fun kv => (fst kv, Fin (snd kv)))
      (map (fun kv => (fst kv, 1 / snd kv / sum_inverse es)) es).
Proof. unfold weight_rule. now rewrite map_map. Qed.

Lemma weight_rule_nonneg (es : dict R) :
  es <> [] -> Forall (fun kv => 0 < snd kv) es ->
  Forall (fun kv : string * R => 0 <= snd kv)
    (map (fun kv => (fst kv, 1 / snd kv / sum_inverse es)) es).
Proof.
  intros Hne Hpos. pose proof (sum_inverse_pos es Hne Hpos) as HS.
  generalize (sum_inverse es) HS. intros S HS'. clear Hne HS.
  induction Hpos as [| kv es Hkv Hpos IH]; simpl; constructor; [| exact IH].
  simpl. left. apply Rdiv_lt_0_compat; [apply Rdiv_lt_0_compat; lra | exact HS'].
Qed.

(** With positive errors, and every model keyed once, each row of the
    blend is a weighted mean of the rows of the stored arrays. *)
Lemma blend_weighted_mean (es : dict R) (preds : dict (list R)) (n j : nat)
    (lo hi : R) (out : list npfloat) :
  es <> [] -> Forall (fun kv => 0 < snd kv) es ->
  List.NoDup (keys es) -> keys preds = keys es ->
  Forall (fun kv => exists x, snd kv !! j = Some x /\ lo <= x <= hi) preds ->
  (j < n)%nat ->
  blend preds (norm_weights (inv_errors (finite_errors es))) (map Fin (np_zeros n)) = Ok out ->
  exists b, out !! j = Some (Fin b) /\ lo <= b <= hi.
Proof.
  intros Hne Hpos Hnd Hkeys Hrows Hj Hrun.
  rewrite norm_weights_rule, weight_rule_values in Hrun by assumption.
  set (ws := map (fun kv : string * R => (fst kv, 1 / snd kv / sum_inverse es)) es) in *.
  assert (Hkw : keys ws = keys es).
  { unfold ws, keys. rewrite map_map. reflexivity. }
  destruct (blend_row ws j lo hi preds (weight_rule_nonneg es Hne Hpos) Hrows)
    with (acc := map Fin (np_zeros n)) (out := out) (a := 0) (W := 0)
    as [b [Hout Hb]].
  - intros k Hk. now rewrite Hkw, <- Hkeys.
  - exact Hrun.
  - apply lookup_map. now apply zeros_lookup.
  - lra.
  - exists b. split; [exact Hout |].
    assert (Hused : np_sum (map (fun k => default 0 (dict_get ws k)) (keys preds)) = 1).
    { rewrite Hkeys, <- Hkw.
      rewrite <- (map_map (dict_get ws) (default 0)), dict_get_keys
        by (rewrite Hkw; exact Hnd).
      rewrite map_map. cbn [default from_option].
      pose proof (weight_rule_sum es Hne Hpos) as Hsum.
      rewrite weight_rule_values in Hsum. fold ws in Hsum.
      rewrite map_map in Hsum. cbn [snd] in Hsum.
      rewrite <- (map_map snd Fin), fsum_finite in Hsum.
      injection Hsum as Hsum. exact Hsum. }
    rewrite Hused in Hb. lra.
Qed.

Lemma run_stores (inp : run_input) (tr : run_trace) :
  run inp = Ok tr ->
  keys (oof_preds (tr_state tr)) = models inp
  /\ keys (test_preds (tr_state tr)) = models inp
  /\ Forall (fun kv => length (snd kv) = nrows (test_df inp)) (test_preds (tr_state tr)).
Proof.
  intros Hrun.
  destruct (run_inversion inp tr Hrun)
    as (y_col & y & ids & _ & _ & _ & _ & _ & _ & _ & _ & _ & _ & Hst & _).
  rewrite Hst. unfold train_all.
  destruct (train_fold_keys (fit inp) (nrows (test_df inp))
              (map (fold_of inp) (seq 0 (length y))) (models inp)
              (init_state (models inp) (length y) (nrows (test_df inp)))) as [-> ->].
  cbn [init_state oof_preds test_preds]. rewrite !init_keys.
  split; [reflexivity | split; [reflexivity |]].
  apply train_fold_test_lengths. apply init_oof_lengths.
Qed.

(** X13.  With distinct models, each of which has an error that is a
    number other than 0, the log-space blend for a test row is a weighted
    mean of the models' predictions for that row: it is a number between
    the lowest and the highest of them, and the final prediction is
    [np.exp] of it.  When those predictions are within the range in which
    [np.exp] neither overflows nor underflows, the price is the
    exponential of the blend and lies between the lowest and the highest
    of the models' prices. *)
Theorem ensemble_between_model_predictions (inp : run_input) (tr : run_trace)
    (j : nat) (lo hi : R) :
  run inp = Ok tr ->
  List.NoDup (models inp) -> models inp <> [] ->
  Forall (fun kv => exists e, snd kv = Fin e /\ e <> 0) (tr_errors tr) ->
  Forall (fun kv => exists x, snd kv !! j = Some x /\ lo <= x <= hi)
    (test_preds (tr_state tr)) ->
  exists b,
    tr_blend tr !! j = Some (Fin b) /\ lo <= b <= hi
    /\ tr_preds tr !! j = Some (float_exp b)
    /\ (EXP_UNDERFLOW <= lo -> hi <= EXP_OVERFLOW ->
        tr_preds tr !! j = Some (Fin (exp b)) /\ exp lo <= exp b <= exp hi).
Proof.
  intros Hrun Hnd Hne Hnz Hrows.
  destruct (run_stores inp tr Hrun) as (_ & Hkt & Hlen).
  destruct (positive_errors _ (run_errors_cases inp tr Hrun) Hnz) as [es [Hes Hpos]].
  destruct (run_inversion inp tr Hrun)
    as (y_col & y & ids & _ & _ & _ & _ & _ & Hk & Hw & Hp & _ & Hb & _).
  assert (Hkes : keys es = models inp).
  { rewrite <- Hk, Hes. unfold keys, finite_errors. now rewrite map_map. }
  assert (Hj : (j < nrows (test_df inp))%nat).
  { destruct (test_preds (tr_state tr)) as [| [k arr] rest] eqn:Et.
    - simpl in Hkt. congruence.
    - inversion Hrows as [| ? ? [x [Hx _]] _]; subst.
      inversion Hlen as [| ? ? Harr _]; subst. cbn [snd] in *.
      rewrite <- Harr. eapply lookup_lt_Some; eauto. }
  unfold ensemble_preds_log in Hb. rewrite Hw, Hes in Hb.
  destruct (blend_weighted_mean es (test_preds (tr_state tr)) (nrows (test_df inp)) j lo hi
              (tr_blend tr)) as [b [Hout Hbounds]]; try assumption.
  - intros ->. simpl in Hkes. congruence.
  - now rewrite Hkes.
  - now rewrite Hkes.
  - exists b. split; [exact Hout | split; [exact Hbounds |]].
    assert (Hpj : tr_preds tr !! j = Some (float_exp b)).
    { rewrite Hp. unfold ensemble_preds.
      exact (lookup_map fexp _ _ (Fin b) Hout). }
    split; [exact Hpj |]. intros Hlo Hhi.
    split; [rewrite Hpj, float_exp_in_range by lra; reflexivity |].
    split; apply exp_monotone; lra.
Qed.

(** The run with two models that both complete. *)
Lemma demo_two_run_trace :
  exists tr,
    run demo_two_run = Ok tr
    /\ tr_errors tr = [("XGB", Fin demo_error); ("LGBM", Fin demo_second_error)]
    /\ test_preds (tr_state tr) = [("XGB", [0; 0]); ("LGBM", [1; 1])].
Proof.
  destruct (run_writes demo_two_run
              (mkSeries (numpy_dtype Kfloat) 1 (repeat (Num 1) 12)) (repeat 1 12)
              (mkSeries (numpy_dtype Kint) 2 [Num 101; Num 102]) _
              eq_refl eq_refl eq_refl eq_refl demo_detect)
    as (tr & Hrun & Hst & Herr & _).
  assert (Est : exists a0 a1 b0 b1,
            tr_state tr
            = mkState [("XGB", repeat 0 12); ("LGBM", repeat 2 12)]
                      [("XGB", [a0; a1]); ("LGBM", [b0; b1])] ["XGB"; "LGBM"]
            /\ a0 = 0 /\ a1 = 0 /\ b0 = 1 /\ b1 = 1).
  { rewrite Hst. eexists _, _, _, _. split; [reflexivity |].
    cbv beta. unfold N_SPLITS. simpl INR. repeat split; lra. }
  destruct Est as (a0 & a1 & b0 & b1 & Est & -> & -> & -> & ->).
  exists tr. split; [exact Hrun | split; [| now rewrite Est]].
  rewrite <- Hst, Est in Herr.
  read_errors Herr
    [("XGB", smape_np (np_exp (repeat 1 12)) (np_exp (repeat 0 12)));
     ("LGBM", smape_np (np_exp (repeat 1 12)) (np_exp (repeat 2 12)))].
  rewrite (smape_np_in_range (repeat 1 12) (repeat 0 12)) by small_range.
  rewrite (smape_np_in_range (repeat 1 12) (repeat 2 12)) by small_range.
  pose proof (smape_constant (exp 1) (exp 0) 11) as Hc0. cbn [repeat] in Hc0.
  pose proof (smape_constant (exp 1) (exp 2) 11) as Hc2. cbn [repeat] in Hc2.
  cbn [map repeat]. now rewrite Hc0, Hc2.
Qed.

End WeightedMean.

Lemma ensemble_between_model_predictions_witness :
  exists tr b,
    run demo_two_run = Ok tr
    /\ tr_blend tr !! 0 = Some (Fin b) /\ (0 <= b <= 1)%R
    /\ tr_preds tr !! 0 = Some (Fin (exp b)).
Proof.
  destruct demo_two_run_trace as (tr & Hrun & Herr & Htst).
  destruct (ensemble_between_model_predictions demo_two_run tr 0 0%R 1%R Hrun)
    as (b & Hb & Hbounds & _ & Hprice).
  - apply List.NoDup_cons; [simpl; intros [H | []]; discriminate H |].
    apply List.NoDup_cons; [simpl; tauto | apply List.NoDup_nil].
  - discriminate.
  - rewrite Herr. pose proof demo_error_pos. pose proof demo_second_error_pos.
    constructor; [exists demo_error; split; [reflexivity | lra] |].
    constructor; [exists demo_second_error; split; [reflexivity | lra] | constructor].
  - rewrite Htst.
    constructor; [exists 0%R; split; [reflexivity | lra] |].
    constructor; [exists 1%R; split; [reflexivity | lra] | constructor].
  - exists tr, b. split; [exact Hrun | split; [exact Hb | split; [exact Hbounds |]]].
    apply Hprice; unfold EXP_UNDERFLOW, EXP_OVERFLOW; lra.
Defined.

(** ** Weights and the scale of the errors *)

Section WeightScale.
Local Open Scope R_scope.

Lemma np_sum_scaled_inverse (c : R) (es : dict R) :
  c <> 0 -> Forall (fun kv => 0 < snd kv) es ->
  sum_inverse (map (fun kv => (fst kv, c * snd kv)) es) = sum_inverse es / c.
Proof.
  intros Hc Hpos. unfold sum_inverse.
  induction Hpos as [| [k e] es He Hpos IH]; cbn [map np_sum fold_right fst snd] in *.
  - unfold Rdiv. now rewrite Rmult_0_l.
  - fold (np_sum (map (fun kv : string * R => 1 / snd kv)
                    (map (fun kv : string * R => (fst kv, c * snd kv)) es))).
    fold (np_sum (map (fun kv : string * R => 1 / snd kv) es)).
    rewrite IH. field. split; lra.
Qed.

(** X14.  The weights depend on the ratios of the errors only: measuring
    every error in another unit (as a fraction, say, instead of a
    percentage) leaves every weight as it is. *)
Theorem weights_ignore_the_unit_of_the_errors (c : R) (es : dict R) :
  0 < c -> Forall (fun kv => 0 < snd kv) es ->
  norm_weights (inv_errors (finite_errors (map (fun kv => (fst kv, c * snd kv)) es)))
  = norm_weights (inv_errors (finite_errors es)).
Proof.
  intros Hc Hpos. destruct es as [| kv0 es0]; [reflexivity |].
  set (es := kv0 :: es0) in *.
  assert (Hpos' : Forall (fun kv : string * R => 0 < snd kv)
                    (map (fun kv => (fst kv, c * snd kv)) es)).
  { clear -Hc Hpos. induction Hpos as [| kv l Hkv Hpos IH]; simpl; constructor;
      [simpl; now apply Rmult_lt_0_compat | exact IH]. }
  rewrite !norm_weights_rule; try assumption; try discriminate.
  unfold weight_rule. rewrite np_sum_scaled_inverse by (assumption || lra).
  pose proof (sum_inverse_pos es ltac:(discriminate) Hpos) as HS.
  rewrite map_map. cbn [fst snd].
  generalize (sum_inverse es) HS. intros S HS'.
  clear -Hc Hpos HS'. induction Hpos as [| [k e] l He Hpos IH]; simpl; [reflexivity |].
  rewrite IH. do 3 f_equal. simpl in He. field. repeat split; lra.
Qed.

Lemma weights_ignore_the_unit_of_the_errors_witness :
  norm_weights (inv_errors (finite_errors
    (map (fun kv => (fst kv, 100 * snd kv)) [("XGB", 1 / 4); ("LGBM", 1 / 2)])))
  = norm_weights (inv_errors (finite_errors [("XGB", 1 / 4); ("LGBM", 1 / 2)])).
Proof.
  apply (weights_ignore_the_unit_of_the_errors 100 [("XGB", 1 / 4); ("LGBM", 1 / 2)]).
  - lra.
  - repeat constructor; simpl; lra.
Defined.

End WeightScale.

(** ** A registry of one model *)

Section SingleModel.
Local Open Scope R_scope.

Lemma blend_single_model (arr : list R) :
  map (fun x => fadd (Fin 0) (fmul (Fin x) (Fin 1))) arr = map Fin arr.
Proof.
  apply map_ext. intros x. cbn [fmul fadd]. f_equal. lra.
Qed.

Lemma fexp_Fin (a : list R) : map fexp (map Fin a) = np_exp a.
Proof. unfold np_exp. now rewrite map_map. Qed.

Lemma keys_singleton {V : Type} (d : dict V) (k : string) :
  keys d = [k] -> exists v, d = [(k, v)].
Proof.
  destruct d as [| [k' v] [| kv d]]; try discriminate.
  intros [= ->]. eauto.
Qed.

(** X15.  With one model in the registry (as the notebook runs) and an
    error that is a number other than 0, the ensemble is that model: its
    weight is 1, the log-space blend is its test array, the final
    predictions are [np.exp] of that array, the blend of the out-of-fold
    store is its out-of-fold array, and the ensemble's cross-validation
    SMAPE is the model's own. *)
Theorem single_model_ensemble_is_the_model (inp : run_input) (tr : run_trace) (k : string) :
  run inp = Ok tr ->
  models inp = [k] ->
  Forall (fun kv => exists e, snd kv = Fin e /\ e <> 0) (tr_errors tr) ->
  exists y_col y oof tst e,
    getitem (train_df inp) TARGET = Ok (OneColumn y_col)
    /\ to_floats (values y_col) = Ok y
    /\ oof_preds (tr_state tr) = [(k, oof)]
    /\ test_preds (tr_state tr) = [(k, tst)]
    /\ tr_errors tr = [(k, Fin e)]
    /\ 0 < e
    /\ tr_weights tr = [(k, Fin 1)]
    /\ tr_blend tr = map Fin tst
    /\ tr_preds tr = np_exp tst
    /\ ensemble_oof_log (tr_state tr) (tr_weights tr) (length y) = Ok (map Fin oof)
    /\ ensemble_smape y (map Fin oof) = Fin e.
Proof.
  intros Hrun Hm Hnz.
  destruct (positive_errors _ (run_errors_cases inp tr Hrun) Hnz) as [es [Hes Hpos]].
  destruct (run_stores inp tr Hrun) as (Hko & Hkt & Hlt).
  destruct (run_inversion inp tr Hrun)
    as (y_col & y & ids & Hy & Hf & _ & _ & _ & Hk & Hw & Hp & _ & Hb & Hst & Herr).
  rewrite Hm in *.
  destruct (keys_singleton _ _ Hko) as [oof Hoof].
  destruct (keys_singleton _ _ Hkt) as [tst Htst].
  destruct (keys_singleton _ _ Hk) as [e' He'].
  assert (Hlo : length oof = length y).
  { assert (H : Forall (fun kv : string * list R => length (snd kv) = length y)
                  (oof_preds (tr_state tr))).
    { rewrite Hst. unfold train_all. apply train_fold_oof_lengths, init_oof_lengths. }
    rewrite Hoof in H. now inversion H. }
  assert (Hltst : length tst = nrows (test_df inp)).
  { rewrite Htst in Hlt. now inversion Hlt. }
  destruct es as [| [k' e] [| kv es]]; rewrite He' in Hes; try discriminate Hes.
  injection Hes as <- ->. inversion Hpos as [| ? ? He _]; subst. cbn [snd] in He.
  assert (Ew : tr_weights tr = [(k, Fin 1)]).
  { rewrite Hw, He'. now apply single_model_weight. }
  assert (Eb : tr_blend tr = map Fin tst).
  { unfold ensemble_preds_log in Hb. rewrite Ew, Htst in Hb.
    rewrite blend_one in Hb by assumption. apply Ok_eq in Hb.
    now rewrite blend_single_model in Hb. }
  exists y_col, y, oof, tst, e.
  split; [exact Hy | split; [exact Hf | split; [exact Hoof | split; [exact Htst |]]]].
  split; [exact He' | split; [exact He | split; [exact Ew | split; [exact Eb |]]]].
  split; [rewrite Hp, Eb; unfold ensemble_preds; apply fexp_Fin |].
  split.
  - unfold ensemble_oof_log. rewrite Ew, Hoof.
    rewrite blend_one by assumption. now rewrite blend_single_model.
  - unfold ensemble_smape. rewrite fexp_Fin.
    unfold errors in Herr. cbn [dict_comp] in Herr. unfold item in Herr.
    rewrite Hoof in Herr. cbn [dict_get] in Herr. rewrite String.eqb_refl in Herr.
    cbn [rbind] in Herr. rewrite He' in Herr. now injection Herr.
Qed.

Lemma single_model_ensemble_is_the_model_witness :
  exists tr oof,
    run demo_run = Ok tr
    /\ oof_preds (tr_state tr) = [("XGB", oof)]
    /\ tr_weights tr = [("XGB", Fin 1)]
    /\ ensemble_smape (repeat 1 12) (map Fin oof) = Fin demo_error.
Proof.
  destruct demo_run_trace as (tr & Hrun & _ & Herr & _).
  destruct (single_model_ensemble_is_the_model demo_run tr "XGB" Hrun eq_refl)
    as (y_col & y & oof & tst & e & Hy & Hf & Hoof & _ & He & _ & Hw & _ & _ & _ & Hs).
  - rewrite Herr. constructor; [| constructor].
    exists demo_error. split; [reflexivity |]. pose proof demo_error_pos. lra.
  - injection Hy as <-. injection Hf as <-.
    rewrite Herr in He. injection He as <-.
    exists tr, oof. split; [exact Hrun | split; [exact Hoof | split; [exact Hw | exact Hs]]].
Defined.

End SingleModel.

(** ** The clip *)

Section Clip.
Local Open Scope R_scope.

Lemma fexp_zero (v : npfloat) :
  fexp v = Fin 0 <-> v = NInf \/ exists b, v = Fin b /\ b < EXP_UNDERFLOW.
Proof.
  destruct v as [b | | |]; cbn [fexp].
  - rewrite float_exp_zero. split.
    + intros Hb. right. now exists b.
    + intros [H | [b' [[= <-] Hb]]]; [discriminate | exact Hb].
  - split; [discriminate | intros [H | [b [H _]]]; discriminate].
  - split; [now left | reflexivity].
  - split; [discriminate | intros [H | [b [H _]]]; discriminate].
Qed.

(** X16.  In every run, also one in which an error is 0 or nan, the clip
    at 0 changes no value: a final prediction is [np.exp] of a blend, so
    it is nan, inf, or a number that is not negative; the written prices
    are the final predictions; and a price is 0.0 exactly where [np.exp]
    underflows: where the blend is below the smallest argument whose
    exponential is not rounded to zero, or is -inf. *)
Theorem clip_changes_no_prediction (inp : run_input) (tr : run_trace) :
  run inp = Ok tr ->
  np_clip (tr_preds tr) 0 = tr_preds tr
  /\ map snd (tr_submission tr) = tr_preds tr
  /\ Forall (fun row => snd row = NaN \/ snd row = PInf
                        \/ exists x, snd row = Fin x /\ 0 <= x) (tr_submission tr)
  /\ forall j,
       tr_preds tr !! j = Some (Fin 0)
       <-> exists v, tr_blend tr !! j = Some v
                     /\ (v = NInf \/ exists b, v = Fin b /\ b < EXP_UNDERFLOW).
Proof.
  intros Hrun.
  destruct (run_inversion inp tr Hrun)
    as (y_col & y & ids & _ & _ & _ & Hlen & _ & _ & _ & Hp & Hs & _).
  pose proof (ensemble_preds_sign (tr_blend tr)) as Hall. rewrite <- Hp in Hall.
  assert (Hclip : np_clip (tr_preds tr) 0 = tr_preds tr)
    by (rewrite Hp; apply np_clip_ensemble_preds).
  split; [exact Hclip |]. rewrite Hs, Hclip.
  assert (Hl : length (values ids) = length (tr_preds tr)).
  { rewrite Hp. unfold ensemble_preds. now rewrite length_map. }
  split; [apply combine_snd; lia |].
  split.
  - exact (combine_Forall_snd
             (fun v : npfloat => v = NaN \/ v = PInf \/ exists x, v = Fin x /\ 0 <= x)
             _ _ Hall).
  - intros j. rewrite Hp. unfold ensemble_preds.
    change (map fexp (tr_blend tr)) with (fexp <$> tr_blend tr).
    rewrite list_lookup_fmap.
    destruct (tr_blend tr !! j) as [v |]; cbn.
    + split.
      * intros [= Hv]. exists v. split; [reflexivity | now apply fexp_zero].
      * intros [v' [[= <-] Hv]]. f_equal. now apply fexp_zero.
    + split; [discriminate | intros [v [H _]]; discriminate].
Qed.

Lemma clip_changes_no_prediction_witness :
  exists tr,
    run demo_exact_run = Ok tr
    /\ np_clip (tr_preds tr) 0 = tr_preds tr
    /\ map snd (tr_submission tr) = tr_preds tr.
Proof.
  destruct demo_exact_run_trace as (tr & Hrun & _).
  destruct (clip_changes_no_prediction demo_exact_run tr Hrun) as (Hc & Hs & _).
  exists tr. split; [exact Hrun | split; [exact Hc | exact Hs]].
Defined.

End Clip.

(** ** A model that fails at once *)

Section FailsAtOnce.
Local Open Scope R_scope.

Lemma np_exp_zeros (n : nat) : np_exp (np_zeros n) = repeat (Fin 1) n.
Proof.
  unfold np_exp, np_zeros. induction n as [| n IH]; simpl; [reflexivity |].
  rewrite IH, float_exp_in_range by (unfold EXP_UNDERFLOW, EXP_OVERFLOW; lra).
  now rewrite exp_0.
Qed.

(** X17.  A model whose first fit raises is not left out of the run: its
    two arrays stay as they were created, all zeros; it is not recorded in
    the feature importances; and it is scored as if it had predicted the
    price exp 0 = 1 for every training row. *)
Theorem model_failing_at_once_is_scored_on_zeros
    (inp : run_input) (tr : run_trace) (name : string) :
  run inp = Ok tr ->
  List.NoDup (models inp) -> In name (models inp) ->
  (forall train_idx, fit inp name 1%nat train_idx = RaisesBeforeStore) ->
  exists y_col y,
    getitem (train_df inp) TARGET = Ok (OneColumn y_col)
    /\ to_floats (values y_col) = Ok y
    /\ dict_get (oof_preds (tr_state tr)) name = Some (np_zeros (length y))
    /\ dict_get (test_preds (tr_state tr)) name = Some (np_zeros (nrows (test_df inp)))
    /\ ~ In name (feature_importances (tr_state tr))
    /\ dict_get (tr_errors tr) name
       = Some (smape_np (np_exp y) (repeat (Fin 1) (length y))).
Proof.
  intros Hrun Hnd Hin Hraise.
  destruct (run_stores inp tr Hrun) as (Hko & _ & _).
  destruct (run_inversion inp tr Hrun)
    as (y_col & y & ids & Hy & Hf & _ & _ & _ & _ & _ & _ & _ & _ & Hst & Herr).
  exists y_col, y. split; [exact Hy | split; [exact Hf |]].
  set (n_test := nrows (test_df inp)) in *.
  set (tf := map (fold_of inp) (seq 0 (length y))) in *.
  assert (Hout : cv_folds (fit inp name) n_test (enumerate_folds tf)
                   (np_zeros (length y)) (np_zeros n_test)
                 = (np_zeros (length y), np_zeros n_test, false)).
  { rewrite enumerate_folds_map. cbn [N_SPLITS seq map cv_folds].
    now rewrite Hraise. }
  assert (Hinit : forall k, In k (models inp) ->
            dict_get (oof_preds (init_state (models inp) (length y) n_test)) k
            = Some (np_zeros (length y))
            /\ dict_get (test_preds (init_state (models inp) (length y) n_test)) k
               = Some (np_zeros n_test)).
  { intros k Hk. cbn [init_state oof_preds test_preds]. split; now apply dict_get_init. }
  destruct (Hinit name Hin) as [Ho Ht].
  destruct (train_fold_entry (fit inp) (length y) n_test tf (models inp) _ name
              Hnd Hin Ho Ht) as [Eo Et].
  fold (train_all (fit inp) (models inp) (length y) n_test tf) in Eo, Et.
  rewrite <- Hst, Hout in Eo, Et. cbn [fst snd] in Eo, Et.
  split; [exact Eo | split; [exact Et | split]].
  - rewrite Hst. unfold train_all.
    rewrite (train_fold_importances (fit inp) (length y) n_test tf (models inp)
               _ name Hnd Hinit).
    cbn [init_state feature_importances]. rewrite Hout. cbn [snd].
    intros [[] | [_ H]]. discriminate H.
  - rewrite errors_total in Herr by (intros k Hk; now rewrite Hko).
    apply Ok_eq in Herr. rewrite <- Herr.
    rewrite (dict_get_comprehension
               (fun name => smape_np (np_exp y)
                              (np_exp (default [] (dict_get (oof_preds (tr_state tr)) name))))
               (models inp) name Hin).
    rewrite Eo.
    change (default [] (Some (np_zeros (length y)))) with (np_zeros (length y)).
    now rewrite np_exp_zeros.
Qed.

Lemma model_failing_at_once_is_scored_on_zeros_witness :
  exists tr,
    run demo_mixed_run = Ok tr
    /\ dict_get (oof_preds (tr_state tr)) "LGBM" = Some (np_zeros 12)
    /\ ~ In "LGBM" (feature_importances (tr_state tr))
    /\ dict_get (tr_errors tr) "LGBM"
       = Some (smape_np (np_exp (repeat 1 12)) (repeat (Fin 1) 12)).
Proof.
  destruct demo_mixed_run_trace as (tr & Hrun & _).
  destruct (model_failing_at_once_is_scored_on_zeros demo_mixed_run tr "LGBM" Hrun)
    as (y_col & y & Hy & Hf & Ho & _ & Hfi & He).
  - apply List.NoDup_cons; [simpl; intros [H | []]; discriminate H |].
    apply List.NoDup_cons; [simpl; tauto | apply List.NoDup_nil].
  - simpl. tauto.
  - reflexivity.
  - injection Hy as <-. injection Hf as <-.
    exists tr. split; [exact Hrun | split; [exact Ho | split; [exact Hfi | exact He]]].
Defined.

End FailsAtOnce.
